(** * SEG-Y header extraction, statistics and caching

    A shallow embedding of the extraction-and-caching pipeline of the
    repository ([file_handler.py], [segy_info_extractor.py],
    [segy_handler.py]) and the properties its specification states.

    Layout: the Python values the code manipulates ([Py]), the pandas and
    numpy operations it calls ([Pandas]), the SEG-Y library and the files
    on disk as the code observes them ([Segyio]), then the three source
    classes ([FileHandler], [SegyInfoExtractor], [SegyHandler]); after the
    model come the predicates the properties are stated with, the example
    inputs, and the properties themselves, one group per part of the
    pipeline. *)

From Stdlib Require Import ZArith QArith Lqa String Ascii List Bool Lia DecimalString.
From Stdlib Require Import Floats.SpecFloat.
From stdpp Require Import gmap strings.

Open Scope string_scope.
Open Scope Z_scope.

(* ===================================================================== *)
(** * Python values                                                       *)
(* ===================================================================== *)

Module Py.

(** ** Exceptions and results *)

Inductive exn_class :=
| ExceptionC | ValueErrorC | KeyErrorC | TypeErrorC | AttributeErrorC
| RuntimeErrorC | FileNotFoundErrorC.

(** A raised exception: its class and [str(e)]. *)
Record exn := Exn { exn_cls : exn_class; exn_msg : string }.

Inductive result (A : Type) :=
| Ok (a : A)
| Raise (e : exn).
Arguments Ok {A} a.
Arguments Raise {A} e.

#[global] Instance result_ret : MRet result := fun A a => Ok a.
#[global] Instance result_bind : MBind result := fun A B k r =>
  match r with
  | Ok a => k a
  | Raise e => Raise e
  end.

(** [except FileNotFoundError] comes before [except Exception] in the
    handlers of the source; every class here derives from [Exception]. *)
Definition is_instance (e : exn) (c : exn_class) : bool :=
  match c, exn_cls e with
  | ExceptionC, _ => true
  | ValueErrorC, ValueErrorC => true
  | KeyErrorC, KeyErrorC => true
  | TypeErrorC, TypeErrorC => true
  | AttributeErrorC, AttributeErrorC => true
  | RuntimeErrorC, RuntimeErrorC => true
  | FileNotFoundErrorC, FileNotFoundErrorC => true
  | _, _ => false
  end.

(** ** Strings

    Text is modelled by byte strings; the case conversions act on the
    ASCII letters. *)

Definition str_eqb (a b : string) : bool := String.eqb a b.

(** [s.startswith(p)] *)
Definition startswith (p s : string) : bool := String.prefix p s.

(** [sub in s] *)
Fixpoint str_contains (sub s : string) : bool :=
  String.prefix sub s ||
  match s with
  | EmptyString => false
  | String _ s' => str_contains sub s'
  end.

(** [s.rstrip(c)] for a one-character argument. *)
Fixpoint rstrip (c : ascii) (s : string) : string :=
  match s with
  | EmptyString => EmptyString
  | String a s' =>
      match rstrip c s' with
      | EmptyString => if Ascii.eqb a c then EmptyString else String a EmptyString
      | r => String a r
      end
  end.

(** [s.replace(old, new)]; [skip] counts the characters of a match that are
    still to be consumed. *)
Fixpoint replace_from (old new : string) (skip : nat) (s : string) : string :=
  match s with
  | EmptyString => EmptyString
  | String c s' =>
      match skip with
      | S k => replace_from old new k s'
      | O =>
          if String.prefix old s
          then new ++ replace_from old new (Nat.pred (String.length old)) s'
          else String c (replace_from old new O s')
      end
  end.

Fixpoint intersperse (sep s : string) : string :=
  match s with
  | EmptyString => sep
  | String c s' => sep ++ String c (intersperse sep s')
  end.

Definition str_replace (old new s : string) : string :=
  match old with
  | EmptyString => intersperse new s
  | _ => replace_from old new O s
  end.

Definition is_upper (c : ascii) : bool :=
  (65 <=? nat_of_ascii c)%nat && (nat_of_ascii c <=? 90)%nat.
Definition is_lower (c : ascii) : bool :=
  (97 <=? nat_of_ascii c)%nat && (nat_of_ascii c <=? 122)%nat.
Definition to_upper (c : ascii) : ascii :=
  if is_lower c then ascii_of_nat (nat_of_ascii c - 32) else c.
Definition to_lower (c : ascii) : ascii :=
  if is_upper c then ascii_of_nat (nat_of_ascii c + 32) else c.

Fixpoint str_map (f : ascii -> ascii) (s : string) : string :=
  match s with
  | EmptyString => EmptyString
  | String c s' => String (f c) (str_map f s')
  end.

(** [s.lower()] and [s.capitalize()] on ASCII text. *)
Definition str_lower (s : string) : string := str_map to_lower s.
Definition capitalize (s : string) : string :=
  match s with
  | EmptyString => EmptyString
  | String c s' => String (to_upper c) (str_lower s')
  end.

(** [sep.join(parts)] *)
Fixpoint str_join (sep : string) (parts : list string) : string :=
  match parts with
  | [] => EmptyString
  | [p] => p
  | p :: ps => p ++ sep ++ str_join sep ps
  end.

(** [str(n)] for a Python [int]. *)
Definition str_of_Z (n : Z) : string := NilZero.string_of_int (Z.to_int n).

(** ** binary64 floating point *)

Definition float64 := spec_float.

Definition prec : Z := 53.
Definition emax : Z := 1024.

Definition fzero : float64 := S754_zero false.
Definition fnan : float64 := S754_nan.
Definition fadd : float64 -> float64 -> float64 := SFadd prec emax.
Definition fsub : float64 -> float64 -> float64 := SFsub prec emax.
Definition fdiv : float64 -> float64 -> float64 := SFdiv prec emax.
Definition fabs : float64 -> float64 := SFabs.
Definition fltb : float64 -> float64 -> bool := SFltb.
Definition feqb : float64 -> float64 -> bool := SFeqb.

(** [float(n)]: the binary64 nearest to the integer [n]. *)
Definition float_of_Z (n : Z) : float64 := binary_normalize prec emax n 0 false.

Definition is_nan (x : float64) : bool :=
  match x with
  | S754_nan => true
  | _ => false
  end.

(** ** [f"{x:.2f}"]

    The value of a finite binary64 is the dyadic [m * 2^e]; the format
    rounds that exact value to hundredths, ties to even. *)
Definition round_half_even (n d : Z) : Z :=
  let q := n / d in
  let r := n mod d in
  match 2 * r ?= d with
  | Lt => q
  | Gt => q + 1
  | Eq => if Z.even q then q else q + 1
  end.

Definition hundredths (m : positive) (e : Z) : Z :=
  match e with
  | Zneg p => round_half_even (100 * Zpos m) (2 ^ Zpos p)
  | _ => 100 * Zpos m * 2 ^ e
  end.

Definition two_digits (n : Z) : string :=
  (if n <? 10 then "0" else "") ++ str_of_Z n.

Definition sign_str (s : bool) : string := if s then "-" else "".

Definition format_2f (x : float64) : string :=
  match x with
  | S754_nan => "nan"
  | S754_infinity s => sign_str s ++ "inf"
  | S754_zero s => sign_str s ++ "0.00"
  | S754_finite s m e =>
      let h := hundredths m e in
      sign_str s ++ str_of_Z (h / 100) ++ "." ++ two_digits (h mod 100)
  end.

(** ** Dynamic values *)

(** [VFloat] stands for a Python [float] and for a numpy floating scalar
    alike (the source converts with [float(value)] before formatting);
    [VNpInt] is a numpy integer scalar, [VInt] a Python [int]. *)
Inductive value :=
| VNone
| VBool (b : bool)
| VInt (n : Z)
| VNpInt (n : Z)
| VFloat (x : float64)
| VStr (s : string).

(** The integer a number-like value denotes, if it is one of the integer
    kinds ([bool] is a subclass of [int]). *)
Definition int_of (v : value) : option Z :=
  match v with
  | VBool b => Some (if b then 1 else 0)
  | VInt n | VNpInt n => Some n
  | _ => None
  end.

(** [a == b] *)
Definition py_eq (a b : value) : bool :=
  match a, b with
  | VNone, VNone => true
  | VStr s, VStr t => str_eqb s t
  | VFloat x, VFloat y => feqb x y
  | VFloat x, _ =>
      match int_of b with
      | Some n => feqb x (float_of_Z n)
      | None => false
      end
  | _, VFloat y =>
      match int_of a with
      | Some n => feqb (float_of_Z n) y
      | None => false
      end
  | _, _ =>
      match int_of a, int_of b with
      | Some n, Some k => n =? k
      | _, _ => false
      end
  end.

Definition py_ne (a b : value) : bool := negb (py_eq a b).

(** [v in vs] for a list: [any(v == w for w in vs)]. *)
Definition py_in (v : value) (vs : list value) : bool := existsb (py_eq v) vs.

(** [a / b]: true division; [TypeError] for operands that are not numbers.
    Division of an integer by zero raises, division of a numpy scalar or a
    float follows IEEE. *)
Definition type_error : exn := Exn TypeErrorC "unsupported operand type(s) for /".

Definition to_float (v : value) : option float64 :=
  match v with
  | VFloat x => Some x
  | _ => option_map float_of_Z (int_of v)
  end.

Definition py_truediv (a : value) (b : Z) : result value :=
  match to_float a with
  | Some x => Ok (VFloat (fdiv x (float_of_Z b)))
  | None => Raise type_error
  end.

(** ** The platform *)

(** What the installed interpreter and libraries fix: the listing
    [dir(segyio.BinField)], [str(x)] for a float [x], and [np.std] of an
    array of floats where the roundings and the order of the additions
    decide the result (see [std_ne_zero]). *)
Class Platform := {
  binfield_dir : list string;
  float_repr : float64 -> string;
  np_std : list float64 -> float64
}.

End Py.

(* ===================================================================== *)
(** * pandas and numpy                                                    *)
(* ===================================================================== *)

Module Pandas.
Import Py.

(** ** Small list utilities *)

Fixpoint insert_sorted {A} (leb : A -> A -> bool) (x : A) (l : list A) : list A :=
  match l with
  | [] => [x]
  | y :: l' => if leb x y then x :: l else y :: insert_sorted leb x l'
  end.

Definition isort {A} (leb : A -> A -> bool) (l : list A) : list A :=
  foldr (insert_sorted leb) [] l.

(** Keep the first occurrence of every element, up to [eqb]. *)
Fixpoint dedup_by {A} (eqb : A -> A -> bool) (l : list A) : list A :=
  match l with
  | [] => []
  | x :: l' => x :: List.filter (fun y => negb (eqb x y)) (dedup_by eqb l')
  end.

Definition count_by {A} (eqb : A -> A -> bool) (x : A) (l : list A) : Z :=
  Z.of_nat (length (List.filter (fun y => eqb x y) l)).

(** Successive differences [l[i] - l[i-1]], for [i >= 1]. *)
Fixpoint diffs {A} (sub : A -> A -> A) (l : list A) : list A :=
  match l with
  | x :: (y :: _) as l' => sub y x :: diffs sub l'
  | _ => []
  end.

Definition Zlen {A} (l : list A) : Z := Z.of_nat (length l).

(** ** Floats as pandas and numpy order them *)

(** Two floats fall into one group when they compare equal, or both are
    NaN ([unique] keeps a single NaN). *)
Definition same_float (x y : float64) : bool :=
  feqb x y || (is_nan x && is_nan y).

(** Sorting order of numpy: NaN last. *)
Definition float_leb (x y : float64) : bool :=
  is_nan y || SFleb x y.

(** [np.maximum] and [np.minimum]: a NaN operand wins. *)
Definition np_fmax (a b : float64) : float64 :=
  if is_nan a then a else if is_nan b then b else if fltb a b then b else a.
Definition np_fmin (a b : float64) : float64 :=
  if is_nan a then a else if is_nan b then b else if fltb b a then b else a.

(** Sum of a float array, accumulated from [0.0]. The arrays of this
    program hold integer-valued floats, whose partial sums are exact. *)
Definition fsum (xs : list float64) : float64 := fold_left fadd xs fzero.

(** ** Series *)

(** The one-dimensional data the extractor works on: a column of the
    header table (a pandas Series of 64-bit integers, as the SEG-Y trace
    header words are scraped) or a numpy array of floats (what [np.zeros]
    builds). *)
Inductive series :=
| PdSeries (xs : list Z)
| NdArray (xs : list float64).

Definition series_len (s : series) : nat :=
  match s with
  | PdSeries xs => length xs
  | NdArray xs => length xs
  end.

(** The elements as floats ([astype(float64)]). *)
Definition series_floats (s : series) : list float64 :=
  match s with
  | PdSeries xs => map float_of_Z xs
  | NdArray xs => xs
  end.

(** [np.zeros(n)] *)
Definition np_zeros (n : nat) : series := NdArray (repeat fzero n).

Definition empty_reduction (name : string) : exn :=
  Exn ValueErrorC
    ("zero-size array to reduction operation " ++ name ++ " which has no identity").

(** [s.max()] and [s.min()]. An empty pandas Series reduces to NaN, an
    empty numpy array raises [ValueError]. *)
Definition s_max (s : series) : result value :=
  match s with
  | PdSeries [] => Ok (VFloat fnan)
  | PdSeries (x :: xs) => Ok (VNpInt (fold_left Z.max xs x))
  | NdArray [] => Raise (empty_reduction "maximum")
  | NdArray (x :: xs) => Ok (VFloat (fold_left np_fmax xs x))
  end.

Definition s_min (s : series) : result value :=
  match s with
  | PdSeries [] => Ok (VFloat fnan)
  | PdSeries (x :: xs) => Ok (VNpInt (fold_left Z.min xs x))
  | NdArray [] => Raise (empty_reduction "minimum")
  | NdArray (x :: xs) => Ok (VFloat (fold_left np_fmin xs x))
  end.

(** [s.mean()]: the sum as float64 over the count; NaN when empty. *)
Definition s_mean (s : series) : float64 :=
  let xs := series_floats s in
  fdiv (fsum xs) (float_of_Z (Zlen xs)).

(** [len(pd.Series(s).unique())] and [len(np.unique(s))] *)
Definition n_unique (s : series) : Z :=
  match s with
  | PdSeries xs => Zlen (dedup_by Z.eqb xs)
  | NdArray xs => Zlen (dedup_by same_float xs)
  end.

(** ** Float Series: [diff], [mean], [mode] *)

(** [pd.Series(s).diff()]: a float64 Series whose first entry is NaN. *)
Definition pd_diff (s : series) : list float64 :=
  match s with
  | PdSeries [] | NdArray [] => []
  | PdSeries xs => fnan :: map float_of_Z (diffs Z.sub xs)
  | NdArray xs => fnan :: diffs fsub xs
  end.

Definition dropna (xs : list float64) : list float64 :=
  List.filter (fun x => negb (is_nan x)) xs.

(** [fs.mean()] of a float Series: NaN entries are skipped; NaN when
    nothing is left. *)
Definition pd_mean (fs : list float64) : float64 :=
  let vs := dropna fs in
  fdiv (fsum vs) (float_of_Z (Zlen vs)).

(** [fs.mode()]: the most frequent values among the entries that are not
    NaN, in ascending order. *)
Definition pd_mode (fs : list float64) : list float64 :=
  let vs := dropna fs in
  let best := fold_left Z.max (map (fun v => count_by feqb v vs) vs) 0 in
  isort float_leb
    (dedup_by feqb (List.filter (fun v => count_by feqb v vs =? best) vs)).

(** [fs[0]] on a Series with the default index. *)
Definition series_item0 (fs : list float64) : result float64 :=
  match fs with
  | x :: _ => Ok x
  | [] => Raise (Exn KeyErrorC "0")
  end.

(** ** [np.std], [groupby(...).size()], [np.unique], [np.median] *)

(** The exact rational a finite float denotes. *)
Definition Q_of_float (x : float64) : option Q :=
  match x with
  | S754_zero _ => Some 0%Q
  | S754_finite s m e =>
      let a := match e with
               | Zneg p => Qmake (Zpos m) (2 ^ p)
               | _ => inject_Z (Zpos m * 2 ^ e)
               end in
      Some (if s then Qopp a else a)
  | _ => None
  end.

Definition series_Q (s : series) : option (list Q) :=
  match s with
  | PdSeries xs => Some (map inject_Z xs)
  | NdArray xs => mapM Q_of_float xs
  end.

Definition Qsum (qs : list Q) : Q := fold_right Qplus 0%Q qs.

(** Population variance [sum((x - mean)^2) / n] in exact arithmetic. *)
Definition Qvariance (qs : list Q) : Q :=
  let n := inject_Z (Zlen qs) in
  let mu := Qdiv (Qsum qs) n in
  Qdiv (Qsum (map (fun x => Qmult (Qminus x mu) (Qminus x mu)) qs)) n.

(** [None] stands for NaN (no element, or an element that is not finite). *)
Definition variance (s : series) : option Q :=
  match series_Q s with
  | Some (q :: qs) => Some (Qvariance (q :: qs))
  | _ => None
  end.

(** The entries are integers whose absolute values add up to less than
    [2^53], or floats that are all zero. Every sum of such entries, in
    whatever order it is taken, is an integer below [2^53] in absolute value
    and so exact in binary64; the quotient of the sum of identical entries
    by their number is that entry; and two entries that differ are two
    different floats. *)
Definition exact_range (s : series) : bool :=
  match s with
  | PdSeries xs => fold_right Z.add 0 (map Z.abs xs) <? 2 ^ 53
  | NdArray xs => forallb (fun x => feqb x fzero) xs
  end.

Section WithPlatform.
Context `{Platform}.

(** [np.std(s) != 0]. numpy and pandas compute the standard deviation
    (with [ddof = 0]) in binary64 in two passes: the mean, then the root of
    the mean of the squared deviations from it; the source uses the result
    in this comparison only. Within [exact_range] the mean of identical
    entries is exact and all deviations are zero, and of two different
    entries one at least deviates from the mean by an amount whose square
    does not underflow: the result is zero exactly when the exact variance
    is, and the test is made on that (NaN, for no entries, differs from
    every number). Outside that range the result depends on the roundings
    and on the order in which the library adds, and is the platform's. *)
Definition std_ne_zero (s : series) : bool :=
  if exact_range s then
    match variance s with
    | None => true
    | Some v => negb (Qeq_bool v 0)
    end
  else negb (feqb (np_std (series_floats s)) fzero).

End WithPlatform.

(** [np.unique(s)]: the distinct elements in ascending order. *)
Definition np_unique (s : series) : series :=
  match s with
  | PdSeries xs => PdSeries (isort Z.leb (dedup_by Z.eqb xs))
  | NdArray xs => NdArray (isort float_leb (dedup_by same_float xs))
  end.

(** [np.sort(s)] *)
Definition np_sort (s : series) : series :=
  match s with
  | PdSeries xs => PdSeries (isort Z.leb xs)
  | NdArray xs => NdArray (isort float_leb xs)
  end.

(** [np.diff(s)]. The differences are taken in unbounded integers: the
    wrap-around of a narrow integer dtype is not modelled. *)
Definition np_diff (s : series) : series :=
  match s with
  | PdSeries xs => PdSeries (diffs Z.sub xs)
  | NdArray xs => NdArray (diffs fsub xs)
  end.

(** [pd.Series(s).groupby(s).size()]: for every distinct key in ascending
    order (NaN keys are dropped), the number of rows that carry it. *)
Definition groupby_size (s : series) : series :=
  match s with
  | PdSeries xs =>
      PdSeries (map (fun k => count_by Z.eqb k xs) (isort Z.leb (dedup_by Z.eqb xs)))
  | NdArray xs =>
      let vs := dropna xs in
      PdSeries (map (fun k => count_by feqb k vs) (isort float_leb (dedup_by feqb vs)))
  end.

(** [np.median(s)]: NaN for an empty array or one that holds a NaN, else
    the middle element of the sorted array, or the mean of the two middle
    ones. *)
Definition np_median (s : series) : float64 :=
  let xs := isort float_leb (series_floats s) in
  let n := length xs in
  if existsb is_nan xs then fnan
  else
    match n with
    | O => fnan
    | _ =>
        if Nat.even n
        then fdiv (fadd (nth (n / 2 - 1) xs fnan) (nth (n / 2) xs fnan)) (float_of_Z 2)
        else nth (n / 2) xs fnan
    end.

(** ** DataFrame *)

(** A table of integer columns: the row labels and the named columns in
    order, every column as long as the index. *)
Record DataFrame := mkDF {
  df_index : list Z;
  df_columns : list (string * list Z)
}.

Definition df_len (df : DataFrame) : nat := length (df_index df).

Definition df_wf (df : DataFrame) : Prop :=
  Forall (fun c => length (snd c) = df_len df) (df_columns df).

(** [df.columns.tolist()] *)
Definition df_names (df : DataFrame) : list string := map fst (df_columns df).

Fixpoint assoc {A} (k : string) (l : list (string * A)) : option A :=
  match l with
  | [] => None
  | (k', v) :: l' => if str_eqb k k' then Some v else assoc k l'
  end.

(** [key in df] *)
Definition df_has (df : DataFrame) (key : string) : bool :=
  existsb (str_eqb key) (df_names df).

Definition key_error (key : string) : exn := Exn KeyErrorC key.

(** [df[key]] *)
Definition df_get (df : DataFrame) (key : string) : result series :=
  match assoc key (df_columns df) with
  | Some xs => Ok (PdSeries xs)
  | None => Raise (key_error key)
  end.

(** [df[labels]] for a list of labels: the named columns in the order of
    [labels]; a label that is no column raises [KeyError]. *)
Fixpoint select_columns (cols : list (string * list Z)) (labels : list string)
  : result (list (string * list Z)) :=
  match labels with
  | [] => Ok []
  | k :: ks =>
      match assoc k cols with
      | Some xs => rest ← select_columns cols ks; Ok ((k, xs) :: rest)
      | None => Raise (key_error k)
      end
  end.

Definition df_select (df : DataFrame) (labels : list string) : result DataFrame :=
  cols ← select_columns (df_columns df) labels;
  Ok (mkDF (df_index df) cols).

(** [range(n)] *)
Definition range (n : nat) : list Z := map Z.of_nat (seq 0 n).

(** [df.reset_index(drop=True, inplace=True)] *)
Definition reset_index (df : DataFrame) : DataFrame :=
  mkDF (range (df_len df)) (df_columns df).

(** [d[k] = v] on an insertion-ordered mapping: an existing key keeps its
    place, a new one goes last. *)
Fixpoint dict_set {A} (k : string) (v : A) (l : list (string * A)) : list (string * A) :=
  match l with
  | [] => [(k, v)]
  | (k', v') :: l' => if str_eqb k k' then (k, v) :: l' else (k', v') :: dict_set k v l'
  end.

(** [df[key] = df.index] *)
Definition df_set_index_column (df : DataFrame) (key : string) : DataFrame :=
  mkDF (df_index df) (dict_set key (df_index df) (df_columns df)).

End Pandas.

(* ===================================================================== *)
(** * The SEG-Y libraries and the files on disk                           *)
(* ===================================================================== *)

Module Segyio.
Import Py Pandas.

(** One row of the table [segy_header_scan] returns: the header field (the
    row label) and its [mean] column. *)
Record scan_row := mkScan { scan_field : string; scan_mean : float64 }.

(** A SEG-Y file, as [segyio] and [segysak] let the program observe it. *)
Record segy_file := mkSegy {
  (** what [segyio.open(path, "r", ignore_geometry=False)] raises, if it does *)
  strict_error : option exn;
  (** what [segyio.open(path, "r", ignore_geometry=True)] raises, if it does *)
  relaxed_error : option exn;
  (** the binary header: attribute name of [segyio.BinField] to value *)
  bin : list (string * Z);
  tracecount : Z;
  (** [get_segy_texthead(path)] *)
  texthead : string;
  (** [segy_header_scan(path)] *)
  header_scan : list scan_row;
  (** [segy_header_scrape(path, partial_scan=None)] *)
  header_scrape : DataFrame
}.

(** An open file. *)
Record handle := mkHandle { h_file : segy_file; h_ignore_geometry : bool }.

(** What Python's [json] writes and reads back: scalars, lists, and
    objects in key order. *)
#[warnings="-register-all"]
Inductive json :=
| JVal (v : value)
| JList (l : list json)
| JObj (kv : list (string * json)).

Inductive file :=
| SegyFile (f : segy_file)
| ParquetFile (df : DataFrame)
| JsonFile (j : json)
| TextFile (s : string).

(** The file system: path to content. A file is known by the text of its
    path, as the program writes it: two texts that the operating system
    resolves to one file ([data/x] and [./data/x]) are two keys, and a state
    stands for a disk only if it holds a file under every text the program
    uses for it. Directories are not modelled. *)
Abbreviation files := (gmap string file).

(** [os.path.join(a, b)] *)
Fixpoint ends_with_slash (s : string) : bool :=
  match s with
  | EmptyString => false
  | String c EmptyString => Ascii.eqb c "/"
  | String _ s' => ends_with_slash s'
  end.

Definition path_join (a b : string) : string :=
  if startswith "/" b then b
  else match a with
       | EmptyString => b
       | _ => if ends_with_slash a then a ++ b else a ++ "/" ++ b
       end.

(** [os.path.exists(path)], [os.path.isfile(path)] *)
Definition path_exists (fs : files) (path : string) : bool :=
  bool_decide (is_Some (fs !! path)).

Definition not_segy (path : string) : exn :=
  Exn RuntimeErrorC ("unable to open " ++ path).

(** [segyio.open(path, "r", ignore_geometry=ig)] *)
Definition segyio_open (fs : files) (path : string) (ig : bool) : result handle :=
  match fs !! path with
  | Some (SegyFile f) =>
      match (if ig then relaxed_error f else strict_error f) with
      | Some e => Raise e
      | None => Ok (mkHandle f ig)
      end
  | _ => Raise (not_segy path)
  end.

Definition read_segy (fs : files) (path : string) : result segy_file :=
  match fs !! path with
  | Some (SegyFile f) => Ok f
  | _ => Raise (not_segy path)
  end.

Definition get_segy_texthead (fs : files) (path : string) : result string :=
  f ← read_segy fs path; Ok (texthead f).

Definition segy_header_scan (fs : files) (path : string) : result (list scan_row) :=
  f ← read_segy fs path; Ok (header_scan f).

(** What [segy_header_scan] reports when it is called as the handler calls
    it, with the path alone: it reads the headers of the first
    [max_traces_scan] traces only, 1000 by default, and describes every
    header field over these; [mean] is the mean of the field over the traces
    that were read (header words have 32 bits at most, so the sum of 1000 of
    them is exact in binary64). [segy_header_scrape] reads the headers of
    all traces. *)
Definition max_traces_scan : nat := 1000.

Definition scanned_mean (xs : list Z) : float64 :=
  s_mean (PdSeries (firstn max_traces_scan xs)).

Definition scan_of (scrape : DataFrame) : list scan_row :=
  map (fun c => mkScan (fst c) (scanned_mean (snd c))) (df_columns scrape).

Definition segy_header_scrape (fs : files) (path : string) : result DataFrame :=
  f ← read_segy fs path; Ok (header_scrape f).

(** [handle.bin[getattr(segyio.BinField, name)]]: the attributes that are
    no header field (methods and the like) make the read raise. *)
Definition bin_read (h : handle) (name : string) : result value :=
  match assoc name (bin (h_file h)) with
  | Some v => Ok (VInt v)
  | None => Raise (key_error name)
  end.

End Segyio.

(* ===================================================================== *)
(** * file_handler.py                                                      *)
(* ===================================================================== *)

Module FileHandler.
Import Py Pandas Segyio.

Record FileHandler := mkFileHandler { data_directory : string }.

(** [FileHandler()]: the default [data_directory]. *)
Definition default : FileHandler := mkFileHandler "./data".

Definition json_directory (self : FileHandler) : string :=
  path_join (data_directory self) "metadata".

(** [pd.read_parquet(path)] *)
Definition pd_read_parquet (fs : files) (path : string) : result DataFrame :=
  match fs !! path with
  | Some (ParquetFile df) => Ok df
  | Some _ => Raise (Exn ExceptionC ("Could not open Parquet input source " ++ path))
  | None => Raise (Exn FileNotFoundErrorC path)
  end.

Definition read_parquet (self : FileHandler) (fs : files) (file_name : string)
  : result DataFrame :=
  let file_path := path_join (data_directory self) file_name in
  match pd_read_parquet fs file_path with
  | Ok df => Ok df
  | Raise e =>
      if is_instance e FileNotFoundErrorC
      then Raise (Exn ExceptionC ("File " ++ file_path ++ " not found."))
      else Raise (Exn ExceptionC ("Error reading Parquet file: " ++ exn_msg e))
  end.

(** What [df.to_parquet(path, index=False)] stores, as [pd.read_parquet]
    gives it back: the columns; the index is not stored, so the table read
    back carries the default one, and a table without columns comes back
    without rows. *)
Definition parquet_table (df : DataFrame) : DataFrame :=
  match df_columns df with
  | [] => mkDF [] []
  | _ => reset_index df
  end.

(** The write is taken to succeed: the directory of the path exists and the
    column names of the table differ from one another (the writer refuses
    a table that has a column name twice). *)
Definition to_parquet (self : FileHandler) (fs : files) (df : DataFrame)
  (file_name : string) : files :=
  <[path_join (data_directory self) file_name := ParquetFile (parquet_table df)]> fs.

Definition get_columns_from_parquet (self : FileHandler) (fs : files)
  (file_name : string) : result (list string) :=
  match read_parquet self fs file_name with
  | Ok df => Ok (df_names df)
  | Raise e =>
      Raise (Exn ExceptionC ("Error getting columns from Parquet file: " ++ exn_msg e))
  end.

Definition possible_extensions : list string := [".sgy"; ".segy"].

Fixpoint first_existing (self : FileHandler) (fs : files) (file_name : string)
  (exts : list string) : option string :=
  match exts with
  | [] => None
  | ext :: exts' =>
      let file_path := path_join (data_directory self) (file_name ++ ext) in
      if path_exists fs file_path then Some file_path
      else first_existing self fs file_name exts'
  end.

Definition get_segy_file_path (self : FileHandler) (fs : files) (file_name : string)
  : result string :=
  match first_existing self fs file_name possible_extensions with
  | Some file_path => Ok file_path
  | None =>
      Raise (Exn FileNotFoundErrorC
               ("No SEG-Y file found for '" ++ file_name
                ++ "' with .sgy or .segy extension in " ++ data_directory self ++ "."))
  end.

Definition get_json_filepath (self : FileHandler) (file_name : string) : string :=
  path_join (json_directory self) file_name.

(** What [json.load] returns for a document written by
    [json.dump(data, default=str)]: a numpy integer is no JSON number and
    goes through [str]; the other scalars, lists and objects come back as
    they were. *)
Fixpoint json_roundtrip (j : json) : json :=
  match j with
  | JVal (VNpInt n) => JVal (VStr (str_of_Z n))
  | JVal v => JVal v
  | JList l => JList (map json_roundtrip l)
  | JObj kv => JObj (map (fun p => (fst p, json_roundtrip (snd p))) kv)
  end.

(** The write is taken to succeed: the directory of the path exists, as
    [json_directory] does once the handler is made when [file_name] has no
    directory part. *)
Definition save_segy_information_to_json (self : FileHandler) (fs : files)
  (file_name : string) (json_data : json) : files :=
  <[get_json_filepath self file_name := JsonFile (json_roundtrip json_data)]> fs.

(** [None] is [JVal VNone]: what the function returns when there is no
    file, and what [json.load] returns for the document [null]. *)
Definition load_segy_from_json (self : FileHandler) (fs : files) (file_name : string)
  : result json :=
  let json_filepath := get_json_filepath self file_name in
  match fs !! json_filepath with
  | Some (JsonFile j) => Ok j
  | Some _ => Raise (Exn ExceptionC ("Error loading JSON: " ++ json_filepath))
  | None => Ok (JVal VNone)
  end.

(** [os.path.isfile(os.path.join(self.data_directory, file_name))] *)
Definition file_exists (self : FileHandler) (fs : files) (file_name : string) : bool :=
  if path_exists fs (path_join (data_directory self) file_name) then true else false.

(** [os.remove(file_path)] after the check that the file is there. *)
Definition remove_file (self : FileHandler) (fs : files) (file_name : string)
  : result files :=
  let file_path := path_join (data_directory self) file_name in
  if negb (path_exists fs file_path) then
    Raise (Exn FileNotFoundErrorC
             ("File " ++ file_name ++ " not found in " ++ data_directory self ++ "."))
  else Ok (delete file_path fs).

End FileHandler.

(* ===================================================================== *)
(** * segy_info_extractor.py                                               *)
(* ===================================================================== *)

Module SegyInfoExtractor.
Import Py Pandas Segyio.

Definition NAMES_EN : list (string * string) :=
  [ ("Interval", "sampling_rate");
    ("Samples", "num_samples");
    ("Format", "data_format");
    ("MeasurementSystem", "measurement_code");
    ("SEGYRevision", "segy_revision");
    ("SEGYRevisionMinor", "segy_revision_minor");
    ("LineNumber", "line_number") ].

Definition READABLE_NAMES : list (string * string) :=
  [ ("sampling_rate", "Sampling Rate (ms)");
    ("num_samples", "Samples per Trace");
    ("data_format", "Data Format");
    ("measurement_code", "Measurement Code");
    ("segy_revision", "SEG-Y Revision (Major)");
    ("segy_revision_minor", "SEG-Y Revision (Minor)");
    ("line_number", "Line Number");
    ("data_type", "Data Type") ].

(** [d.get(key, default)] *)
Definition dict_get {A} (d : list (string * A)) (key : string) (default : A) : A :=
  match assoc key d with
  | Some v => v
  | None => default
  end.

(** The dictionaries with a fixed set of keys, as records; the keys that
    are only there for a 3D file are optional parts. *)
Record line_ranges := mkLineRanges {
  first_inline : value;
  last_inline : value;
  first_crossline : value;
  last_crossline : value
}.

Record basic_information := mkBasic {
  recording_time : value;
  shot_point_distance : value;
  plot_direction : value;
  min_offset : value;
  max_offset : value;
  num_channels : value;
  first_cdp : value;
  last_cdp : value;
  basic_lines : option line_ranges
}.

Record coordinates := mkCoordinates {
  x_min : value;
  x_max : value;
  y_min : value;
  y_max : value
}.

Record line_dimensions := mkLineDimensions {
  inline_dimensions : value;
  crossline_dimensions : value
}.

Record geometry := mkGeometry {
  total_traces : value;
  total_shots : value;
  coords : coordinates;
  geometry_lines : option line_dimensions
}.

Record line_spacing := mkLineSpacing {
  inline_spacing : value;
  crossline_spacing : value
}.

Record acquisition := mkAcquisition {
  average_fold : value;
  maximum_fold : value;
  minimum_fold : value;
  acquisition_lines : option line_spacing
}.

Record all_info := mkInfo {
  basic_information_of : basic_information;
  binary_header : list (string * value);
  geometry_of : geometry;
  acquisition_of : acquisition;
  ascii_header_text : string
}.

Record SegyInfoExtractor := mkExtractor {
  segy_file_path : string;
  trace_headers : DataFrame;
  is_3d : option bool;
  info : option all_info;
  segyio_file : option handle
}.

(** [SegyInfoExtractor(segy_file_path, headers_file_name)]: the header
    table is read through a [FileHandler()] of its own, that is from the
    default data directory. *)
Definition init (fs : files) (segy_file_path headers_file_name : string)
  : result SegyInfoExtractor :=
  df ← FileHandler.read_parquet FileHandler.default fs (headers_file_name ++ ".parquet");
  Ok (mkExtractor segy_file_path df None None None).

Definition sorting_signature : string := "unable to find sorting".

Definition __enter__ (fs : files) (self : SegyInfoExtractor) : result SegyInfoExtractor :=
  match segyio_open fs (segy_file_path self) false with
  | Ok h =>
      Ok (mkExtractor (segy_file_path self) (trace_headers self) (Some true)
            (info self) (Some h))
  | Raise e =>
      if is_instance e RuntimeErrorC then
        if str_contains sorting_signature (exn_msg e) then
          h ← segyio_open fs (segy_file_path self) true;
          Ok (mkExtractor (segy_file_path self) (trace_headers self) (Some false)
                (info self) (Some h))
        else Raise e
      else Raise e
  end.

(** [if self.is_3d]: [None] is falsy. *)
Definition is3d (self : SegyInfoExtractor) : bool :=
  match is_3d self with
  | Some b => b
  | None => false
  end.

Definition format_number (v : value) : value :=
  match v with
  | VFloat x => VStr (rstrip "." (rstrip "0" (format_2f x)))
  | VInt n | VNpInt n => VInt n
  | VBool b => VInt (if b then 1 else 0)
  | _ => v
  end.

Definition none_attribute (name : string) : exn :=
  Exn AttributeErrorC ("'NoneType' object has no attribute '" ++ name ++ "'").

Section WithPlatform.
Context `{Platform}.

(** The body of the [try] for one attribute name. *)
Definition read_bin_field (self : SegyInfoExtractor) (field_name : string)
  : result value :=
  match segyio_file self with
  | None => Raise (none_attribute "bin")
  | Some h =>
      value ← bin_read h field_name;
      if str_eqb field_name "Interval"
      then q ← py_truediv value 1000; Ok (format_number q)
      else Ok value
  end.

(** One turn of the loop over [dir(segyio.BinField)]. *)
Definition bin_field_step (self : SegyInfoExtractor)
  (extracted_fields : list (string * value)) (field_name : string)
  : list (string * value) :=
  if startswith "_" field_name then extracted_fields
  else
    match read_bin_field self field_name with
    | Ok value =>
        if negb (py_in value [VNone; VInt 0])
        then dict_set (dict_get NAMES_EN field_name field_name) value extracted_fields
        else extracted_fields
    | Raise _ => extracted_fields
    end.

Definition extract_binary_header_info (self : SegyInfoExtractor)
  : list (string * value) :=
  let extracted_fields := fold_left (bin_field_step self) binfield_dir [] in
  dict_set "data_type" (VStr (if is3d self then "3D" else "2D")) extracted_fields.

End WithPlatform.

Definition get_trace_header_value (self : SegyInfoExtractor) (key : string)
  : result series :=
  if df_has (trace_headers self) key
  then df_get (trace_headers self) key
  else Ok (np_zeros (df_len (trace_headers self))).

(** [format_number(s.max())] and [format_number(s.min())] of a header
    column. *)
Definition formatted_max (self : SegyInfoExtractor) (key : string) : result value :=
  s ← get_trace_header_value self key; m ← s_max s; Ok (format_number m).

Definition formatted_min (self : SegyInfoExtractor) (key : string) : result value :=
  s ← get_trace_header_value self key; m ← s_min s; Ok (format_number m).

Definition extract_basic_info (self : SegyInfoExtractor) : result basic_information :=
  delay ← get_trace_header_value self "DelayRecordingTime";
  delay_max ← s_max delay;
  seconds ← py_truediv delay_max 1000;
  let recording_time := format_number seconds in
  sx ← get_trace_header_value self "SourceX";
  step ← series_item0 (pd_mode (pd_diff sx));
  let shot_point_distance := format_number (VFloat (fabs step)) in
  sx ← get_trace_header_value self "SourceX";
  let plot_direction :=
    VStr (if fltb fzero (pd_mean (pd_diff sx)) then "LR" else "RL") in
  min_offset ← formatted_min self "offset";
  max_offset ← formatted_max self "offset";
  tn ← get_trace_header_value self "TraceNumber";
  let num_channels := format_number (VInt (n_unique tn)) in
  first_cdp ← formatted_min self "CDP";
  last_cdp ← formatted_max self "CDP";
  lines ←
    (if is3d self then
       first_inline ← formatted_min self "INLINE_3D";
       last_inline ← formatted_max self "INLINE_3D";
       first_crossline ← formatted_min self "CROSSLINE_3D";
       last_crossline ← formatted_max self "CROSSLINE_3D";
       Ok (Some (mkLineRanges first_inline last_inline first_crossline last_crossline))
     else Ok None);
  Ok (mkBasic recording_time shot_point_distance plot_direction min_offset max_offset
        num_channels first_cdp last_cdp lines).

Definition extract_geometry_info (self : SegyInfoExtractor) : result geometry :=
  total_traces ←
    match segyio_file self with
    | Some h => Ok (VInt (tracecount (h_file h)))
    | None => Raise (none_attribute "tracecount")
    end;
  sx ← get_trace_header_value self "SourceX";
  let total_shots := VInt (n_unique sx) in
  x_min ← formatted_min self "SourceX";
  x_max ← formatted_max self "SourceX";
  y_min ← formatted_min self "SourceY";
  y_max ← formatted_max self "SourceY";
  lines ←
    (if is3d self then
       il ← get_trace_header_value self "INLINE_3D";
       xl ← get_trace_header_value self "CROSSLINE_3D";
       Ok (Some (mkLineDimensions (VInt (n_unique il)) (VInt (n_unique xl))))
     else Ok None);
  Ok (mkGeometry total_traces total_shots (mkCoordinates x_min x_max y_min y_max) lines).

Definition not_applicable : value := VStr "Not applicable".

Section WithPlatform.
Context `{Platform}.

Definition extract_acquisition_info (self : SegyInfoExtractor) : result acquisition :=
  cdp_values ← get_trace_header_value self "CDP";
  folds ←
    (if std_ne_zero cdp_values then
       let fold := groupby_size cdp_values in
       fold_max ← s_max fold;
       fold_min ← s_min fold;
       Ok (format_number (VFloat (s_mean fold)),
           format_number fold_max,
           format_number fold_min)
     else Ok (not_applicable, not_applicable, not_applicable));
  lines ←
    (if is3d self then
       il ← get_trace_header_value self "INLINE_3D";
       let il_spacing := np_diff (np_sort (np_unique il)) in
       xl ← get_trace_header_value self "CROSSLINE_3D";
       let xl_spacing := np_diff (np_sort (np_unique xl)) in
       Ok (Some (mkLineSpacing (format_number (VFloat (np_median il_spacing)))
                               (format_number (VFloat (np_median xl_spacing)))))
     else Ok None);
  Ok (mkAcquisition folds.1.1 folds.1.2 folds.2 lines).

End WithPlatform.

Definition extract_scaling_factor (self : SegyInfoExtractor) : result value :=
  s ← get_trace_header_value self "SourceGroupScalar";
  let scalar := VFloat (s_mean s) in
  let scalar := format_number scalar in
  Ok (if py_ne scalar (VInt 0) then scalar else VInt 1).

Section WithPlatform.
Context `{Platform}.

(** [str(v)], as an f-string renders a value. *)
Definition py_str (v : value) : string :=
  match v with
  | VNone => "None"
  | VBool b => if b then "True" else "False"
  | VInt n | VNpInt n => str_of_Z n
  | VFloat x => float_repr x
  | VStr s => s
  end.

Definition nl : string := String (ascii_of_nat 10) EmptyString.

Definition format_binary_header_info (bin_head : list (string * value)) : string :=
  str_join nl
    (map (fun kv =>
            let name := dict_get READABLE_NAMES kv.1
                          (capitalize (str_replace "_" " " kv.1)) in
            name ++ ": " ++ py_str kv.2)
         bin_head).

Definition none_subscript : exn :=
  Exn TypeErrorC "'NoneType' object is not subscriptable".

(** A key that only a 3D extraction puts into a dictionary. *)
Definition key_of {A} (o : option A) (key : string) : result A :=
  match o with
  | Some a => Ok a
  | None => Raise (key_error key)
  end.

Definition get_segy_info_text (self : SegyInfoExtractor) : result string :=
  i ← match info self with
      | Some i => Ok i
      | None => Raise none_subscript
      end;
  let basic := basic_information_of i in
  let binary_header_info := format_binary_header_info (binary_header i) in
  let geo := geometry_of i in
  let acq := acquisition_of i in
  let text :=
    "DETAILED INFORMATION OF THE SEG-Y FILE" ++ nl ++
    "INFORMATION CONTAINED IN THE ASCII HEADER:" ++ nl ++
    "ASCII_header: " ++ ascii_header_text i ++
    "BASIC INFORMATION:" ++ nl ++
    "Recording Time: " ++ py_str (recording_time basic) ++ " s" ++ nl ++
    "Distance Between Shot Points: " ++ py_str (shot_point_distance basic) ++ " m" ++ nl ++
    "Plot Direction: " ++ py_str (plot_direction basic) ++ nl ++
    "Offset Range: " ++ py_str (min_offset basic) ++ " - "
      ++ py_str (max_offset basic) ++ " m" ++ nl ++
    "Number of Channels: " ++ py_str (num_channels basic) ++ nl ++
    "CDP Range: " ++ py_str (first_cdp basic) ++ " - " ++ py_str (last_cdp basic) ++ nl ++
    nl ++ "BINARY HEADER INFORMATION:" ++ nl ++
    binary_header_info ++
    nl ++ "GEOMETRY INFORMATION:" ++ nl ++
    "Total Traces: " ++ py_str (total_traces geo) ++ nl ++
    "Total Shots: " ++ py_str (total_shots geo) ++ nl ++
    "Coordinates:" ++ nl ++
    "  X: " ++ py_str (x_min (coords geo)) ++ " - " ++ py_str (x_max (coords geo)) ++ nl ++
    "  Y: " ++ py_str (y_min (coords geo)) ++ " - " ++ py_str (y_max (coords geo)) ++ nl ++
    nl ++ "ACQUISITION INFORMATION:" ++ nl ++
    "Average Fold: " ++ py_str (average_fold acq) ++ nl ++
    "Maximum Fold: " ++ py_str (maximum_fold acq) ++ nl ++
    "Minimum Fold: " ++ py_str (minimum_fold acq) ++ nl in
  if is3d self then
    let text := str_replace "CDP Range:" ("CDP Range:" ++ nl) text in
    bl ← key_of (basic_lines basic) "first_inline";
    gl ← key_of (geometry_lines geo) "inline_dimensions";
    al ← key_of (acquisition_lines acq) "inline_spacing";
    Ok (text ++
        "Inline Range: " ++ py_str (first_inline bl) ++ " - "
          ++ py_str (last_inline bl) ++ nl ++
        "Crossline Range: " ++ py_str (first_crossline bl) ++ " - "
          ++ py_str (last_crossline bl) ++ nl ++
        "Inline Dimensions: " ++ py_str (inline_dimensions gl) ++ nl ++
        "Crossline Dimensions: " ++ py_str (crossline_dimensions gl) ++ nl ++
        "Inline Spacing: " ++ py_str (inline_spacing al) ++ nl ++
        "Crossline Spacing: " ++ py_str (crossline_spacing al) ++ nl)
  else Ok text.

(** [extract_all_info]: the four extractions and the text header are read
    inside [with self], that is between [__enter__] and [__exit__] (which
    closes the handle and lets an exception of the body through). *)
Definition extract_all_info (fs : files) (self : SegyInfoExtractor)
  : result (string * value) :=
  self ← __enter__ fs self;
  basic ← extract_basic_info self;
  let bin_head := extract_binary_header_info self in
  geo ← extract_geometry_info self;
  acq ← extract_acquisition_info self;
  ascii ← get_segy_texthead fs (segy_file_path self);
  let self := mkExtractor (segy_file_path self) (trace_headers self) (is_3d self)
                (Some (mkInfo basic bin_head geo acq ascii)) (segyio_file self) in
  information ← get_segy_info_text self;
  scaling_factor ← extract_scaling_factor self;
  Ok (information, scaling_factor).

End WithPlatform.

End SegyInfoExtractor.

(* ===================================================================== *)
(** * segy_handler.py                                                      *)
(* ===================================================================== *)

Module SegyHandler.
Import Py Pandas Segyio.

(** [SegyHandler] extends [FileHandler] with the registry of base names. *)
Record SegyHandler := mkHandler {
  super : FileHandler.FileHandler;
  available_segy_files : list string
}.

Definition data_directory (self : SegyHandler) : string :=
  FileHandler.data_directory (super self).

(** The state the methods run in: the files on disk, and a ghost counter of
    the runs of [SegyInfoExtractor.extract_all_info], the one place where
    the statistics path decodes the binary file. *)
Record world := mkWorld {
  fs : files;
  extractions : nat
}.

Definition with_fs (w : world) (fs' : files) : world := mkWorld fs' (extractions w).

Definition get_segy_base_name (self : SegyHandler) (current_file : string)
  : result string :=
  match List.find (fun name => str_contains name current_file) (available_segy_files self) with
  | Some name => Ok name
  | None =>
      Raise (Exn ValueErrorC
               ("No base SEG-Y file matching '" ++ current_file ++ "' found."))
  end.

Definition read_segy_headers (self : SegyHandler) (fs : files) (file_name : string)
  : result DataFrame :=
  segy_file_path ← FileHandler.get_segy_file_path (super self) fs file_name;
  segyfile ← segyio_open fs segy_file_path true;
  scan ← segy_header_scan fs segy_file_path;
  trace_headers_df ← segy_header_scrape fs segy_file_path;
  trace_headers_df ←
    df_select trace_headers_df
      (map scan_field
         (List.filter (fun row => negb (feqb (scan_mean row) (float_of_Z 0))) scan));
  let trace_headers_df := reset_index trace_headers_df in
  let trace_headers_df := df_set_index_column trace_headers_df "trace_index" in
  Ok trace_headers_df.

Definition __save_segy_text_header_as_txt (self : SegyHandler) (fs : files)
  (file_name : string) : result files :=
  let txt_file_path := path_join (data_directory self) (file_name ++ ".txt") in
  segy_file_path ← FileHandler.get_segy_file_path (super self) fs file_name;
  segy_header ← get_segy_texthead fs segy_file_path;
  Ok (<[txt_file_path := TextFile segy_header]> fs).

Definition __read_and_save_segy_headers (self : SegyHandler) (fs : files)
  (file_name : string) : result files :=
  segy_headers_df ← read_segy_headers self fs file_name;
  Ok (FileHandler.to_parquet (super self) fs segy_headers_df (file_name ++ ".parquet")).

Definition wrap (prefix : string) (e : exn) : exn :=
  Exn ExceptionC (prefix ++ exn_msg e).

(** The files that are written before an exception stay written. *)
Definition __extract_segy_trace_headers (self : SegyHandler) (fs : files)
  (file_name : string) : result unit * files :=
  match __save_segy_text_header_as_txt self fs file_name with
  | Raise e => (Raise (wrap "Error extracting headers: " e), fs)
  | Ok fs1 =>
      match __read_and_save_segy_headers self fs1 file_name with
      | Raise e => (Raise (wrap "Error extracting headers: " e), fs1)
      | Ok fs2 => (Ok (), fs2)
      end
  end.

Section WithPlatform.
Context `{Platform}.

Definition get_segy_information (self : SegyHandler) (w : world) (current_file : string)
  : result (string * value) * world :=
  match
    segy_file_name ← get_segy_base_name self current_file;
    segy_file_path ← FileHandler.get_segy_file_path (super self) (fs w) segy_file_name;
    SegyInfoExtractor.init (fs w) segy_file_path current_file
  with
  | Raise e => (Raise e, w)
  | Ok extractor =>
      (SegyInfoExtractor.extract_all_info (fs w) extractor,
       mkWorld (fs w) (S (extractions w)))
  end.

Definition excluded_columns : list string := ["amplitude"; "amplitudes"; "trace_index"].

(** The dictionary [{current_file: {"columns": ..., "infos": ..., "scalco": ...}}] *)
Definition stats_entry (current_file : string) (columns : list string)
  (info : string) (scalar : value) : json :=
  JObj [(current_file,
         JObj [("columns", JList (map (fun c => JVal (VStr c)) columns));
               ("infos", JVal (VStr info));
               ("scalco", JVal scalar)])].

Definition get_seismic_statistics (self : SegyHandler) (w : world) (current_file : string)
  : result json * world :=
  let json_filename := current_file ++ ".json" in
  match FileHandler.load_segy_from_json (super self) (fs w) json_filename with
  | Raise e => (Raise e, w)
  | Ok (JVal VNone) =>
      match FileHandler.get_columns_from_parquet (super self) (fs w)
              (current_file ++ ".parquet") with
      | Raise e => (Raise e, w)
      | Ok columns =>
          let columns :=
            List.filter (fun col => negb (existsb (str_eqb (str_lower col)) excluded_columns))
                   columns in
          match get_segy_information self w current_file with
          | (Raise e, w1) => (Raise e, w1)
          | (Ok (info, scalar), w1) =>
              let json_stats_data := stats_entry current_file columns info scalar in
              (Ok json_stats_data,
               with_fs w1 (FileHandler.save_segy_information_to_json (super self) (fs w1)
                             json_filename json_stats_data))
          end
      end
  | Ok json_data => (Ok json_data, w)
  end.

Definition process_segy_file (self : SegyHandler) (w : world) (current_file : string)
  : result json * world :=
  match get_segy_base_name self current_file with
  | Raise e => (Raise e, w)
  | Ok original_segy_file_name =>
      let parquet_file_path :=
        path_join (data_directory self) (current_file ++ ".parquet") in
      let checked :=
        if negb (path_exists (fs w) parquet_file_path) then
          if str_eqb current_file original_segy_file_name
          then
            let '(r, fs') := __extract_segy_trace_headers self (fs w) current_file in
            (r, with_fs w fs')
          else
            (Raise (Exn ValueErrorC ("Parquet file for " ++ current_file ++ " missing.")), w)
        else (Ok (), w) in
      match checked with
      | (Raise e, w1) => (Raise e, w1)
      | (Ok _, w1) => get_seismic_statistics self w1 current_file
      end
  end.

End WithPlatform.

End SegyHandler.


(* ===================================================================== *)
(** * The vocabulary of the properties                                    *)
(* ===================================================================== *)

Import Py Pandas Segyio SegyInfoExtractor SegyHandler.

(** [sub] occurs in [s]. *)
Definition occurs_in (sub s : string) : Prop :=
  exists pre post, s = pre ++ sub ++ post.

(** [c * n] *)
Fixpoint str_repeat (c : ascii) (n : nat) : string :=
  match n with
  | O => EmptyString
  | S k => String c (str_repeat c k)
  end.

(** [s.endswith(c)] *)
Definition ends_in (c : ascii) (s : string) : Prop :=
  exists r, s = r ++ String c EmptyString.

Definition is_digit (c : ascii) : bool :=
  (48 <=? nat_of_ascii c)%nat && (nat_of_ascii c <=? 57)%nat.

(** A text that ends in a decimal point and two digits. *)
Definition two_decimals (s : string) : Prop :=
  exists pre d1 d2,
    s = pre ++ "." ++ String d1 (String d2 "") /\
    is_digit d1 = true /\ is_digit d2 = true.

Definition two_digits_ok (n : Z) : bool :=
  match two_digits n with
  | String d1 (String d2 EmptyString) => is_digit d1 && is_digit d2
  | _ => false
  end.

(** A float that is a number is rendered with two decimals (NaN and the
    infinities are rendered as words). *)
Definition renders_two_decimals (x : float64) : Prop :=
  match x with
  | S754_nan | S754_infinity _ => True
  | _ => two_decimals (format_2f x)
  end.

(** What [format_number] does to a float: [format_2f], less the zeros at
    the end, less the decimal point if that is then last. *)
Definition stripped (full s : string) : Prop :=
  exists kd k0,
    full = s ++ str_repeat "." kd ++ str_repeat "0" k0 /\
    ~ ends_in "0" (s ++ str_repeat "." kd) /\
    ~ ends_in "." s.

(** What [get_trace_header_value] can return. *)
Definition header_series (s : series) : Prop :=
  (exists xs, s = PdSeries xs) \/ (exists n, s = np_zeros n).

(** The name a kept field is stored under. *)
Definition rename (field_name : string) : string :=
  dict_get NAMES_EN field_name field_name.

(** The sampling interval, from microseconds to milliseconds. *)
Definition milliseconds (n : Z) : value :=
  format_number (VFloat (fdiv (float_of_Z n) (float_of_Z 1000))).

(** Where an entry of the binary-header dictionary comes from, for the
    open file [h] and the names [names] of the listing. *)
Definition field_entry (h : handle) (names : list string) (k : string) (v : value) : Prop :=
  exists name n,
    In name names /\ startswith "_" name = false /\
    k = rename name /\
    assoc name (bin (h_file h)) = Some n /\
    ((name = "Interval" /\ v = milliseconds n) \/
     (name <> "Interval" /\ n <> 0 /\ v = VInt n)).

(** Every public name of [names] that [h] reads with a value other than
    zero has an entry in [acc]. *)
Definition field_kept (h : handle) (names : list string) (acc : list (string * value)) : Prop :=
  forall name n,
    In name names -> startswith "_" name = false ->
    assoc name (bin (h_file h)) = Some n -> n <> 0 ->
    exists v, assoc (rename name) acc = Some v.

(** The squared deviation of [x] from [mu]. *)
Definition x_minus (mu x : Q) : Q := (x - mu)%Q.

Definition sq_dev (mu x : Q) : Q := (x_minus mu x * x_minus mu x)%Q.

(** The sum of a list of integers. *)
Definition sumZ (l : list Z) : Z := fold_right Z.add 0 l.

(** All CDP values of the table are the same. *)
Definition cdp_values_identical (df : DataFrame) : Prop :=
  forall xs, assoc "CDP" (df_columns df) = Some xs ->
             forall a b, In a xs -> In b xs -> a = b.

(** The number of entries of [xs] that are [k]. *)
Definition occurrences (k : Z) (xs : list Z) : Z := Zlen (List.filter (Z.eqb k) xs).

(** The CDP values of the table are within the range in which binary64
    adds them without rounding: their absolute values add up to less than
    [2^53]. *)
Definition cdp_exact (df : DataFrame) : Prop :=
  forall xs, assoc "CDP" (df_columns df) = Some xs -> sumZ (map Z.abs xs) < 2 ^ 53.

(** The failure that makes [__enter__] fall back to the relaxed open. *)
Definition sorting_failure (e : exn) : Prop :=
  exn_cls e = RuntimeErrorC /\ occurs_in sorting_signature (exn_msg e).

(** [m != 0], for a mean [m]. *)
Definition nonzero (m : float64) : bool := negb (feqb m (float_of_Z 0)).

(** The scanned mean is not zero, as [scan["mean"] != 0] tests it. *)
Definition mean_nonzero (row : scan_row) : bool :=
  negb (feqb (scan_mean row) (float_of_Z 0)).

(** The scan of the file is the one [segy_header_scan] makes of its trace
    headers. *)
Definition scanned (f : segy_file) : Prop :=
  header_scan f = scan_of (header_scrape f).

(** The fields [read_segy_headers] retains, in the order of the scan. *)
Definition retained (scan : list scan_row) : list string :=
  map scan_field (List.filter mean_nonzero scan).

(** [b] is the first name of [registry] that occurs in [name]. *)
Definition first_match (registry : list string) (name b : string) : Prop :=
  exists pre post,
    registry = (pre ++ b :: post)%list /\
    occurs_in b name /\
    forall x, In x pre -> ~ occurs_in x name.

(** The failure the specification calls Invalid. *)
Definition invalid {A} (r : result A) : Prop :=
  exists e, r = Raise e /\ exn_cls e = ValueErrorC.

(** Where the header-table cache of [current_file] lives. *)
Definition parquet_path (self : SegyHandler) (current_file : string) : string :=
  path_join (data_directory self) (current_file ++ ".parquet").

(** Where the statistics entry of [current_file] is persisted. *)
Definition json_path (self : SegyHandler) (current_file : string) : string :=
  FileHandler.get_json_filepath (super self) (current_file ++ ".json").

(** There is a persisted entry: the file exists and holds a document other
    than [null]. *)
Definition persisted (self : SegyHandler) (current_file : string) (w : world)
  (entry : json) : Prop :=
  fs w !! json_path self current_file = Some (JsonFile entry) /\ entry <> JVal VNone.

(* ===================================================================== *)
(** * Example inputs                                                      *)
(* ===================================================================== *)

(** A header table of two traces shot from west to east, opened as 2D. *)
Definition two_trace_handle : handle :=
  mkHandle (mkSegy None None [] 2 "" [] (mkDF [] [])) true.

(** Its table has a source X and a CDP column, and no other. *)
Definition west_to_east : SegyInfoExtractor :=
  mkExtractor "./data/line.sgy"
    (mkDF [0; 1] [("SourceX", [0; 10]); ("CDP", [1; 2])])
    (Some false) None (Some two_trace_handle).

(** An open file whose binary header has a job number, a sampling interval
    of 4000 microseconds and 1500 samples per trace, and two listings of
    the binary-field namespace that differ in one public name. *)
Definition small_header : handle :=
  mkHandle
    (mkSegy None None [("Interval", 4000); ("JobID", 7); ("Samples", 1500)] 2 ""
       [] (mkDF [] []))
    false.

Definition small_file : SegyInfoExtractor :=
  mkExtractor "./data/line.sgy" (mkDF [0; 1] [("SourceX", [0; 10])])
    (Some true) None (Some small_header).

Definition listing_with_job : Platform :=
  {| binfield_dir := ["Interval"; "JobID"; "Samples"; "__class__"; "real"];
     float_repr := fun _ => "";
     np_std := fun _ => fnan |}.

Definition listing_without_job : Platform :=
  {| binfield_dir := ["Interval"; "Samples"; "__class__"; "real"];
     float_repr := fun _ => "";
     np_std := fun _ => fnan |}.

(** A table of two traces on one CDP. *)
Definition single_cdp : SegyInfoExtractor :=
  mkExtractor "./data/line.sgy"
    (mkDF [0; 1] [("SourceX", [0; 10]); ("CDP", [7; 7])])
    (Some false) None (Some two_trace_handle).

(** A header table without rows. *)
Definition no_traces : SegyInfoExtractor :=
  mkExtractor "./data/line.sgy" (mkDF [] [("CDP", [])]) (Some false) None
    (Some two_trace_handle).

(** A file without traces, and two header tables without rows for it: one
    has no source X column, the other has an empty one. *)
Definition no_trace_handle : handle :=
  mkHandle (mkSegy None None [] 0 "" [] (mkDF [] [])) true.

Definition empty_without_x : SegyInfoExtractor :=
  mkExtractor "./data/line.sgy" (mkDF [] [("SourceY", [])]) (Some false) None
    (Some no_trace_handle).

Definition empty_with_x : SegyInfoExtractor :=
  mkExtractor "./data/line.sgy" (mkDF [] [("SourceX", []); ("SourceY", [])])
    (Some false) None (Some no_trace_handle).

(** A table of two traces whose source/group scalar is zero throughout. *)
Definition zero_scalar : SegyInfoExtractor :=
  mkExtractor "./data/line.sgy"
    (mkDF [0; 1] [("SourceX", [0; 10]); ("SourceGroupScalar", [0; 0])])
    (Some false) None (Some two_trace_handle).

(** The file behind it: its header table, as it is cached, has no scalar
    column (a column of zeros is not retained), and the extractor reads
    zeros for it. *)
Definition zero_scalar_disk : files :=
  {[ "./data/line.sgy" := SegyFile (mkSegy None None [("Interval", 4000)] 2 "" [] (mkDF [] []));
     "./data/line.parquet" := ParquetFile (mkDF [0; 1] [("SourceX", [0; 10])]) ]}.

(** A file that has no consistent sorting, on disk. *)
Definition unsorted_file : segy_file :=
  mkSegy (Some (Exn RuntimeErrorC "unable to find sorting, check iline and xline"))
    None [] 2 "" [] (mkDF [] []).

(** Four traces of a 2D line: the offset field is zero throughout, so its
    scanned mean is zero. *)
Definition survey_scrape : DataFrame :=
  mkDF [0; 1; 2; 3]
    [ ("TRACE_SEQUENCE_LINE", [1; 2; 3; 4]);
      ("CDP", [10; 10; 11; 12]);
      ("SourceX", [100; 125; 150; 175]);
      ("offset", [0; 0; 0; 0]);
      ("SourceGroupScalar", [-100; -100; -100; -100]) ].

(** The scan of these headers: the mean of every field. *)
Definition survey_scan : list scan_row :=
  [ mkScan "TRACE_SEQUENCE_LINE" (fdiv (float_of_Z 5) (float_of_Z 2));
    mkScan "CDP" (fdiv (float_of_Z 43) (float_of_Z 4));
    mkScan "SourceX" (fdiv (float_of_Z 275) (float_of_Z 2));
    mkScan "offset" fzero;
    mkScan "SourceGroupScalar" (float_of_Z (-100)) ].

(** The file opens in relaxed mode only. *)
Definition survey : segy_file :=
  mkSegy (Some (Exn RuntimeErrorC "unable to find sorting, check iline and xline"))
    None
    [("Format", 1); ("Interval", 4000); ("JobID", 0); ("Samples", 1500)]
    4 "C 1 CLIENT" survey_scan survey_scrape.

(** A line of 1001 traces whose source X is zero in the first 1000 traces
    and 250 in the last one, with the scan [segy_header_scan] makes of it. *)
Definition late_field_scrape : DataFrame :=
  mkDF (range 1001)
    [ ("TRACE_SEQUENCE_LINE", map Z.of_nat (seq 1 1001));
      ("SourceX", (repeat 0 1000 ++ [250])%list) ].

Definition late_field_survey : segy_file :=
  mkSegy None None [] 1001 "" (scan_of late_field_scrape) late_field_scrape.

Definition late_field_disk : files :=
  {[ "./data/line1.sgy" := SegyFile late_field_survey ]}.

(** A data directory that holds the survey and nothing else. *)
Definition survey_disk : files := {[ "./data/line1.sgy" := SegyFile survey ]}.

Definition survey_handler : SegyHandler :=
  mkHandler (FileHandler.mkFileHandler "./data") ["line1"].

Definition survey_world : world := mkWorld survey_disk 0.

(** The same disk with a statistics entry for [line1] already written. *)
Definition cached_entry : json :=
  stats_entry "line1" ["CDP"; "SourceX"] "DETAILED INFORMATION OF THE SEG-Y FILE"
    (VStr "-100").

Definition cached_world : world :=
  mkWorld (<["./data/metadata/line1.json" := JsonFile cached_entry]> survey_disk) 3.

(* ===================================================================== *)
(** * Paths of a logical name                                             *)
(* ===================================================================== *)

(** What [os.path.join(a, _)] puts in front of a relative name. *)
Definition dir_prefix (a : string) : string :=
  match a with
  | EmptyString => EmptyString
  | _ => if ends_with_slash a then a else a ++ "/"
  end.

(** The last character of a text. *)
Fixpoint last_char (s : string) : option ascii :=
  match s with
  | EmptyString => None
  | String c EmptyString => Some c
  | String _ s' => last_char s'
  end.

(** The files the handler associates with a logical name. *)
Definition sgy_path (self : SegyHandler) (name : string) : string :=
  path_join (data_directory self) (name ++ ".sgy").

Definition segy_path (self : SegyHandler) (name : string) : string :=
  path_join (data_directory self) (name ++ ".segy").

Definition txt_path (self : SegyHandler) (name : string) : string :=
  path_join (data_directory self) (name ++ ".txt").

(** Where the extractor looks for the header table of a name: in the
    default data directory. *)
Definition extractor_table_path (name : string) : string :=
  path_join (FileHandler.data_directory FileHandler.default) (name ++ ".parquet").

(* ===================================================================== *)
(** * JSON documents                                                      *)
(* ===================================================================== *)

(** The document holds a numpy integer somewhere. *)
Fixpoint has_np_int (j : json) : bool :=
  match j with
  | JVal (VNpInt _) => true
  | JVal _ => false
  | JList l => existsb has_np_int l
  | JObj kv => existsb (fun p => has_np_int (snd p)) kv
  end.

(* ===================================================================== *)
(** * Files that open                                                     *)
(* ===================================================================== *)

(** [__enter__] gets a handle on the file: the strict open works, or it
    fails on the sorting and the relaxed open works. *)
Definition opens (f : segy_file) : Prop :=
  strict_error f = None \/
  exists e, strict_error f = Some e /\ sorting_failure e /\ relaxed_error f = None.

(* ===================================================================== *)
(** * The columns of a statistics entry                                   *)
(* ===================================================================== *)

(** The test of the comprehension in [get_seismic_statistics]:
    [col.lower() not in ("amplitude", "amplitudes", "trace_index")]. *)
Definition reported (col : string) : bool :=
  negb (existsb (str_eqb (str_lower col)) excluded_columns).

(* ===================================================================== *)
(** * Further example inputs                                              *)
(* ===================================================================== *)

(** The header table of the survey, as [read_segy_headers] returns it. *)
Definition survey_table : DataFrame :=
  mkDF [0; 1; 2; 3]
    [ ("TRACE_SEQUENCE_LINE", [1; 2; 3; 4]);
      ("CDP", [10; 10; 11; 12]);
      ("SourceX", [100; 125; 150; 175]);
      ("SourceGroupScalar", [-100; -100; -100; -100]);
      ("trace_index", [0; 1; 2; 3]) ].

(** A handler on another directory than the default one, with the survey
    in it. *)
Definition archive_handler : SegyHandler :=
  mkHandler (FileHandler.mkFileHandler "/srv/archive") ["line1"].

Definition archive_disk : files := {[ "/srv/archive/line1.sgy" := SegyFile survey ]}.

(** The archive once its headers are cached there, beside a default data
    directory that holds another table under the same name. *)
Definition two_table_world : world :=
  mkWorld
    (<["/srv/archive/line1.parquet" := ParquetFile survey_table]>
       (<["./data/line1.parquet" :=
            ParquetFile (mkDF [0; 1] [("SourceX", [0; 10]); ("CDP", [1; 2])])]>
          archive_disk))
    0.

(** A registry in which a short name comes before a longer one that
    contains it. *)
Definition shadowing_handler : SegyHandler :=
  mkHandler (FileHandler.mkFileHandler "./data") ["line"; "line1"].

(** A survey whose scan retains a field the scraped table does not have. *)
Definition ragged_survey : segy_file :=
  mkSegy None None [] 4 "C 1 CLIENT"
    [ mkScan "CDP" (float_of_Z 10); mkScan "SourceY" (float_of_Z 5) ]
    (mkDF [0; 1; 2; 3] [("CDP", [10; 10; 11; 12])]).

Definition ragged_disk : files := {[ "./data/line1.sgy" := SegyFile ragged_survey ]}.

(** A survey of a single trace. *)
Definition single_trace : SegyInfoExtractor :=
  mkExtractor "./data/line1.sgy" (mkDF [0] [("SourceX", [100]); ("CDP", [10])])
    None None None.

Definition survey_extractor : SegyInfoExtractor :=
  mkExtractor "./data/line1.sgy" survey_table None None None.

(** A document with a numpy integer in it, and one without. *)
Definition numpy_document : json :=
  JObj [("scalco", JVal (VNpInt (-100))); ("columns", JList [JVal (VStr "CDP")])].

Definition plain_document : json :=
  JObj [("scalco", JVal (VStr "-100")); ("columns", JList [JVal (VStr "CDP")])].
(* ===================================================================== *)
(** * Properties                                                          *)
(* ===================================================================== *)

(** ** Strings *)

Lemma append_cons (a : ascii) (s t : string) : String a s ++ t = String a (s ++ t).
Proof. reflexivity. Qed.

Lemma append_nil_l (t : string) : "" ++ t = t.
Proof. reflexivity. Qed.

Lemma append_nil_r (s : string) : s ++ "" = s.
Proof. induction s as [|a s IH]; [reflexivity | now rewrite append_cons, IH]. Qed.

Lemma append_assoc (a b c : string) : (a ++ b) ++ c = a ++ (b ++ c).
Proof. induction a as [|x a IH]; [reflexivity | now rewrite !append_cons, IH]. Qed.

Lemma prefix_true_iff (p s : string) :
  String.prefix p s = true <-> exists post, s = p ++ post.
Proof.
  revert s. induction p as [|a p IH]; intros s.
  - split; [intros _; now exists s | intros _; now destruct s].
  - destruct s as [|b s]; simpl.
    + split; [discriminate | intros [post Hp]; discriminate].
    + destruct (ascii_dec a b) as [->|Hne].
      * rewrite IH. split; intros [post Hp]; exists post.
        -- now rewrite append_cons, Hp.
        -- rewrite append_cons in Hp. now inversion Hp.
      * split; [discriminate |].
        intros [post Hp]. rewrite append_cons in Hp. inversion Hp; congruence.
Qed.

Lemma str_contains_iff (sub s : string) :
  str_contains sub s = true <-> occurs_in sub s.
Proof.
  induction s as [|a s IH].
  - cbn [str_contains]. rewrite orb_false_r, prefix_true_iff. split.
    + intros [post Hp]. now exists "", post.
    + intros (pre & post & Hp). destruct pre as [|b pre].
      * now exists post.
      * rewrite append_cons in Hp. discriminate.
  - cbn [str_contains]. rewrite orb_true_iff, IH, prefix_true_iff. split.
    + intros [[post Hp] | (pre & post & Hp)].
      * now exists "", post.
      * exists (String a pre), post. now rewrite append_cons, Hp.
    + intros (pre & post & Hp). destruct pre as [|b pre].
      * left. now exists post.
      * right. exists pre, post. rewrite append_cons in Hp. now inversion Hp.
Qed.

Lemma ends_in_cons (c a : ascii) (s : string) :
  s <> "" -> ends_in c (String a s) -> ends_in c s.
Proof.
  intros Hs [r Hr]. destruct r as [|b r].
  - rewrite append_nil_l in Hr. inversion Hr; subst. contradiction.
  - rewrite append_cons in Hr. inversion Hr; subst. now exists r.
Qed.

Lemma not_ends_in_nil (c : ascii) : ~ ends_in c "".
Proof. intros [r Hr]. destruct r; discriminate. Qed.

(** [rstrip] removes a run of [c] at the end, and all of it. *)
Lemma rstrip_split (c : ascii) (s : string) :
  exists k, s = rstrip c s ++ str_repeat c k.
Proof.
  induction s as [|a s [k IH]]; simpl.
  - now exists O.
  - destruct (rstrip c s) as [|b r] eqn:E.
    + destruct (Ascii.eqb_spec a c) as [->|Hne].
      * exists (S k). rewrite append_nil_l in *. simpl. now rewrite <- IH.
      * exists k. rewrite append_cons, append_nil_l in *. now rewrite <- IH.
    + exists k. rewrite append_cons. now rewrite <- IH.
Qed.

Lemma rstrip_not_ends_in (c : ascii) (s : string) : ~ ends_in c (rstrip c s).
Proof.
  induction s as [|a s IH]; simpl.
  - apply not_ends_in_nil.
  - destruct (rstrip c s) as [|b r] eqn:E.
    + destruct (Ascii.eqb_spec a c) as [->|Hne].
      * apply not_ends_in_nil.
      * intros [r Hr]. destruct r as [|x r].
        -- rewrite append_nil_l in Hr. inversion Hr; subst. contradiction.
        -- rewrite append_cons in Hr. inversion Hr as [[Hx Hr']].
           destruct r; discriminate.
    + intros Hend. apply IH. eapply ends_in_cons; [|exact Hend]. discriminate.
Qed.

(** ** Number formatting *)

Lemma two_digits_shape (n : Z) :
  0 <= n < 100 ->
  exists d1 d2, two_digits n = String d1 (String d2 "") /\
                is_digit d1 = true /\ is_digit d2 = true.
Proof.
  intros Hn.
  assert (Hall : forallb two_digits_ok (map Z.of_nat (seq 0 100)) = true)
    by (vm_compute; reflexivity).
  rewrite forallb_forall in Hall.
  assert (Hok : two_digits_ok n = true).
  { apply Hall. apply in_map_iff. exists (Z.to_nat n). split; [lia|].
    apply in_seq. lia. }
  unfold two_digits_ok in Hok.
  destruct (two_digits n) as [|d1 [|d2 [|? ?]]]; try discriminate.
  apply andb_true_iff in Hok. now exists d1, d2.
Qed.

(** The rounding is to a nearest hundredth: twice the error is at most one
    unit of the last place. *)
Lemma round_half_even_nearest (n d : Z) :
  0 < d -> Z.abs (2 * n - 2 * round_half_even n d * d) <= d.
Proof.
  intros Hd. unfold round_half_even.
  pose proof (Z.div_mod n d ltac:(lia)) as Hdm.
  pose proof (Z.mod_pos_bound n d Hd) as Hr.
  set (q := n / d) in *. set (r := n mod d) in *.
  assert (E0 : 2 * n - 2 * q * d = 2 * r) by (rewrite Hdm; ring).
  assert (E1 : 2 * n - 2 * (q + 1) * d = 2 * r - 2 * d) by (rewrite Hdm; ring).
  destruct (Z.compare_spec (2 * r) d); [destruct (Z.even q)| |];
    rewrite ?E0, ?E1; lia.
Qed.

Lemma round_half_even_tie (n d : Z) :
  0 < d -> 2 * (n mod d) = d -> Z.even (round_half_even n d) = true.
Proof.
  intros Hd Htie. unfold round_half_even. rewrite Htie, Z.compare_refl.
  destruct (Z.even (n / d)) eqn:E; [exact E|].
  rewrite Z.even_add, E. reflexivity.
Qed.

(** [hundredths m e] is the integer nearest to [100 * m * 2^e]. *)
Lemma hundredths_nearest (m : positive) (e : Z) :
  match e with
  | Zneg p => Z.abs (2 * (100 * Zpos m) - 2 * hundredths m e * 2 ^ Zpos p) <= 2 ^ Zpos p
  | _ => hundredths m e = 100 * Zpos m * 2 ^ e
  end.
Proof.
  destruct e as [|p|p]; try reflexivity.
  unfold hundredths. apply round_half_even_nearest. lia.
Qed.

Lemma format_2f_two_decimals (x : float64) : renders_two_decimals x.
Proof.
  destruct x as [s|s| |s m e]; simpl; try exact I.
  - exists (sign_str s ++ "0"), "0"%char, "0"%char. repeat split.
    now rewrite append_assoc.
  - destruct (two_digits_shape (hundredths m e mod 100)) as (d1 & d2 & E & H1 & H2).
    { apply Z.mod_pos_bound. lia. }
    exists (sign_str s ++ str_of_Z (hundredths m e / 100)), d1, d2.
    repeat split; try assumption.
    unfold format_2f. now rewrite E, !append_assoc.
Qed.

Lemma format_number_float (x : float64) :
  exists s, format_number (VFloat x) = VStr s /\
            stripped (format_2f x) s.
Proof.
  exists (rstrip "." (rstrip "0" (format_2f x))). split; [reflexivity|].
  destruct (rstrip_split "0" (format_2f x)) as [k0 H0].
  destruct (rstrip_split "." (rstrip "0" (format_2f x))) as [kd Hd].
  exists kd, k0. repeat split.
  - rewrite <- append_assoc, <- Hd. exact H0.
  - rewrite <- Hd. apply rstrip_not_ends_in.
  - apply rstrip_not_ends_in.
Qed.

(** C7. [format_number] renders a float with two decimals and then strips
    the trailing zeros and a trailing decimal point, turns every integer
    kind into a plain integer, leaves the other values as they are, and is
    idempotent. *)
Theorem format_number_contract (v : value) :
  match v with
  | VFloat x =>
      renders_two_decimals x /\
      exists s, format_number v = VStr s /\ stripped (format_2f x) s
  | VInt n | VNpInt n => format_number v = VInt n
  | VBool b => format_number v = VInt (if b then 1 else 0)
  | VNone | VStr _ => format_number v = v
  end /\
  format_number (format_number v)
  = format_number v.
Proof.
  split.
  - destruct v; try reflexivity.
    split; [apply format_2f_two_decimals | apply format_number_float].
  - destruct v; reflexivity.
Qed.

(** ** Floats that are numbers *)

Lemma shr_1_nonneg (mrs : shr_record) : 0 <= shr_m mrs -> 0 <= shr_m (shr_1 mrs).
Proof.
  destruct mrs as [m r s]. simpl. intros Hm.
  destruct m as [|p|p]; [reflexivity| |lia].
  destruct p; simpl; lia.
Qed.

Lemma iter_pos_invariant {A} (P : A -> Prop) (f : A -> A) :
  (forall x, P x -> P (f x)) -> forall p x, P x -> P (SpecFloat.iter_pos f p x).
Proof.
  intros Hf. induction p as [p IH|p IH|]; intros x Hx; simpl; auto.
Qed.

Lemma shr_nonneg (mrs : shr_record) (e n : Z) :
  0 <= shr_m mrs -> 0 <= shr_m (shr mrs e n).1.
Proof.
  intros Hm. destruct n as [|p|p]; simpl; try assumption.
  apply (iter_pos_invariant (fun r => 0 <= shr_m r)); [apply shr_1_nonneg | assumption].
Qed.

Lemma shr_fexp_nonneg (m e : Z) (l : location) :
  0 <= m -> 0 <= shr_m (shr_fexp prec emax m e l).1.
Proof.
  intros Hm. unfold shr_fexp. apply shr_nonneg.
  destruct l as [|[]]; simpl; assumption.
Qed.

Lemma round_nearest_even_nonneg (m : Z) (l : location) :
  0 <= m -> 0 <= round_nearest_even m l.
Proof.
  intros Hm. destruct l as [|[]]; simpl; try assumption; [|lia].
  destruct (Z.even m); lia.
Qed.

Lemma binary_round_aux_not_nan (s : bool) (m e : Z) (l : location) :
  0 <= m -> is_nan (binary_round_aux prec emax s m e l) = false.
Proof.
  intros Hm. unfold binary_round_aux.
  pose proof (shr_fexp_nonneg m e l Hm) as H1.
  destruct (shr_fexp prec emax m e l) as [mrs' e'] eqn:E1. simpl in H1.
  pose proof (shr_fexp_nonneg
                (round_nearest_even (shr_m mrs') (loc_of_shr_record mrs')) e' loc_Exact
                (round_nearest_even_nonneg _ _ H1)) as H2.
  destruct (shr_fexp prec emax _ e' loc_Exact) as [mrs'' e''] eqn:E2. simpl in H2.
  destruct (shr_m mrs'') as [|p|p]; [reflexivity| |lia].
  destruct (e'' <=? emax - prec); reflexivity.
Qed.

Lemma float_of_Z_not_nan (n : Z) : is_nan (float_of_Z n) = false.
Proof.
  unfold float_of_Z, binary_normalize. destruct n as [|p|p]; [reflexivity| |];
    unfold binary_round;
    destruct (shl_align _ _ _) as [mz ez]; apply binary_round_aux_not_nan; lia.
Qed.

(** A quotient of zero is zero or NaN, never positive. *)
Lemma fdiv_zero_not_positive (s : bool) (y : float64) :
  fltb fzero (fdiv (S754_zero s) y) = false.
Proof. destruct y as [sy|sy| |sy my ey]; destruct s; reflexivity. Qed.

(** ** Lists and series *)

Lemma fold_left_max_attained {A} (f : A -> Z) (l : list A) (a : A) :
  (forall x, 0 <= f x) ->
  exists x, In x (a :: l) /\ f x = fold_left Z.max (map f (a :: l)) 0.
Proof.
  intros Hf.
  assert (H : forall (l' : list A) (acc : Z) (pool : list A),
             (exists x, In x pool /\ f x = acc) ->
             exists x, In x (pool ++ l')%list /\ f x = fold_left Z.max (map f l') acc).
  { induction l' as [|y l' IH]; intros acc pool (x & Hx & Hacc).
    - exists x. rewrite app_nil_r. now split.
    - simpl. destruct (IH (Z.max acc (f y)) (pool ++ [y])%list) as (z & Hz & Hfz).
      + destruct (Z.max_spec acc (f y)) as [[_ ->]|[_ ->]].
        * exists y. split; [apply in_or_app; right; now left | reflexivity].
        * exists x. split; [apply in_or_app; now left | assumption].
      + exists z. split; [|assumption]. rewrite <- app_assoc in Hz. exact Hz. }
  destruct (H l (Z.max 0 (f a)) [a]) as (x & Hx & Hfx).
  - exists a. split; [now left | specialize (Hf a); lia].
  - exists x. split; [exact Hx | exact Hfx].
Qed.

Lemma insert_sorted_not_nil {A} (leb : A -> A -> bool) (x : A) (l : list A) :
  insert_sorted leb x l <> [].
Proof. destruct l as [|y l]; simpl; [discriminate | destruct (leb x y); discriminate]. Qed.

Lemma isort_not_nil {A} (leb : A -> A -> bool) (l : list A) :
  l <> [] -> isort leb l <> [].
Proof.
  destruct l as [|x l]; [contradiction | intros _].
  unfold isort. simpl. apply insert_sorted_not_nil.
Qed.

Lemma dedup_by_not_nil {A} (eqb : A -> A -> bool) (l : list A) :
  l <> [] -> dedup_by eqb l <> [].
Proof. destruct l; [contradiction | discriminate]. Qed.

Lemma count_by_nonneg {A} (eqb : A -> A -> bool) (x : A) (l : list A) :
  0 <= count_by eqb x l.
Proof. unfold count_by. lia. Qed.

(** The mode of a float Series with an entry that is a number exists. *)
Lemma pd_mode_item0 (fs : list float64) :
  dropna fs <> [] -> exists x, series_item0 (pd_mode fs) = Ok x.
Proof.
  intros Hvs. unfold pd_mode.
  set (vs := dropna fs) in *.
  set (best := fold_left Z.max (map (fun v => count_by feqb v vs) vs) 0).
  assert (Hne : List.filter (fun v => count_by feqb v vs =? best) vs <> []).
  { destruct vs as [|a l] eqn:E; [contradiction|].
    destruct (fold_left_max_attained (fun v => count_by feqb v (a :: l)) l a)
      as (x & Hx & Hfx); [intros; apply count_by_nonneg|].
    intros Hnil.
    assert (Hin : In x (List.filter (fun v => count_by feqb v (a :: l) =? best) (a :: l))).
    { apply filter_In. split; [exact Hx|]. apply Z.eqb_eq. exact Hfx. }
    rewrite Hnil in Hin. destruct Hin. }
  pose proof (isort_not_nil float_leb _ (dedup_by_not_nil feqb _ Hne)) as Hs.
  destruct (isort float_leb _) as [|x r]; [contradiction|].
  now exists x.
Qed.

(** ** The header table and its columns *)

Lemma assoc_In {A} (k : string) (l : list (string * A)) (v : A) :
  assoc k l = Some v -> In (k, v) l.
Proof.
  induction l as [|[k' v'] l IH]; simpl; [discriminate|].
  unfold str_eqb. destruct (String.eqb_spec k k') as [->|Hne].
  - intros [= ->]. now left.
  - intros Hl. right. now apply IH.
Qed.

Lemma df_has_assoc (df : DataFrame) (key : string) :
  df_has df key = true <-> exists xs, assoc key (df_columns df) = Some xs.
Proof.
  unfold df_has, df_names. induction (df_columns df) as [|[k xs] l IH]; simpl.
  - split; [discriminate | intros [xs Hxs]; discriminate].
  - destruct (str_eqb key k); simpl; [|exact IH].
    split; [intros _; now exists xs | reflexivity].
Qed.

(** What [get_trace_header_value] returns: the column, or zeros. *)
Lemma get_trace_header_value_cases (self : SegyInfoExtractor) (key : string) :
  (exists xs, assoc key (df_columns (trace_headers self)) = Some xs /\
              get_trace_header_value self key = Ok (PdSeries xs)) \/
  (df_has (trace_headers self) key = false /\
   get_trace_header_value self key = Ok (np_zeros (df_len (trace_headers self)))).
Proof.
  unfold get_trace_header_value.
  destruct (df_has (trace_headers self) key) eqn:E.
  - left. apply df_has_assoc in E as [xs Hxs]. exists xs. split; [exact Hxs|].
    unfold df_get. now rewrite Hxs.
  - now right.
Qed.

Lemma repeat_length_Forall {A} (x : A) (n : nat) :
  length (repeat x n) = n /\ Forall (fun y => y = x) (repeat x n).
Proof.
  split; [apply repeat_length|]. induction n; simpl; constructor; auto.
Qed.

(** The series a well-formed table yields has one entry per row. *)
Lemma get_trace_header_value_len (self : SegyInfoExtractor) (key : string) :
  df_wf (trace_headers self) ->
  exists s, get_trace_header_value self key = Ok s /\
            series_len s = df_len (trace_headers self).
Proof.
  intros Hwf.
  destruct (get_trace_header_value_cases self key) as [(xs & Hxs & ->)|[_ ->]].
  - exists (PdSeries xs). split; [reflexivity|]. simpl.
    apply assoc_In in Hxs. unfold df_wf in Hwf. rewrite List.Forall_forall in Hwf.
    exact (Hwf _ Hxs).
  - eexists. split; [reflexivity|]. simpl. apply repeat_length.
Qed.

Lemma get_trace_header_value_series (self : SegyInfoExtractor) (key : string)
  (s : series) :
  get_trace_header_value self key = Ok s -> header_series s.
Proof.
  destruct (get_trace_header_value_cases self key) as [(xs & _ & ->)|[_ ->]];
    intros [= <-]; [left | right]; eauto.
Qed.

(** ** The extractions return *)

Lemma bind_Ok {A B} (a : A) (k : A -> result B) : (Ok a ≫= k) = k a.
Proof. reflexivity. Qed.

(** Run one [Ok] step of a monadic computation. *)
Ltac ok_steps := repeat (rewrite bind_Ok; cbv beta).
Ltac ok_step H := rewrite ?H; ok_steps.

Lemma s_max_ok (s : series) :
  header_series s -> (1 <= series_len s)%nat ->
  exists v, s_max s = Ok v /\ exists x, py_truediv v 1000 = Ok (VFloat x).
Proof.
  intros [[xs ->]|[n ->]] Hlen; simpl in Hlen.
  - destruct xs as [|x xs]; [simpl in Hlen; lia|].
    eexists. split; [reflexivity|]. eexists. reflexivity.
  - rewrite repeat_length in Hlen. destruct n as [|n]; [lia|].
    eexists. split; [reflexivity|]. eexists. reflexivity.
Qed.

Lemma s_min_ok (s : series) :
  header_series s -> (1 <= series_len s)%nat -> exists v, s_min s = Ok v.
Proof.
  intros [[xs ->]|[n ->]] Hlen; simpl in Hlen.
  - destruct xs as [|x xs]; [simpl in Hlen; lia|]. eexists. reflexivity.
  - rewrite repeat_length in Hlen. destruct n as [|n]; [lia|]. eexists. reflexivity.
Qed.

Section Returns.
Variable self : SegyInfoExtractor.
Hypothesis Hwf : df_wf (trace_headers self).

Lemma formatted_max_ok (key : string) :
  (1 <= df_len (trace_headers self))%nat ->
  exists v, formatted_max self key = Ok v.
Proof.
  intros Hlen. unfold formatted_max.
  destruct (get_trace_header_value_len self key Hwf) as (s & Hs & Hn).
  ok_step Hs.
  destruct (s_max_ok s) as (v & Hv & _).
  - eapply get_trace_header_value_series, Hs.
  - lia.
  - ok_step Hv. eexists. reflexivity.
Qed.

Lemma formatted_min_ok (key : string) :
  (1 <= df_len (trace_headers self))%nat ->
  exists v, formatted_min self key = Ok v.
Proof.
  intros Hlen. unfold formatted_min.
  destruct (get_trace_header_value_len self key Hwf) as (s & Hs & Hn).
  ok_step Hs.
  destruct (s_min_ok s) as (v & Hv).
  - eapply get_trace_header_value_series, Hs.
  - lia.
  - ok_step Hv. eexists. reflexivity.
Qed.

End Returns.

(** With two entries or more, the differences hold a number. *)
Lemma pd_diff_has_number (s : series) :
  header_series s -> (2 <= series_len s)%nat -> dropna (pd_diff s) <> [].
Proof.
  intros [[xs ->]|[n ->]] Hlen; simpl in Hlen.
  - destruct xs as [|x [|y xs]]; simpl in Hlen; try lia.
    unfold pd_diff, dropna. cbn [diffs map List.filter is_nan negb fnan].
    rewrite float_of_Z_not_nan. discriminate.
  - rewrite repeat_length in Hlen. destruct n as [|[|n]]; try lia.
    discriminate.
Qed.

Lemma extract_basic_info_returns (self : SegyInfoExtractor) :
  df_wf (trace_headers self) ->
  (2 <= df_len (trace_headers self))%nat ->
  exists sx info,
    get_trace_header_value self "SourceX" = Ok sx /\
    extract_basic_info self = Ok info /\
    plot_direction info
    = VStr (if fltb fzero (pd_mean (pd_diff sx)) then "LR" else "RL").
Proof.
  intros Hwf Hlen. unfold extract_basic_info.
  destruct (get_trace_header_value_len self "DelayRecordingTime" Hwf) as (d & Hd & Hdn).
  ok_step Hd.
  destruct (s_max_ok d) as (dm & Hdm & q & Hq);
    [eapply get_trace_header_value_series, Hd | lia |].
  ok_step Hdm. ok_step Hq.
  destruct (get_trace_header_value_len self "SourceX" Hwf) as (sx & Hsx & Hsn).
  ok_step Hsx.
  destruct (pd_mode_item0 (pd_diff sx)) as (step & Hstep).
  { apply pd_diff_has_number; [eapply get_trace_header_value_series, Hsx | lia]. }
  ok_step Hstep. ok_step Hsx.
  destruct (formatted_min_ok self Hwf "offset") as (v1 & H1); [lia|]. ok_step H1.
  destruct (formatted_max_ok self Hwf "offset") as (v2 & H2); [lia|]. ok_step H2.
  destruct (get_trace_header_value_len self "TraceNumber" Hwf) as (tn & Htn & _).
  ok_step Htn.
  destruct (formatted_min_ok self Hwf "CDP") as (v3 & H3); [lia|]. ok_step H3.
  destruct (formatted_max_ok self Hwf "CDP") as (v4 & H4); [lia|]. ok_step H4.
  exists sx.
  destruct (is3d self).
  - destruct (formatted_min_ok self Hwf "INLINE_3D") as (v5 & H5); [lia|]. ok_step H5.
    destruct (formatted_max_ok self Hwf "INLINE_3D") as (v6 & H6); [lia|]. ok_step H6.
    destruct (formatted_min_ok self Hwf "CROSSLINE_3D") as (v7 & H7); [lia|]. ok_step H7.
    destruct (formatted_max_ok self Hwf "CROSSLINE_3D") as (v8 & H8); [lia|]. ok_step H8.
    ok_steps. eexists. repeat split.
  - ok_steps. eexists. repeat split.
Qed.

(** ** Plot direction *)

(** C9, as stated, fails: on a table whose mean successive difference of
    source X is positive (here 10), basic info is extracted and its plot
    direction is the label ["LR"], not ["left-to-right"]. *)
Lemma plot_direction_counterexample :
  exists info,
    extract_basic_info west_to_east = Ok info /\
    fltb fzero (pd_mean (pd_diff (PdSeries [0; 10]))) = true /\
    plot_direction info = VStr "LR" /\
    plot_direction info <> VStr "left-to-right".
Proof.
  eexists. split; [vm_compute; reflexivity|].
  split; [vm_compute; reflexivity|].
  split; [reflexivity | discriminate].
Qed.

(** C9, amended. For a header table of two rows or more, basic info is
    extracted, and its plot direction is ["LR"] when the mean of the
    successive differences of source X is positive and ["RL"] otherwise
    (a mean of zero, a negative one, or none). *)
Theorem plot_direction_by_mean_difference (self : SegyInfoExtractor) :
  df_wf (trace_headers self) ->
  (2 <= df_len (trace_headers self))%nat ->
  exists sx info,
    get_trace_header_value self "SourceX" = Ok sx /\
    extract_basic_info self = Ok info /\
    plot_direction info
    = VStr (if fltb fzero (pd_mean (pd_diff sx)) then "LR" else "RL").
Proof. apply extract_basic_info_returns. Qed.

Lemma west_to_east_wf : df_wf (trace_headers west_to_east).
Proof. repeat constructor. Qed.

Lemma plot_direction_by_mean_difference_witness :
  df_wf (trace_headers west_to_east) /\
  (2 <= df_len (trace_headers west_to_east))%nat /\
  exists sx info,
    get_trace_header_value west_to_east "SourceX" = Ok sx /\
    extract_basic_info west_to_east = Ok info /\
    plot_direction info
    = VStr (if fltb fzero (pd_mean (pd_diff sx)) then "LR" else "RL").
Proof.
  split; [exact west_to_east_wf|]. split; [vm_compute; lia|].
  apply (plot_direction_by_mean_difference west_to_east);
    [exact west_to_east_wf | vm_compute; lia].
Defined.

(** Without a source X column the differences are those of zeros, and the
    direction is ["RL"]. *)
Lemma fsum_zeros (n : nat) : fsum (repeat fzero n) = fzero.
Proof.
  unfold fsum. induction n as [|n IH]; [reflexivity | exact IH].
Qed.

Lemma diffs_zeros (n : nat) : diffs fsub (repeat fzero (S n)) = repeat fzero n.
Proof.
  induction n as [|n IH]; [reflexivity|].
  change (repeat fzero (S (S n))) with (fzero :: repeat fzero (S n)).
  cbn [diffs]. change (repeat fzero (S n)) with (fzero :: repeat fzero n) at 1.
  cbn iota. rewrite IH. reflexivity.
Qed.

Lemma dropna_zeros (n : nat) : dropna (repeat fzero n) = repeat fzero n.
Proof. induction n as [|n IH]; [reflexivity | simpl; now rewrite IH]. Qed.

Lemma pd_mean_diff_zeros (n : nat) :
  fltb fzero (pd_mean (pd_diff (np_zeros n))) = false.
Proof.
  destruct n as [|n]; [reflexivity|].
  unfold np_zeros, pd_diff.
  change (repeat fzero (S n)) with (fzero :: repeat fzero n).
  cbv iota.
  change (fzero :: repeat fzero n) with (repeat fzero (S n)). rewrite diffs_zeros.
  unfold pd_mean.
  change (dropna (fnan :: repeat fzero n)) with (dropna (repeat fzero n)).
  rewrite dropna_zeros, fsum_zeros.
  apply fdiv_zero_not_positive.
Qed.

Lemma plot_direction_without_source_x (self : SegyInfoExtractor) (info : basic_information) :
  df_has (trace_headers self) "SourceX" = false ->
  extract_basic_info self = Ok info ->
  plot_direction info = VStr "RL".
Proof.
  intros Habs Hinfo.
  destruct (get_trace_header_value_cases self "SourceX") as [(xs & Hxs & _)|[_ Hz]].
  { assert (df_has (trace_headers self) "SourceX" = true)
      by (apply df_has_assoc; eauto). congruence. }
  unfold extract_basic_info in Hinfo. rewrite Hz in Hinfo.
  repeat first
    [ rewrite bind_Ok in Hinfo; cbv beta in Hinfo
    | match type of Hinfo with
      | (?m ≫= _) = Ok _ => destruct m; [|discriminate]
      end ].
  apply (f_equal (fun r => match r with Ok i => plot_direction i | Raise _ => VNone end))
    in Hinfo.
  cbv beta iota in Hinfo. cbn [plot_direction] in Hinfo.
  rewrite <- Hinfo. now rewrite pd_mean_diff_zeros.
Qed.

(** ** Binary header *)

Lemma dict_set_In {A} (k0 : string) (v0 : A) (l : list (string * A)) (k : string) (v : A) :
  In (k, v) (dict_set k0 v0 l) -> (k = k0 /\ v = v0) \/ In (k, v) l.
Proof.
  induction l as [|[k' v'] l IH]; simpl.
  - intros [[= <- <-]|[]]. now left.
  - destruct (str_eqb k0 k').
    + intros [[= <- <-]|Hin]; [now left | right; now right].
    + intros [Heq|Hin]; [right; now left|].
      destruct (IH Hin) as [?|?]; [now left | right; now right].
Qed.

Lemma str_eqb_spec (a b : string) : reflect (a = b) (str_eqb a b).
Proof. apply String.eqb_spec. Qed.

Lemma str_eqb_refl (a : string) : str_eqb a a = true.
Proof. apply String.eqb_refl. Qed.

Lemma assoc_dict_set_eq {A} (k : string) (v : A) (l : list (string * A)) :
  assoc k (dict_set k v l) = Some v.
Proof.
  induction l as [|[k' v'] l IH]; simpl.
  - now rewrite str_eqb_refl.
  - destruct (str_eqb k k') eqn:E; simpl.
    + now rewrite str_eqb_refl.
    + now rewrite E.
Qed.

Lemma assoc_dict_set_ne {A} (k0 : string) (v0 : A) (l : list (string * A)) (k : string) :
  k <> k0 -> assoc k (dict_set k0 v0 l) = assoc k l.
Proof.
  intros Hne. induction l as [|[k' v'] l IH]; simpl.
  - destruct (str_eqb_spec k k0); [contradiction | reflexivity].
  - destruct (str_eqb_spec k0 k') as [->|Hk]; simpl.
    + destruct (str_eqb_spec k k'); [contradiction | reflexivity].
    + destruct (str_eqb_spec k k'); [reflexivity | exact IH].
Qed.

Lemma assoc_dict_set_some {A} (k0 : string) (v0 : A) (l : list (string * A)) (k : string) :
  (exists v, assoc k l = Some v) -> exists v, assoc k (dict_set k0 v0 l) = Some v.
Proof.
  intros Hk. destruct (string_dec k k0) as [->|Hne].
  - exists v0. apply assoc_dict_set_eq.
  - now rewrite assoc_dict_set_ne.
Qed.

Section BinaryHeader.
Context `{Platform}.
Variable self : SegyInfoExtractor.
Variable h : handle.
Hypothesis Hopen : segyio_file self = Some h.

Lemma read_bin_field_value (field_name : string) :
  read_bin_field self field_name
  = match assoc field_name (bin (h_file h)) with
    | None => Raise (key_error field_name)
    | Some n => Ok (if str_eqb field_name "Interval" then milliseconds n else VInt n)
    end.
Proof.
  unfold read_bin_field, bin_read. rewrite Hopen.
  destruct (assoc field_name (bin (h_file h))) as [n|]; [|reflexivity].
  ok_steps. destruct (str_eqb field_name "Interval"); reflexivity.
Qed.

Lemma milliseconds_kept (n : Z) : py_in (milliseconds n) [VNone; VInt 0] = false.
Proof. reflexivity. Qed.

Lemma int_kept (n : Z) : py_in (VInt n) [VNone; VInt 0] = false <-> n <> 0.
Proof.
  unfold py_in. simpl. destruct (Z.eqb_spec n 0) as [->|Hn]; simpl.
  - split; [discriminate | intros Hn; now contradiction Hn].
  - split; [intros _; exact Hn | reflexivity].
Qed.

Lemma bin_field_step_sound (acc : list (string * value)) (name k : string) (v : value) :
  In (k, v) (bin_field_step self acc name) ->
  In (k, v) acc \/ field_entry h [name] k v.
Proof.
  unfold bin_field_step. destruct (startswith "_" name) eqn:Epub; [now left|].
  rewrite read_bin_field_value.
  destruct (assoc name (bin (h_file h))) as [n|] eqn:En; [|now left].
  destruct (negb (py_in _ [VNone; VInt 0])) eqn:Ekept; [|now left].
  intros Hin. apply dict_set_In in Hin as [[-> ->]|Hin]; [right | now left].
  exists name, n. repeat split; try assumption; [now left|].
  destruct (str_eqb_spec name "Interval") as [->|Hne].
  - now left.
  - right. repeat split; try assumption.
    apply int_kept. now apply negb_true_iff.
Qed.

Lemma bin_field_step_keeps (acc : list (string * value)) (name k : string) :
  (exists v, assoc k acc = Some v) ->
  exists v, assoc k (bin_field_step self acc name) = Some v.
Proof.
  intros Hk. unfold bin_field_step.
  destruct (startswith "_" name); [exact Hk|].
  destruct (read_bin_field self name) as [v|e]; [|exact Hk].
  destruct (negb (py_in v [VNone; VInt 0])); [|exact Hk].
  now apply assoc_dict_set_some.
Qed.

Lemma bin_field_step_adds (acc : list (string * value)) (name : string) (n : Z) :
  startswith "_" name = false ->
  assoc name (bin (h_file h)) = Some n -> n <> 0 ->
  exists v, assoc (rename name) (bin_field_step self acc name) = Some v.
Proof.
  intros Hpub Hn Hnz. unfold bin_field_step. rewrite Hpub, read_bin_field_value, Hn.
  assert (Hkept : py_in (if str_eqb name "Interval" then milliseconds n else VInt n)
                    [VNone; VInt 0] = false).
  { destruct (str_eqb name "Interval"); [apply milliseconds_kept | now apply int_kept]. }
  rewrite Hkept. cbn [negb]. eexists. apply assoc_dict_set_eq.
Qed.

Lemma field_entry_mono (names names' : list string) (k : string) (v : value) :
  (forall x, In x names -> In x names') ->
  field_entry h names k v -> field_entry h names' k v.
Proof.
  intros Hsub (name & n & Hin & Hrest). exists name, n. split; [now apply Hsub | exact Hrest].
Qed.

(** The loop over the listing: every entry comes from a listed public
    field that was read, and every such field with a value other than zero
    has an entry. *)
Lemma bin_loop_invariant (names done : list string) (acc : list (string * value)) :
  (forall k v, In (k, v) acc -> field_entry h done k v) ->
  field_kept h done acc ->
  (forall k v, In (k, v) (fold_left (bin_field_step self) names acc) ->
               field_entry h (done ++ names)%list k v) /\
  field_kept h (done ++ names)%list (fold_left (bin_field_step self) names acc).
Proof.
  revert done acc. induction names as [|name names IH]; intros done acc Hsound Hkept.
  - rewrite app_nil_r. now split.
  - cbn [fold_left].
    replace (done ++ name :: names)%list with ((done ++ [name]) ++ names)%list
      by (rewrite <- app_assoc; reflexivity).
    apply IH.
    + intros k v Hin. destruct (bin_field_step_sound acc name k v Hin) as [Hold|Hnew].
      * eapply field_entry_mono; [|exact (Hsound k v Hold)].
        intros x Hx. apply in_or_app. now left.
      * eapply field_entry_mono; [|exact Hnew].
        intros x Hx. apply in_or_app. now right.
    + intros x n Hin Hpub Hx Hnz. apply in_app_or in Hin as [Hin|[Heq|[]]].
      * apply bin_field_step_keeps. now apply (Hkept x n).
      * subst x. now apply (bin_field_step_adds acc name n).
Qed.

End BinaryHeader.

(** C8, as stated, fails: the fields that are extracted are not those of a
    catalogue the program lists, they are whatever names the library's
    namespace lists. The same file under two listings gives two different
    dictionaries; a name only one of them has is read under that one. *)
Lemma binary_header_catalogue_counterexample :
  @extract_binary_header_info listing_with_job small_file
  = [("sampling_rate", VStr "4"); ("JobID", VInt 7); ("num_samples", VInt 1500);
     ("data_type", VStr "3D")] /\
  @extract_binary_header_info listing_without_job small_file
  = [("sampling_rate", VStr "4"); ("num_samples", VInt 1500); ("data_type", VStr "3D")] /\
  @extract_binary_header_info listing_with_job small_file
  <> @extract_binary_header_info listing_without_job small_file.
Proof.
  split; [vm_compute; reflexivity|].
  split; [vm_compute; reflexivity | vm_compute; discriminate].
Qed.

(** A sampling interval of zero is not skipped: it is formatted before the
    test, and the text ["0"] is not the number 0. *)
Lemma zero_sampling_interval_kept :
  @extract_binary_header_info listing_with_job
    (mkExtractor "./data/line.sgy" (mkDF [] []) (Some false) None
       (Some (mkHandle (mkSegy None None [("Interval", 0)] 0 "" [] (mkDF [] [])) true)))
  = [("sampling_rate", VStr "0"); ("data_type", VStr "2D")].
Proof. vm_compute. reflexivity. Qed.

(** C8, amended. Binary-header extraction walks the names that
    [dir(segyio.BinField)] lists. The dictionary it returns has the entry
    [data_type], ["3D"] or ["2D"] by the geometry flag; every other entry
    is stored under the translated name of a listed public name whose read
    succeeded, and holds the interval in milliseconds for the sampling
    interval and a value other than zero for any other field; and every
    listed public name that is read with a value other than zero has an
    entry. *)
Theorem binary_header_from_listing `{Platform} (self : SegyInfoExtractor) (h : handle) :
  segyio_file self = Some h ->
  assoc "data_type" (extract_binary_header_info self)
  = Some (VStr (if is3d self then "3D" else "2D")) /\
  (forall k v,
     In (k, v) (extract_binary_header_info self) -> k <> "data_type" ->
     field_entry h binfield_dir k v) /\
  field_kept h binfield_dir (extract_binary_header_info self).
Proof.
  intros Hopen. unfold extract_binary_header_info.
  destruct (bin_loop_invariant self h Hopen binfield_dir [] []) as [Hsound Hkept].
  { intros k v []. }
  { intros name n []. }
  split; [apply assoc_dict_set_eq|]. split.
  - intros k v Hin Hk. apply dict_set_In in Hin as [[-> _]|Hin]; [contradiction|].
    now apply Hsound.
  - intros name n Hin Hpub Hn Hnz. apply assoc_dict_set_some.
    now apply (Hkept name n).
Qed.

Lemma binary_header_from_listing_witness :
  segyio_file small_file = Some small_header /\
  assoc "data_type" (@extract_binary_header_info listing_with_job small_file)
  = Some (VStr "3D") /\
  field_kept small_header (@binfield_dir listing_with_job)
    (@extract_binary_header_info listing_with_job small_file).
Proof.
  split; [reflexivity|].
  destruct (@binary_header_from_listing listing_with_job small_file small_header eq_refl)
    as (Htype & _ & Hkept).
  split; [exact Htype | exact Hkept].
Defined.

(** ** Variance *)

Lemma Qsum_cons (a : Q) (l : list Q) : Qsum (a :: l) = (a + Qsum l)%Q.
Proof. reflexivity. Qed.

Lemma Zlen_cons {A} (a : A) (l : list A) : Zlen (a :: l) = Zlen l + 1.
Proof. unfold Zlen. cbn [length]. lia. Qed.

Lemma Zlen_nonneg {A} (l : list A) : 0 <= Zlen l.
Proof. unfold Zlen. lia. Qed.

Lemma Qsum_const (c : Q) (l : list Q) :
  (forall q, In q l -> (q == c)%Q) -> (Qsum l == inject_Z (Zlen l) * c)%Q.
Proof.
  induction l as [|a l IH]; intros Hc.
  - unfold Zlen. simpl. ring.
  - rewrite Qsum_cons, Zlen_cons, inject_Z_plus.
    rewrite IH by (intros q Hq; apply Hc; now right).
    rewrite (Hc a) by now left. ring.
Qed.

Lemma Qsum_sq_dev_nonneg (mu : Q) (l : list Q) : (0 <= Qsum (map (sq_dev mu) l))%Q.
Proof.
  induction l as [|a l IH]; [apply Qle_refl|].
  cbn [map]. rewrite Qsum_cons.
  assert (Ha : (0 <= sq_dev mu a)%Q) by (unfold sq_dev; generalize (x_minus mu a); intros d; nra).
  lra.
Qed.

Lemma Qsum_sq_dev_zero (mu : Q) (l : list Q) :
  (Qsum (map (sq_dev mu) l) == 0)%Q -> forall q, In q l -> (q == mu)%Q.
Proof.
  induction l as [|a l IH]; intros Hsum q Hq; [destruct Hq|].
  cbn [map] in Hsum. rewrite Qsum_cons in Hsum.
  pose proof (Qsum_sq_dev_nonneg mu l) as Hl.
  assert (Ha : (0 <= sq_dev mu a)%Q) by (unfold sq_dev; generalize (x_minus mu a); intros d; nra).
  destruct Hq as [<-|Hq].
  - assert (Ha0 : (sq_dev mu a == 0)%Q) by lra. unfold sq_dev in Ha0.
    assert (Hd : (x_minus mu a == 0)%Q) by (generalize dependent (x_minus mu a); intros d; nra).
    unfold x_minus in Hd. lra.
  - apply IH; [lra | exact Hq].
Qed.

Lemma Qsum_sq_dev_const (mu : Q) (l : list Q) :
  (forall q, In q l -> (q == mu)%Q) -> (Qsum (map (sq_dev mu) l) == 0)%Q.
Proof.
  induction l as [|a l IH]; intros Hc; [reflexivity|].
  cbn [map]. rewrite Qsum_cons, IH by (intros q Hq; apply Hc; now right).
  unfold sq_dev, x_minus. rewrite (Hc a) by now left. ring.
Qed.

Lemma Qvariance_unfold (qs : list Q) :
  Qvariance qs
  = (Qsum (map (sq_dev (Qsum qs / inject_Z (Zlen qs))) qs) / inject_Z (Zlen qs))%Q.
Proof. reflexivity. Qed.

(** The variance of a list that is not empty vanishes exactly when all its
    elements are equal. *)
Lemma Qvariance_zero_iff (qs : list Q) :
  qs <> [] ->
  (Qvariance qs == 0)%Q <-> (forall a b, In a qs -> In b qs -> (a == b)%Q).
Proof.
  intros Hne. rewrite Qvariance_unfold.
  set (n := inject_Z (Zlen qs)). set (mu := (Qsum qs / n)%Q).
  assert (Hn : (0 < n)%Q).
  { unfold n. destruct qs as [|q qs]; [contradiction|].
    rewrite Zlen_cons. pose proof (Zlen_nonneg qs).
    change 0%Q with (inject_Z 0). rewrite <- Zlt_Qlt. lia. }
  split.
  - intros Hv a b Ha Hb.
    assert (Hs : (Qsum (map (sq_dev mu) qs) == 0)%Q).
    { assert (E : (Qsum (map (sq_dev mu) qs)
                   == Qsum (map (sq_dev mu) qs) / n * n)%Q) by (field; lra).
      rewrite E, Hv. ring. }
    rewrite (Qsum_sq_dev_zero mu qs Hs a Ha), (Qsum_sq_dev_zero mu qs Hs b Hb).
    reflexivity.
  - intros Heq. destruct qs as [|c qs]; [contradiction|].
    assert (Hc : forall q, In q (c :: qs) -> (q == c)%Q)
      by (intros q Hq; apply Heq; [exact Hq | now left]).
    assert (Hmu : (mu == c)%Q).
    { unfold mu. rewrite (Qsum_const c (c :: qs) Hc). fold n. field. lra. }
    assert (Hs : (Qsum (map (sq_dev mu) (c :: qs)) == 0)%Q).
    { apply Qsum_sq_dev_const. intros q Hq. rewrite Hmu. now apply Hc. }
    rewrite Hs. field. lra.
Qed.

Lemma variance_column (x : Z) (xs : list Z) :
  variance (PdSeries (x :: xs)) = Some (Qvariance (map inject_Z (x :: xs))).
Proof. reflexivity. Qed.

Lemma exact_range_zeros (n : nat) : exact_range (np_zeros n) = true.
Proof. unfold np_zeros, exact_range. induction n as [|n IH]; [reflexivity | exact IH]. Qed.

Lemma series_Q_zeros (n : nat) : series_Q (np_zeros n) = Some (repeat 0%Q n).
Proof.
  unfold np_zeros, series_Q. induction n as [|n IH]; [reflexivity|].
  cbn [repeat]. cbn [mapM]. rewrite IH. reflexivity.
Qed.

Section StandardDeviation.
Context `{Platform}.

(** Within the exact range, [np.std(column) != 0] fails exactly on a column
    whose entries are all the same. *)
Lemma std_ne_zero_column (xs : list Z) :
  xs <> [] ->
  sumZ (map Z.abs xs) < 2 ^ 53 ->
  std_ne_zero (PdSeries xs) = false <-> (forall a b, In a xs -> In b xs -> a = b).
Proof.
  intros Hne Hrange. destruct xs as [|x xs]; [contradiction|].
  unfold std_ne_zero, exact_range. fold (sumZ (map Z.abs (x :: xs))).
  rewrite (proj2 (Z.ltb_lt _ _) Hrange), variance_column.
  rewrite negb_false_iff, Qeq_bool_iff, Qvariance_zero_iff by discriminate.
  split.
  - intros Hq a b Ha Hb. apply inject_Z_injective.
    apply Hq; apply in_map; assumption.
  - intros Hz a b Ha Hb.
    apply in_map_iff in Ha as (a' & <- & Ha'). apply in_map_iff in Hb as (b' & <- & Hb').
    now rewrite (Hz a' b' Ha' Hb').
Qed.

Lemma std_ne_zero_zeros (n : nat) : (1 <= n)%nat -> std_ne_zero (np_zeros n) = false.
Proof.
  intros Hn. unfold std_ne_zero. rewrite exact_range_zeros.
  unfold variance. rewrite series_Q_zeros.
  destruct n as [|n]; [lia|]. cbn [repeat].
  change (0%Q :: repeat 0%Q n) with (repeat 0%Q (S n)).
  rewrite negb_false_iff, Qeq_bool_iff, Qvariance_zero_iff by discriminate.
  intros a b Ha Hb. apply repeat_spec in Ha, Hb. now subst.
Qed.

End StandardDeviation.

(** ** The sentinel is no formatted number *)

Lemma string_of_uint_head (d : Decimal.uint) :
  exists c r, NilZero.string_of_uint d = String c r /\ is_digit c = true.
Proof. destruct d; eexists; eexists; split; reflexivity. Qed.

Lemma str_of_Z_head (n : Z) :
  exists c r, str_of_Z n = String c r /\ c <> "N"%char.
Proof.
  unfold str_of_Z, NilZero.string_of_int.
  destruct (Z.to_int n) as [d|d].
  - destruct (string_of_uint_head d) as (c & r & -> & Hc).
    exists c, r. split; [reflexivity|]. intros ->. discriminate.
  - eexists; eexists. split; [reflexivity | discriminate].
Qed.

Lemma format_2f_head (x : float64) :
  exists c r, format_2f x = String c r /\ c <> "N"%char.
Proof.
  destruct x as [[]|[]| |s m e]; try (eexists; eexists; split; [reflexivity | discriminate]).
  unfold format_2f. destruct s.
  - eexists; eexists. split; [reflexivity | discriminate].
  - destruct (str_of_Z_head (hundredths m e / 100)) as (c & r & -> & Hc).
    eexists; eexists. split; [reflexivity | exact Hc].
Qed.

Lemma format_number_float_not_sentinel (x : float64) :
  format_number (VFloat x) <> not_applicable.
Proof.
  destruct (format_number_float x) as (s & Hs & kd & k0 & Hfull & _).
  rewrite Hs. intros [= ->].
  destruct (format_2f_head x) as (c & r & Hc & HN).
  rewrite Hc in Hfull. rewrite append_cons in Hfull. now inversion Hfull.
Qed.

(** ** Fold *)

Lemma get_trace_header_value_returns (self : SegyInfoExtractor) (key : string) :
  exists s, get_trace_header_value self key = Ok s.
Proof.
  destruct (get_trace_header_value_cases self key) as [(xs & _ & ->)|[_ ->]]; eauto.
Qed.

Lemma groupby_size_reductions (s : series) :
  exists sizes mx mn,
    groupby_size s = PdSeries sizes /\
    s_max (PdSeries sizes) = Ok mx /\
    s_min (PdSeries sizes) = Ok mn /\
    format_number mx <> not_applicable /\
    format_number mn <> not_applicable.
Proof.
  assert (H : forall sizes, exists mx mn,
             s_max (PdSeries sizes) = Ok mx /\ s_min (PdSeries sizes) = Ok mn /\
             format_number mx <> not_applicable /\ format_number mn <> not_applicable).
  { intros [|z zs].
    - exists (VFloat fnan), (VFloat fnan).
      repeat split; apply format_number_float_not_sentinel.
    - eexists; eexists. repeat split; discriminate. }
  destruct s as [xs|xs]; cbn [groupby_size];
    match goal with
    | |- context [PdSeries ?l = _] => destruct (H l) as (mx & mn & Hrest)
    end; eauto 10.
Qed.

(** ** Scaling factor *)

(** The factor is the formatted mean, a text, whatever the mean is: the
    comparison with the number 0 never holds for a text, so the default 1
    is never taken. *)
Lemma extract_scaling_factor_formatted (self : SegyInfoExtractor) :
  exists s str,
    get_trace_header_value self "SourceGroupScalar" = Ok s /\
    format_number (VFloat (s_mean s)) = VStr str /\
    extract_scaling_factor self = Ok (VStr str).
Proof.
  destruct (get_trace_header_value_returns self "SourceGroupScalar") as [s Hs].
  exists s, (rstrip "." (rstrip "0" (format_2f (s_mean s)))).
  split; [exact Hs|]. split; [reflexivity|].
  unfold extract_scaling_factor. ok_step Hs. reflexivity.
Qed.

(** C5. On a table whose scalar column has mean exactly zero, the factor
    the code returns is the text ["0"], not 1; so it is for
    [extract_all_info] on a file whose cached table has no scalar column. *)
Theorem extract_scaling_factor_zero_mean :
  s_mean (PdSeries [0; 0]) = fzero /\
  extract_scaling_factor zero_scalar = Ok (VStr "0") /\
  extract_scaling_factor zero_scalar <> Ok (VInt 1) /\
  exists x text,
    init zero_scalar_disk "./data/line.sgy" "line" = Ok x /\
    s_mean (np_zeros (df_len (trace_headers x))) = fzero /\
    @extract_all_info listing_with_job zero_scalar_disk x = Ok (text, VStr "0").
Proof.
  split; [vm_compute; reflexivity|].
  split; [vm_compute; reflexivity|].
  split; [vm_compute; discriminate|].
  eexists. eexists.
  split; [vm_compute; reflexivity|].
  split; [vm_compute; reflexivity|].
  vm_compute. reflexivity.
Qed.

(** ** Statistics over a missing column *)

Lemma fold_fmax_zeros (n : nat) : fold_left np_fmax (repeat fzero n) fzero = fzero.
Proof. induction n as [|n IH]; [reflexivity | exact IH]. Qed.

Lemma fold_fmin_zeros (n : nat) : fold_left np_fmin (repeat fzero n) fzero = fzero.
Proof. induction n as [|n IH]; [reflexivity | exact IH]. Qed.

Lemma extract_geometry_info_returns (self : SegyInfoExtractor) :
  df_wf (trace_headers self) ->
  (1 <= df_len (trace_headers self))%nat ->
  is_Some (segyio_file self) ->
  exists geo, extract_geometry_info self = Ok geo.
Proof.
  intros Hwf Hlen [h Hh]. unfold extract_geometry_info. rewrite Hh. ok_steps.
  destruct (get_trace_header_value_returns self "SourceX") as [sx Hsx]. ok_step Hsx.
  destruct (formatted_min_ok self Hwf "SourceX" Hlen) as (v1 & H1). ok_step H1.
  destruct (formatted_max_ok self Hwf "SourceX" Hlen) as (v2 & H2). ok_step H2.
  destruct (formatted_min_ok self Hwf "SourceY" Hlen) as (v3 & H3). ok_step H3.
  destruct (formatted_max_ok self Hwf "SourceY" Hlen) as (v4 & H4). ok_step H4.
  destruct (is3d self); [|ok_steps; eauto].
  destruct (get_trace_header_value_returns self "INLINE_3D") as [il Hil]. ok_step Hil.
  destruct (get_trace_header_value_returns self "CROSSLINE_3D") as [xl Hxl]. ok_step Hxl.
  eauto.
Qed.

Lemma extract_acquisition_info_returns `{Platform} (self : SegyInfoExtractor) :
  exists acq, extract_acquisition_info self = Ok acq.
Proof.
  unfold extract_acquisition_info.
  destruct (get_trace_header_value_returns self "CDP") as [cdp Hcdp]. ok_step Hcdp.
  destruct (groupby_size_reductions cdp) as (sizes & mx & mn & Hg & Hmx & Hmn & _).
  destruct (get_trace_header_value_returns self "INLINE_3D") as [il Hil].
  destruct (get_trace_header_value_returns self "CROSSLINE_3D") as [xl Hxl].
  destruct (std_ne_zero cdp).
  - rewrite Hg, Hmx. ok_steps. rewrite Hmn. ok_steps.
    destruct (is3d self); [ok_step Hil; ok_step Hxl | ok_steps]; eauto.
  - ok_steps. destruct (is3d self); [ok_step Hil; ok_step Hxl | ok_steps]; eauto.
Qed.

(** C10, as stated, fails: on a table without rows the statistics raise
    because of the missing field. The array of zeros that stands in for
    source X is empty, and its minimum is an error ([ValueError]) where the
    minimum of the empty column, were it there, is NaN: geometry info raises
    without the column and returns with it. *)
Lemma missing_column_counterexample :
  df_has (trace_headers empty_without_x) "SourceX" = false /\
  get_trace_header_value empty_without_x "SourceX" = Ok (NdArray []) /\
  (exists e, extract_geometry_info empty_without_x = Raise e /\
             exn_cls e = ValueErrorC) /\
  (exists geo, extract_geometry_info empty_with_x = Ok geo /\
               x_min (coords geo) = VStr "nan").
Proof.
  split; [reflexivity|]. split; [reflexivity|]. split.
  - eexists. split; [vm_compute; reflexivity | reflexivity].
  - eexists. split; [vm_compute; reflexivity | reflexivity].
Qed.

(** C10, amended. When the header table has no column [key],
    [get_trace_header_value] returns an array of zeros with one entry per
    row of the table and does not raise. On a table with a row, the
    formatted minimum and maximum of the field are those of zeros, ["0"];
    and on a table of two rows or more, read through an open file, basic,
    geometry and acquisition info are all returned. *)
Theorem get_trace_header_value_missing `{Platform} (self : SegyInfoExtractor)
  (key : string) :
  df_has (trace_headers self) key = false ->
  (exists zs,
     get_trace_header_value self key = Ok (NdArray zs) /\
     length zs = df_len (trace_headers self) /\
     Forall (fun z => z = fzero) zs) /\
  ((1 <= df_len (trace_headers self))%nat ->
   formatted_min self key = Ok (VStr "0") /\
   formatted_max self key = Ok (VStr "0")) /\
  (df_wf (trace_headers self) ->
   (2 <= df_len (trace_headers self))%nat ->
   is_Some (segyio_file self) ->
   exists basic geo acq,
     extract_basic_info self = Ok basic /\
     extract_geometry_info self = Ok geo /\
     extract_acquisition_info self = Ok acq).
Proof.
  intros Habsent.
  assert (Hz : get_trace_header_value self key = Ok (np_zeros (df_len (trace_headers self)))).
  { unfold get_trace_header_value. now rewrite Habsent. }
  split; [|split].
  - exists (repeat fzero (df_len (trace_headers self))).
    split; [exact Hz | apply repeat_length_Forall].
  - intros Hlen. unfold formatted_min, formatted_max. ok_step Hz.
    destruct (df_len (trace_headers self)) as [|n]; [lia|].
    unfold np_zeros. cbn [repeat s_min s_max]. ok_steps.
    now rewrite fold_fmin_zeros, fold_fmax_zeros.
  - intros Hwf Hlen Hopen.
    destruct (extract_basic_info_returns self Hwf Hlen) as (_ & basic & _ & Hb & _).
    destruct (extract_geometry_info_returns self Hwf) as (geo & Hg); [lia | exact Hopen |].
    destruct (extract_acquisition_info_returns self) as (acq & Ha).
    eauto 10.
Qed.

Lemma get_trace_header_value_missing_witness :
  df_has (trace_headers west_to_east) "offset" = false /\
  get_trace_header_value west_to_east "offset" = Ok (NdArray [fzero; fzero]) /\
  formatted_max west_to_east "offset" = Ok (VStr "0").
Proof.
  split; [reflexivity|].
  destruct (@get_trace_header_value_missing listing_with_job west_to_east "offset" eq_refl)
    as ((zs & Hzs & _) & Hzero & _).
  split; [reflexivity|]. apply Hzero. vm_compute. lia.
Defined.

(** ** Groups

    The sizes [groupby_size] returns are those of a partition of the rows:
    they add up to the number of rows. *)

Lemma sumZ_cons (x : Z) (l : list Z) : sumZ (x :: l) = x + sumZ l.
Proof. reflexivity. Qed.

Lemma sumZ_insert_sorted (leb : Z -> Z -> bool) (f : Z -> Z) (x : Z) (l : list Z) :
  sumZ (map f (insert_sorted leb x l)) = f x + sumZ (map f l).
Proof.
  induction l as [|y l IH]; [reflexivity|].
  cbn [insert_sorted]. destruct (leb x y); [reflexivity|].
  cbn [map sumZ fold_right] in *. fold (sumZ (map f (insert_sorted leb x l))).
  fold (sumZ (map f l)). rewrite IH. lia.
Qed.

Lemma sumZ_isort (leb : Z -> Z -> bool) (f : Z -> Z) (l : list Z) :
  sumZ (map f (isort leb l)) = sumZ (map f l).
Proof.
  induction l as [|x l IH]; [reflexivity|].
  unfold isort in *. cbn [foldr fold_right]. rewrite sumZ_insert_sorted, IH. reflexivity.
Qed.

Lemma count_by_cons (k x : Z) (l : list Z) :
  count_by Z.eqb k (x :: l) = (if k =? x then 1 else 0) + count_by Z.eqb k l.
Proof.
  unfold count_by. cbn [List.filter]. destruct (k =? x); cbn [length]; lia.
Qed.

Lemma count_by_absent (k : Z) (l : list Z) : ~ In k l -> count_by Z.eqb k l = 0.
Proof.
  induction l as [|x l IH]; intros Hk; [reflexivity|].
  rewrite count_by_cons, IH by (intros Hin; apply Hk; now right).
  destruct (Z.eqb_spec k x) as [->|_]; [|reflexivity].
  exfalso. apply Hk. now left.
Qed.

Lemma dedup_by_In (x : Z) (l : list Z) : In x (dedup_by Z.eqb l) <-> In x l.
Proof.
  induction l as [|y l IH]; [reflexivity|].
  cbn [dedup_by In]. rewrite filter_In, IH, negb_true_iff, Z.eqb_neq.
  destruct (Z.eq_dec y x); intuition.
Qed.

Lemma dedup_by_NoDup (l : list Z) : List.NoDup (dedup_by Z.eqb l).
Proof.
  induction l as [|y l IH]; [constructor|].
  cbn [dedup_by]. constructor.
  - rewrite filter_In, negb_true_iff, Z.eqb_neq. intros [_ Hne]. now apply Hne.
  - now apply List.NoDup_filter.
Qed.

(** Over keys without repetition, the sum splits into the part of [x] and
    the rest. *)
Lemma sumZ_split_key (f : Z -> Z) (x : Z) (keys : list Z) :
  List.NoDup keys ->
  sumZ (map f keys)
  = (if existsb (Z.eqb x) keys then f x else 0)
    + sumZ (map f (List.filter (fun y => negb (x =? y)) keys)).
Proof.
  induction keys as [|k keys IH]; intros Hnd; [reflexivity|].
  apply List.NoDup_cons_iff in Hnd as [Hk Hnd].
  cbn [map existsb List.filter]. rewrite !sumZ_cons, (IH Hnd).
  destruct (Z.eqb_spec x k) as [->|Hne]; cbn [negb orb].
  - assert (Hex : existsb (Z.eqb k) keys = false).
    { apply not_true_is_false. intros Hex. apply existsb_exists in Hex as (y & Hy & Hky).
      apply Z.eqb_eq in Hky. now subst y. }
    rewrite Hex. lia.
  - cbn [map]. rewrite sumZ_cons. lia.
Qed.

Lemma groupby_sizes_total (xs : list Z) :
  sumZ (map (fun k => count_by Z.eqb k xs) (isort Z.leb (dedup_by Z.eqb xs))) = Zlen xs.
Proof.
  rewrite sumZ_isort.
  induction xs as [|x l IH]; [reflexivity|].
  cbn [dedup_by map]. rewrite sumZ_cons, Zlen_cons, count_by_cons, Z.eqb_refl.
  assert (Hrest :
    sumZ (map (fun k => count_by Z.eqb k (x :: l))
              (List.filter (fun y => negb (x =? y)) (dedup_by Z.eqb l)))
    = sumZ (map (fun k => count_by Z.eqb k l)
                (List.filter (fun y => negb (x =? y)) (dedup_by Z.eqb l)))).
  { f_equal. apply map_ext_in. intros k Hk.
    apply filter_In in Hk as [_ Hk]. apply negb_true_iff, Z.eqb_neq in Hk.
    rewrite count_by_cons. destruct (Z.eqb_spec k x); [congruence | reflexivity]. }
  rewrite Hrest.
  pose proof (sumZ_split_key (fun k => count_by Z.eqb k l) x (dedup_by Z.eqb l)
                (dedup_by_NoDup l)) as Hsplit.
  rewrite IH in Hsplit.
  destruct (existsb (Z.eqb x) (dedup_by Z.eqb l)) eqn:Hex; [lia|].
  rewrite count_by_absent; [lia|].
  intros Hin. apply dedup_by_In in Hin.
  assert (existsb (Z.eqb x) (dedup_by Z.eqb l) = true)
    by (apply existsb_exists; exists x; split; [exact Hin | apply Z.eqb_refl]).
  congruence.
Qed.

(** The group sizes of a column add up to its length. *)
Lemma groupby_size_partition (xs : list Z) :
  exists sizes,
    groupby_size (PdSeries xs) = PdSeries sizes /\ sumZ sizes = Zlen xs.
Proof. eexists. split; [reflexivity | apply groupby_sizes_total]. Qed.

(** ** Fold

    The fold of a CDP is the number of rows that carry it. *)

Lemma fold_max_spec (xs : list Z) (x : Z) :
  In (fold_left Z.max xs x) (x :: xs) /\
  forall v, In v (x :: xs) -> v <= fold_left Z.max xs x.
Proof.
  revert x. induction xs as [|y xs IH]; intros x; cbn [fold_left].
  - split; [now left | intros v [<-|[]]; lia].
  - destruct (IH (Z.max x y)) as [Hin Hle]. split.
    + destruct Hin as [Heq|Hin]; [|right; now right].
      rewrite <- Heq. destruct (Z.max_spec x y) as [[_ ->]|[_ ->]];
        [right; now left | now left].
    + pose proof (Hle (Z.max x y) (or_introl eq_refl)) as Hm.
      intros v [Hv|[Hv|Hv]]; [lia | lia | apply Hle; now right].
Qed.

Lemma fold_min_spec (xs : list Z) (x : Z) :
  In (fold_left Z.min xs x) (x :: xs) /\
  forall v, In v (x :: xs) -> fold_left Z.min xs x <= v.
Proof.
  revert x. induction xs as [|y xs IH]; intros x; cbn [fold_left].
  - split; [now left | intros v [<-|[]]; lia].
  - destruct (IH (Z.min x y)) as [Hin Hle]. split.
    + destruct Hin as [Heq|Hin]; [|right; now right].
      rewrite <- Heq. destruct (Z.min_spec x y) as [[_ ->]|[_ ->]];
        [now left | right; now left].
    + pose proof (Hle (Z.min x y) (or_introl eq_refl)) as Hm.
      intros v [Hv|[Hv|Hv]]; [lia | lia | apply Hle; now right].
Qed.

Lemma insert_sorted_In {A} (leb : A -> A -> bool) (x y : A) (l : list A) :
  In y (insert_sorted leb x l) <-> y = x \/ In y l.
Proof.
  induction l as [|z l IH]; cbn [insert_sorted In].
  - intuition.
  - destruct (leb x z); cbn [In]; [intuition | rewrite IH; intuition].
Qed.

Lemma isort_In {A} (leb : A -> A -> bool) (y : A) (l : list A) :
  In y (isort leb l) <-> In y l.
Proof.
  induction l as [|x l IH]; [reflexivity|].
  unfold isort in *. cbn [foldr fold_right In]. rewrite insert_sorted_In, IH. intuition.
Qed.

Lemma insert_sorted_NoDup {A} (leb : A -> A -> bool) (x : A) (l : list A) :
  ~ In x l -> List.NoDup l -> List.NoDup (insert_sorted leb x l).
Proof.
  induction l as [|z l IH]; intros Hx Hnd; cbn [insert_sorted].
  - constructor; [intros [] | constructor].
  - destruct (leb x z); [now constructor|].
    apply List.NoDup_cons_iff in Hnd as [Hz Hnd]. constructor.
    + rewrite insert_sorted_In. intros [->|Hin]; [apply Hx; now left | now apply Hz].
    + apply IH; [intros Hin; apply Hx; now right | exact Hnd].
Qed.

Lemma isort_NoDup {A} (leb : A -> A -> bool) (l : list A) :
  List.NoDup l -> List.NoDup (isort leb l).
Proof.
  induction l as [|x l IH]; intros Hnd; [constructor|].
  apply List.NoDup_cons_iff in Hnd as [Hx Hnd].
  unfold isort in *. cbn [foldr fold_right].
  apply insert_sorted_NoDup; [|now apply IH].
  intros Hin. apply Hx. exact (proj1 (isort_In leb x l) Hin).
Qed.

Lemma count_by_present (k : Z) (l : list Z) :
  In k l -> 1 <= count_by Z.eqb k l <= Zlen l.
Proof.
  intros Hk. unfold count_by, Zlen.
  pose proof (List.filter_length_le (fun y => k =? y) l) as Hle.
  assert (Hin : In k (List.filter (fun y => k =? y) l))
    by (apply filter_In; split; [exact Hk | apply Z.eqb_refl]).
  destruct (List.filter (fun y => k =? y) l) as [|z r]; [destruct Hin|].
  cbn [length] in *. lia.
Qed.

Lemma count_by_occurrences (k : Z) (xs : list Z) : count_by Z.eqb k xs = occurrences k xs.
Proof. reflexivity. Qed.

(** The groups of a column that is not empty: one for each of its values,
    of the size the value occurs; the smallest and the largest size are
    those of two of its values, and the sizes add up to the length. *)
Lemma group_sizes_spec (xs : list Z) :
  xs <> [] ->
  exists keys s0 sizes kmin kmax,
    map (fun k => count_by Z.eqb k xs) (isort Z.leb (dedup_by Z.eqb xs)) = s0 :: sizes /\
    List.NoDup keys /\ (forall k, In k keys <-> In k xs) /\
    s0 :: sizes = map (fun k => occurrences k xs) keys /\
    sumZ (s0 :: sizes) = Zlen xs /\
    In kmin xs /\ In kmax xs /\
    fold_left Z.min sizes s0 = occurrences kmin xs /\
    fold_left Z.max sizes s0 = occurrences kmax xs /\
    forall k, In k xs ->
      1 <= occurrences kmin xs /\
      occurrences kmin xs <= occurrences k xs <= occurrences kmax xs.
Proof.
  intros Hne.
  set (keys := isort Z.leb (dedup_by Z.eqb xs)).
  assert (Hkeys : forall k, In k keys <-> In k xs).
  { intros k. unfold keys. rewrite isort_In. apply dedup_by_In. }
  assert (Hnd : List.NoDup keys) by (apply isort_NoDup, dedup_by_NoDup).
  destruct (map (fun k => count_by Z.eqb k xs) keys) as [|s0 sizes] eqn:Esizes.
  { exfalso. destruct xs as [|a xs]; [contradiction|].
    assert (Hin : In a keys) by (apply Hkeys; now left).
    apply (in_map (fun k => count_by Z.eqb k (a :: xs))) in Hin.
    rewrite Esizes in Hin. destruct Hin. }
  destruct (fold_min_spec sizes s0) as [Hmn Hle], (fold_max_spec sizes s0) as [Hmx Hge].
  rewrite <- Esizes in Hmn, Hmx.
  apply in_map_iff in Hmn as (kmin & Hkmin & Hinmin).
  apply in_map_iff in Hmx as (kmax & Hkmax & Hinmax).
  exists keys, s0, sizes, kmin, kmax.
  split; [reflexivity|]. split; [exact Hnd|]. split; [exact Hkeys|].
  split; [now rewrite <- Esizes|].
  split; [rewrite <- Esizes; apply groupby_sizes_total|].
  split; [now apply Hkeys|]. split; [now apply Hkeys|].
  split; [now rewrite <- Hkmin|]. split; [now rewrite <- Hkmax|].
  intros k Hk.
  assert (Hin : In (occurrences k xs) (s0 :: sizes)).
  { rewrite <- Esizes. apply in_map_iff. exists k. split; [reflexivity | now apply Hkeys]. }
  rewrite <- count_by_occurrences, Hkmin, <- (count_by_occurrences kmax), Hkmax.
  pose proof (Hle _ Hin) as H1. pose proof (Hge _ Hin) as H2.
  assert (Hmin1 : 1 <= count_by Z.eqb kmin xs)
    by (apply count_by_present; now apply Hkeys).
  rewrite Hkmin in Hmin1. lia.
Qed.

Section Fold.
Context `{Platform}.
Variable self : SegyInfoExtractor.

(** The two branches of [extract_acquisition_info]. *)
Lemma acquisition_sentinel (cdp : series) (acq : acquisition) :
  get_trace_header_value self "CDP" = Ok cdp ->
  std_ne_zero cdp = false ->
  extract_acquisition_info self = Ok acq ->
  average_fold acq = not_applicable /\
  maximum_fold acq = not_applicable /\
  minimum_fold acq = not_applicable.
Proof.
  intros Hcdp Hstd. unfold extract_acquisition_info.
  destruct (get_trace_header_value_returns self "INLINE_3D") as [il Hil].
  destruct (get_trace_header_value_returns self "CROSSLINE_3D") as [xl Hxl].
  ok_step Hcdp. rewrite Hstd. ok_steps.
  destruct (is3d self); [ok_step Hil; ok_step Hxl | ok_steps];
    intros [= <-]; repeat split.
Qed.

Lemma acquisition_numeric (xs : list Z) (s0 : Z) (sizes : list Z) (acq : acquisition) :
  get_trace_header_value self "CDP" = Ok (PdSeries xs) ->
  std_ne_zero (PdSeries xs) = true ->
  map (fun k => count_by Z.eqb k xs) (isort Z.leb (dedup_by Z.eqb xs)) = s0 :: sizes ->
  extract_acquisition_info self = Ok acq ->
  average_fold acq = format_number (VFloat (s_mean (PdSeries (s0 :: sizes)))) /\
  maximum_fold acq = VInt (fold_left Z.max sizes s0) /\
  minimum_fold acq = VInt (fold_left Z.min sizes s0).
Proof.
  intros Hcdp Hstd Hsizes. unfold extract_acquisition_info.
  destruct (get_trace_header_value_returns self "INLINE_3D") as [il Hil].
  destruct (get_trace_header_value_returns self "CROSSLINE_3D") as [xl Hxl].
  ok_step Hcdp. rewrite Hstd. cbv zeta. cbn [groupby_size]. rewrite Hsizes.
  cbn [s_max s_min]. ok_steps.
  destruct (is3d self); [ok_step Hil; ok_step Hxl | ok_steps];
    intros [= <-]; repeat split.
Qed.

End Fold.

(** C4, as stated, fails twice over. On the table without rows the CDP
    values are (vacuously) all identical, yet the fold metrics are the
    formatted NaN and not the sentinel. And where all CDP values are
    identical on a table with rows, the metrics are the text
    ["Not applicable"], which is not the text ["not applicable"]. *)
Lemma fold_sentinel_counterexample :
  (cdp_values_identical (trace_headers no_traces) /\
   exists acq,
     @extract_acquisition_info listing_with_job no_traces = Ok acq /\
     average_fold acq = VStr "nan" /\
     maximum_fold acq = VStr "nan" /\
     minimum_fold acq = VStr "nan" /\
     average_fold acq <> not_applicable) /\
  (cdp_values_identical (trace_headers single_cdp) /\
   exists acq,
     @extract_acquisition_info listing_with_job single_cdp = Ok acq /\
     average_fold acq = VStr "Not applicable" /\
     average_fold acq <> VStr "not applicable").
Proof.
  split; split.
  - intros xs Hxs a b Ha. injection Hxs as <-. destruct Ha.
  - eexists. split; [vm_compute; reflexivity|]. repeat split. discriminate.
  - intros xs Hxs a b Ha Hb. injection Hxs as <-.
    destruct Ha as [<-|[<-|[]]], Hb as [<-|[<-|[]]]; reflexivity.
  - eexists. split; [vm_compute; reflexivity|]. split; [reflexivity | discriminate].
Qed.

(** C4, amended. For a header table with at least one row whose CDP values
    binary64 adds without rounding (their absolute values add up to less
    than 2^53), each fold metric is the sentinel, the text
    ["Not applicable"], exactly when all CDP values of the table are
    identical. When they are not, the groups are those of the rows that
    share a CDP value, one for each value of the column: the average fold is
    the formatted mean of their sizes, and the minimum and maximum fold are
    the numbers of rows of two CDP values between which the number of rows
    of every CDP value lies. *)
Theorem fold_metrics_sentinel_iff `{Platform} (self : SegyInfoExtractor) :
  df_wf (trace_headers self) ->
  (1 <= df_len (trace_headers self))%nat ->
  cdp_exact (trace_headers self) ->
  exists acq,
    extract_acquisition_info self = Ok acq /\
    (average_fold acq = not_applicable <-> cdp_values_identical (trace_headers self)) /\
    (maximum_fold acq = not_applicable <-> cdp_values_identical (trace_headers self)) /\
    (minimum_fold acq = not_applicable <-> cdp_values_identical (trace_headers self)) /\
    (~ cdp_values_identical (trace_headers self) ->
     exists xs keys kmin kmax,
       assoc "CDP" (df_columns (trace_headers self)) = Some xs /\
       List.NoDup keys /\ (forall k, In k keys <-> In k xs) /\
       average_fold acq
       = format_number (VFloat (s_mean (PdSeries (map (fun k => occurrences k xs) keys)))) /\
       In kmin xs /\ In kmax xs /\
       minimum_fold acq = VInt (occurrences kmin xs) /\
       maximum_fold acq = VInt (occurrences kmax xs) /\
       forall k, In k xs ->
         occurrences kmin xs <= occurrences k xs <= occurrences kmax xs).
Proof.
  intros Hwf Hlen Hrange.
  destruct (extract_acquisition_info_returns self) as [acq Hacq].
  exists acq. split; [exact Hacq|].
  destruct (get_trace_header_value_len self "CDP" Hwf) as (cdp & Hcdp & Hn).
  destruct (get_trace_header_value_cases self "CDP") as [(xs & Hxs & Hv)|[Habs Hv]];
    rewrite Hv in Hcdp; injection Hcdp as <-.
  - (* the table has a CDP column *)
    assert (Hne : xs <> []) by (intros ->; cbn in Hn; lia).
    pose proof (std_ne_zero_column xs Hne (Hrange xs Hxs)) as Hstd.
    assert (Hid : cdp_values_identical (trace_headers self)
                  <-> forall a b, In a xs -> In b xs -> a = b).
    { unfold cdp_values_identical. rewrite Hxs. split.
      - intros Hall. now apply Hall.
      - intros Hall ys [= <-]. exact Hall. }
    destruct (std_ne_zero (PdSeries xs)) eqn:E.
    + assert (Hnot : ~ cdp_values_identical (trace_headers self)).
      { intros Hall. pose proof (proj2 Hstd (proj1 Hid Hall)). discriminate. }
      destruct (group_sizes_spec xs Hne)
        as (keys & s0 & sizes & kmin & kmax & Hsizes & Hnd & Hkeys & Hocc & _
            & Hkmin & Hkmax & Hmin & Hmax & Hbounds).
      destruct (acquisition_numeric self xs s0 sizes acq Hv E Hsizes Hacq)
        as (Havg & Hmx & Hmn).
      rewrite Havg, Hmx, Hmn.
      split; [split; [intros Hs; exfalso; revert Hs;
                      apply format_number_float_not_sentinel | contradiction]|].
      split; [split; [discriminate | contradiction]|].
      split; [split; [discriminate | contradiction]|].
      intros _. exists xs, keys, kmin, kmax.
      rewrite <- Hocc, Hmin, Hmax. repeat split; try assumption;
        try (now apply Hkeys); apply Hbounds; assumption.
    + assert (Hall : cdp_values_identical (trace_headers self))
        by (apply (proj2 Hid), (proj1 Hstd); reflexivity).
      destruct (acquisition_sentinel self _ acq Hv E Hacq) as (Havg & Hmx & Hmn).
      rewrite Havg, Hmx, Hmn. repeat split; try (intros; assumption); try reflexivity.
      contradiction.
  - (* no CDP column: zeros *)
    assert (Hall : cdp_values_identical (trace_headers self)).
    { intros xs Hxs.
      assert (df_has (trace_headers self) "CDP" = true) by (apply df_has_assoc; eauto).
      congruence. }
    destruct (acquisition_sentinel self _ acq Hv
                (std_ne_zero_zeros _ Hlen) Hacq) as (Havg & Hmx & Hmn).
    rewrite Havg, Hmx, Hmn. repeat split; try (intros; assumption); try reflexivity.
    contradiction.
Qed.

Lemma west_to_east_cdp_exact : cdp_exact (trace_headers west_to_east).
Proof. intros xs [= <-]. reflexivity. Defined.

Lemma fold_metrics_sentinel_iff_witness :
  df_wf (trace_headers west_to_east) /\
  (1 <= df_len (trace_headers west_to_east))%nat /\
  cdp_exact (trace_headers west_to_east) /\
  exists acq,
    @extract_acquisition_info listing_with_job west_to_east = Ok acq /\
    (average_fold acq = not_applicable
     <-> cdp_values_identical (trace_headers west_to_east)).
Proof.
  split; [exact west_to_east_wf|]. split; [vm_compute; lia|].
  split; [exact west_to_east_cdp_exact|].
  destruct (@fold_metrics_sentinel_iff listing_with_job west_to_east west_to_east_wf)
    as (acq & Hacq & Havg & _); [vm_compute; lia | exact west_to_east_cdp_exact |].
  exists acq. split; assumption.
Defined.

(** ** Geometry classification *)

Lemma is_instance_runtime (e : exn) :
  is_instance e RuntimeErrorC = true <-> exn_cls e = RuntimeErrorC.
Proof. destruct e as [[] msg]; simpl; split; congruence. Qed.

Lemma sorting_failure_test (e : exn) :
  is_instance e RuntimeErrorC && str_contains sorting_signature (exn_msg e) = true
  <-> sorting_failure e.
Proof.
  unfold sorting_failure.
  now rewrite andb_true_iff, is_instance_runtime, str_contains_iff.
Qed.

(** C3. [__enter__] opens the file in strict mode. If that succeeds the
    file is 3D and the strict handle is kept. If it raises a
    [RuntimeError] whose message contains ["unable to find sorting"], the
    file is opened again in relaxed mode and is 2D (a failure of that second
    open is raised). Any other failure of the strict open is raised as it
    is. *)
Theorem geometry_classification (fs : files) (self : SegyInfoExtractor) (f : segy_file) :
  fs !! segy_file_path self = Some (SegyFile f) ->
  match strict_error f with
  | None =>
      exists self',
        __enter__ fs self = Ok self' /\
        is_3d self' = Some true /\
        segyio_file self' = Some (mkHandle f false) /\
        trace_headers self' = trace_headers self
  | Some e =>
      (sorting_failure e ->
       match relaxed_error f with
       | None =>
           exists self',
             __enter__ fs self = Ok self' /\
             is_3d self' = Some false /\
             segyio_file self' = Some (mkHandle f true) /\
             trace_headers self' = trace_headers self
       | Some e' => __enter__ fs self = Raise e'
       end) /\
      (~ sorting_failure e -> __enter__ fs self = Raise e)
  end.
Proof.
  intros Hfile. unfold __enter__, segyio_open. rewrite Hfile.
  destruct (strict_error f) as [e|].
  - pose proof (sorting_failure_test e) as Htest.
    destruct (is_instance e RuntimeErrorC); cbn [andb] in Htest.
    + destruct (str_contains sorting_signature (exn_msg e)).
      * split; [intros _ | intros Hn; exfalso; apply Hn; now apply Htest].
        destruct (relaxed_error f); [reflexivity|].
        eexists. repeat split.
      * split; [intros Hs; apply Htest in Hs; discriminate | reflexivity].
    + split; [intros Hs; apply Htest in Hs; discriminate | reflexivity].
  - eexists. repeat split.
Qed.

Lemma geometry_classification_witness :
  let fs : files := {[ "./data/line.sgy" := SegyFile unsorted_file ]} in
  fs !! segy_file_path west_to_east = Some (SegyFile unsorted_file) /\
  exists self',
    __enter__ fs west_to_east = Ok self' /\ is_3d self' = Some false.
Proof.
  intros fs. split; [reflexivity|].
  pose proof (geometry_classification fs west_to_east unsorted_file eq_refl) as Hc.
  cbv beta iota delta [strict_error relaxed_error unsorted_file] in Hc.
  destruct Hc as [Hsort _].
  destruct Hsort as (self' & Henter & H3d & _).
  - split; [reflexivity|]. apply str_contains_iff. reflexivity.
  - exists self'. split; assumption.
Defined.

(** ** The header table *)

Lemma select_columns_ok (cols : list (string * list Z)) (labels : list string) :
  (forall k, In k labels -> exists xs, assoc k cols = Some xs) ->
  exists sel,
    select_columns cols labels = Ok sel /\
    map fst sel = labels /\
    (forall k, In k labels -> assoc k sel = assoc k cols).
Proof.
  induction labels as [|k ks IH]; intros Hall.
  - exists []. repeat split. intros k [].
  - destruct (Hall k (or_introl eq_refl)) as [xs Hxs].
    destruct IH as (sel & Hsel & Hnames & Hvals).
    { intros k' Hk'. apply Hall. now right. }
    exists ((k, xs) :: sel). cbn [select_columns]. rewrite Hxs. ok_step Hsel.
    split; [reflexivity|]. split; [cbn [map fst]; now rewrite Hnames|].
    intros k' Hk'. cbn [assoc].
    destruct (str_eqb_spec k' k) as [->|Hne]; [now rewrite Hxs|].
    destruct Hk' as [->|Hk']; [contradiction | now apply Hvals].
Qed.

Lemma dict_set_fresh {A} (k : string) (v : A) (l : list (string * A)) :
  ~ In k (map fst l) -> dict_set k v l = (l ++ [(k, v)])%list.
Proof.
  induction l as [|[k' v'] l IH]; intros Hk; [reflexivity|].
  cbn [dict_set]. destruct (str_eqb_spec k k') as [->|Hne].
  - exfalso. apply Hk. now left.
  - cbn [app]. rewrite IH; [reflexivity|]. intros Hin. apply Hk. now right.
Qed.

Lemma assoc_app_fresh {A} (k k' : string) (v : A) (l : list (string * A)) :
  k <> k' -> assoc k (l ++ [(k', v)])%list = assoc k l.
Proof.
  intros Hne. induction l as [|[k0 v0] l IH]; cbn [app assoc].
  - destruct (str_eqb_spec k k'); [contradiction | reflexivity].
  - destruct (str_eqb k k0); [reflexivity | exact IH].
Qed.

Lemma assoc_app_last {A} (k : string) (v : A) (l : list (string * A)) :
  ~ In k (map fst l) -> assoc k (l ++ [(k, v)])%list = Some v.
Proof.
  induction l as [|[k0 v0] l IH]; intros Hk; cbn [app assoc].
  - now rewrite str_eqb_refl.
  - destruct (str_eqb_spec k k0) as [->|Hne].
    + exfalso. apply Hk. now left.
    + apply IH. intros Hin. apply Hk. now right.
Qed.

(** [range n] is 0, 1, ..., n - 1. *)
Lemma range_length (n : nat) : length (range n) = n.
Proof. unfold range. now rewrite length_map, length_seq. Qed.

Lemma range_nth (n i : nat) : (i < n)%nat -> nth i (range n) 0 = Z.of_nat i.
Proof.
  intros Hi. unfold range.
  change 0 with (Z.of_nat 0). rewrite map_nth, seq_nth by exact Hi. reflexivity.
Qed.

Lemma map_injective_on {A B} (f : A -> B) (l : list A) (x y : A) :
  List.NoDup (map f l) -> In x l -> In y l -> f x = f y -> x = y.
Proof.
  induction l as [|a l IH]; intros Hnd Hx Hy Hf; [destruct Hx|].
  cbn [map] in Hnd. apply List.NoDup_cons_iff in Hnd as [Ha Hnd].
  destruct Hx as [->|Hx], Hy as [->|Hy]; try reflexivity.
  - exfalso. apply Ha. rewrite Hf. now apply in_map.
  - exfalso. apply Ha. rewrite <- Hf. now apply in_map.
  - now apply IH.
Qed.

Lemma retained_iff (scan : list scan_row) (row : scan_row) :
  List.NoDup (map scan_field scan) -> In row scan ->
  In (scan_field row) (retained scan) <-> mean_nonzero row = true.
Proof.
  intros Hnd Hrow. unfold retained. rewrite in_map_iff. split.
  - intros (row' & Hf & Hin). apply filter_In in Hin as [Hin Hnz].
    now rewrite <- (map_injective_on scan_field scan row' row Hnd Hin Hrow Hf).
  - intros Hnz. exists row. split; [reflexivity|]. apply filter_In. now split.
Qed.

(** [read_segy_headers] keeps a scanned header field as a column exactly
    when the mean the scan reports for it is not zero, with the values that
    were scraped, in the order of the scan; after them comes the column
    [trace_index], which holds 0, 1, 2, ... in row order, as does the index
    of the table. *)
Lemma read_segy_headers_by_scan (self : SegyHandler.SegyHandler) (fs : files)
  (file_name path : string) (f : segy_file) :
  FileHandler.get_segy_file_path (SegyHandler.super self) fs file_name = Ok path ->
  fs !! path = Some (SegyFile f) ->
  relaxed_error f = None ->
  List.NoDup (map scan_field (header_scan f)) ->
  ~ In "trace_index" (map scan_field (header_scan f)) ->
  (forall k, In k (retained (header_scan f)) -> df_has (header_scrape f) k = true) ->
  exists t,
    SegyHandler.read_segy_headers self fs file_name = Ok t /\
    df_names t = (retained (header_scan f) ++ ["trace_index"])%list /\
    (forall row, In row (header_scan f) ->
       In (scan_field row) (df_names t) <-> mean_nonzero row = true) /\
    (forall k, In k (retained (header_scan f)) ->
       assoc k (df_columns t) = assoc k (df_columns (header_scrape f))) /\
    assoc "trace_index" (df_columns t) = Some (df_index t) /\
    length (df_index t) = df_len (header_scrape f) /\
    (forall i, (i < df_len (header_scrape f))%nat -> nth i (df_index t) 0 = Z.of_nat i).
Proof.
  intros Hpath Hfile Hopen Hnd Hfresh Hcols.
  unfold SegyHandler.read_segy_headers.
  ok_step Hpath.
  unfold segyio_open, segy_header_scan, segy_header_scrape, read_segy.
  rewrite Hfile, Hopen. ok_steps.
  fold mean_nonzero. fold (retained (header_scan f)).
  destruct (select_columns_ok (df_columns (header_scrape f)) (retained (header_scan f)))
    as (sel & Hsel & Hnames & Hvals).
  { intros k Hk. apply df_has_assoc. now apply Hcols. }
  unfold df_select. ok_step Hsel.
  assert (Hti : ~ In "trace_index" (map fst sel)).
  { rewrite Hnames. unfold retained. intros Hin. apply Hfresh.
    apply in_map_iff in Hin as (row & Hf & Hin). apply filter_In in Hin as [Hin _].
    apply in_map_iff. now exists row. }
  eexists. split; [reflexivity|].
  unfold df_set_index_column, reset_index, df_names, df_len.
  cbn [df_index df_columns].
  rewrite dict_set_fresh by exact Hti.
  split; [now rewrite map_app, Hnames|]. split.
  - intros row Hrow. rewrite map_app, Hnames, in_app_iff, retained_iff by assumption.
    split; [|now left]. intros [Hnz|[Heq|[]]]; [exact Hnz|].
    exfalso. apply Hfresh. cbn [fst] in Heq. rewrite Heq. now apply in_map.
  - split.
    + intros k Hk. rewrite assoc_app_fresh; [now apply Hvals|].
      intros ->. apply Hti. now rewrite Hnames.
    + split; [now apply assoc_app_last|].
      split; [apply range_length|]. intros i Hi. now apply range_nth.
Qed.

(** The scan [segy_header_scan] makes: one row for each scraped column. *)
Lemma scan_of_fields (scrape : DataFrame) :
  map scan_field (scan_of scrape) = df_names scrape.
Proof.
  unfold scan_of, df_names. rewrite map_map. apply map_ext. now intros [k xs].
Qed.

Lemma assoc_of_In {A} (k : string) (v : A) (l : list (string * A)) :
  List.NoDup (map fst l) -> In (k, v) l -> assoc k l = Some v.
Proof.
  induction l as [|[k' v'] l IH]; intros Hnd Hin; [destruct Hin|].
  cbn [map fst] in Hnd. apply List.NoDup_cons_iff in Hnd as [Hk Hnd].
  cbn [assoc]. destruct (str_eqb_spec k k') as [->|Hne].
  - destruct Hin as [[= <-]|Hin]; [reflexivity|].
    exfalso. apply Hk. apply in_map_iff. now exists (k', v).
  - destruct Hin as [[= -> _]|Hin]; [contradiction | now apply IH].
Qed.

(** Over a file of at most [max_traces_scan] traces the scanned mean is the
    mean across all traces. *)
Lemma scanned_mean_short (xs : list Z) :
  (length xs <= max_traces_scan)%nat -> scanned_mean xs = s_mean (PdSeries xs).
Proof. intros Hlen. unfold scanned_mean. now rewrite firstn_all2. Qed.

(** C1, as stated, fails: the scan the handler asks for reads the first
    1000 traces only. On a line of 1001 traces whose source X is zero in the
    first 1000 and 250 in the last, the mean of source X across all traces
    is not zero, yet the header table has no such column. *)
Lemma scanned_mean_counterexample :
  scanned late_field_survey /\
  assoc "SourceX" (df_columns (header_scrape late_field_survey))
  = Some (repeat 0 1000 ++ [250])%list /\
  nonzero (s_mean (PdSeries (repeat 0 1000 ++ [250])%list)) = true /\
  exists t,
    SegyHandler.read_segy_headers survey_handler late_field_disk "line1" = Ok t /\
    df_names t = ["TRACE_SEQUENCE_LINE"; "trace_index"] /\
    ~ In "SourceX" (df_names t).
Proof.
  split; [reflexivity|]. split; [reflexivity|]. split; [vm_compute; reflexivity|].
  eexists. split; [vm_compute; reflexivity|]. split; [reflexivity|].
  cbn [In df_names df_columns map fst]. intuition discriminate.
Qed.

(** C1, amended. For a file whose scan is the one [segy_header_scan] makes
    of it, [read_segy_headers] keeps a header field as a column exactly when
    the mean of the field over the traces that are scanned, the first 1000,
    is not zero (the mean across all traces, for a file of at most 1000
    traces); a column that is kept holds the values of all traces, the
    columns are in the order of the fields, and after them comes the column
    [trace_index], which holds 0, 1, 2, ... in row order, as does the index
    of the table. *)
Theorem read_segy_headers_table (self : SegyHandler.SegyHandler) (fs : files)
  (file_name path : string) (f : segy_file) :
  FileHandler.get_segy_file_path (SegyHandler.super self) fs file_name = Ok path ->
  fs !! path = Some (SegyFile f) ->
  relaxed_error f = None ->
  scanned f ->
  List.NoDup (df_names (header_scrape f)) ->
  ~ In "trace_index" (df_names (header_scrape f)) ->
  exists t,
    SegyHandler.read_segy_headers self fs file_name = Ok t /\
    (forall k xs, assoc k (df_columns (header_scrape f)) = Some xs ->
       (In k (df_names t) <-> nonzero (scanned_mean xs) = true) /\
       (nonzero (scanned_mean xs) = true -> assoc k (df_columns t) = Some xs) /\
       ((length xs <= max_traces_scan)%nat -> scanned_mean xs = s_mean (PdSeries xs))) /\
    df_names t = (retained (scan_of (header_scrape f)) ++ ["trace_index"])%list /\
    assoc "trace_index" (df_columns t) = Some (df_index t) /\
    length (df_index t) = df_len (header_scrape f) /\
    (forall i, (i < df_len (header_scrape f))%nat -> nth i (df_index t) 0 = Z.of_nat i).
Proof.
  intros Hpath Hfile Hopen Hscan Hnd Hfresh. unfold scanned in Hscan.
  assert (Hfields : map scan_field (header_scan f) = df_names (header_scrape f))
    by (rewrite Hscan; apply scan_of_fields).
  destruct (read_segy_headers_by_scan self fs file_name path f Hpath Hfile Hopen)
    as (t & Ht & Hnames & Hkept & Hvals & Hti & Hlen & Hnth).
  - now rewrite Hfields.
  - now rewrite Hfields.
  - intros k Hk. unfold retained in Hk. apply in_map_iff in Hk as (row & <- & Hrow).
    apply filter_In in Hrow as [Hrow _]. unfold df_has. apply existsb_exists.
    exists (scan_field row). split; [|apply str_eqb_refl].
    rewrite <- Hfields. now apply in_map.
  - exists t. split; [exact Ht|]. rewrite Hscan in Hnames, Hkept, Hvals.
    split; [|repeat split; assumption].
    intros k xs Hxs.
    assert (Hrow : In (mkScan k (scanned_mean xs)) (scan_of (header_scrape f))).
    { unfold scan_of. apply in_map_iff. exists (k, xs). split; [reflexivity|].
      now apply assoc_In. }
    pose proof (Hkept _ Hrow) as Hiff. cbn [scan_field] in Hiff.
    split; [exact Hiff|]. split; [|apply scanned_mean_short].
    intros Hnz. rewrite Hvals; [exact Hxs|].
    apply (retained_iff (scan_of (header_scrape f)) (mkScan k (scanned_mean xs)));
      [now rewrite scan_of_fields | exact Hrow | exact Hnz].
Qed.

(** ** Resolving a logical name, and the header cache *)

Lemma find_first_match (registry : list string) (name b : string) :
  List.find (fun x => str_contains x name) registry = Some b
  <-> first_match registry name b.
Proof.
  induction registry as [|a l IH]; cbn [List.find].
  - split; [discriminate|]. intros (pre & post & Heq & _). destruct pre; discriminate.
  - destruct (str_contains a name) eqn:E.
    + split.
      * intros [= <-]. exists [], l. repeat split.
        -- now apply str_contains_iff.
        -- intros x [].
      * intros (pre & post & Heq & Hb & Hpre). destruct pre as [|p pre].
        -- now injection Heq as <- _.
        -- injection Heq as <- _. exfalso. apply (Hpre a); [now left|].
           now apply str_contains_iff.
    + rewrite IH. split.
      * intros (pre & post & -> & Hb & Hpre). exists (a :: pre), post. repeat split.
        -- exact Hb.
        -- intros x [<-|Hx]; [|now apply Hpre].
           intros Ha. apply str_contains_iff in Ha. congruence.
      * intros (pre & post & Heq & Hb & Hpre). destruct pre as [|p pre].
        -- injection Heq as <- _. apply str_contains_iff in Hb. congruence.
        -- injection Heq as <- ->. exists pre, post. repeat split; [exact Hb|].
           intros x Hx. apply Hpre. now right.
Qed.

Lemma find_no_match (registry : list string) (name : string) :
  List.find (fun x => str_contains x name) registry = None
  <-> forall x, In x registry -> ~ occurs_in x name.
Proof.
  split.
  - intros Hnone x Hx Hocc. apply str_contains_iff in Hocc.
    pose proof (find_none _ _ Hnone x Hx) as Hf. cbv beta in Hf. congruence.
  - intros Hall. destruct (List.find _ registry) as [b|] eqn:E; [|reflexivity].
    apply find_some in E as [Hin Hb]. exfalso. apply (Hall b Hin).
    now apply str_contains_iff.
Qed.

Section Process.
Context `{Platform}.
Variable self : SegyHandler.
Variable current_file : string.

Lemma path_exists_None (fs0 : files) (p : string) :
  fs0 !! p = None -> path_exists fs0 p = false.
Proof.
  intros Hp. unfold path_exists. rewrite Hp. apply bool_decide_eq_false.
  intros [x Hx]. discriminate.
Qed.

Lemma extract_headers_creates (fs0 fs1 : files) :
  __extract_segy_trace_headers self fs0 current_file = (Ok (), fs1) ->
  exists df, fs1 !! parquet_path self current_file = Some (ParquetFile df).
Proof.
  unfold __extract_segy_trace_headers.
  destruct (__save_segy_text_header_as_txt self fs0 current_file) as [fsa|e];
    [|discriminate].
  unfold __read_and_save_segy_headers.
  destruct (read_segy_headers self fsa current_file) as [df|e]; [|discriminate].
  ok_steps. intros [= <-]. exists (FileHandler.parquet_table df).
  unfold FileHandler.to_parquet, parquet_path, data_directory.
  apply lookup_insert_eq.
Qed.

(** C6. [process_segy_file] resolves the logical name to the first name of
    the registry that occurs in it, and fails with [ValueError] when none
    does. When the header-table cache of the logical name does not exist,
    a name that differs from its base name fails with [ValueError] and
    nothing is written; the cache can only appear when the logical name is
    its own base name, and then the header extraction writes it. *)
Theorem process_segy_file_resolution (w : world) :
  (forall b, get_segy_base_name self current_file = Ok b
             <-> first_match (available_segy_files self) current_file b) /\
  ((forall x, In x (available_segy_files self) -> ~ occurs_in x current_file) ->
   invalid (get_segy_base_name self current_file) /\
   invalid (process_segy_file self w current_file).1 /\
   (process_segy_file self w current_file).2 = w) /\
  (fs w !! parquet_path self current_file = None ->
   (forall b, get_segy_base_name self current_file = Ok b -> b <> current_file ->
      invalid (process_segy_file self w current_file).1 /\
      (process_segy_file self w current_file).2 = w) /\
   (is_Some (fs (process_segy_file self w current_file).2 !! parquet_path self current_file) ->
      get_segy_base_name self current_file = Ok current_file) /\
   (forall fs1, __extract_segy_trace_headers self (fs w) current_file = (Ok (), fs1) ->
      exists df, fs1 !! parquet_path self current_file = Some (ParquetFile df))).
Proof.
  split; [|split].
  - intros b. rewrite <- find_first_match. unfold get_segy_base_name.
    destruct (List.find _ _); split; congruence.
  - intros Hnone. apply find_no_match in Hnone.
    unfold process_segy_file, get_segy_base_name. rewrite Hnone.
    repeat split; eexists; split; reflexivity.
  - intros Habsent. split; [|split].
    + intros b Hb Hne. unfold process_segy_file. rewrite Hb.
      fold (parquet_path self current_file). rewrite (path_exists_None _ _ Habsent). cbn [negb].
      destruct (str_eqb_spec current_file b) as [->|_]; [contradiction|].
      split; [eexists; split; reflexivity | reflexivity].
    + unfold process_segy_file.
      destruct (get_segy_base_name self current_file) as [b|e].
      * fold (parquet_path self current_file). rewrite (path_exists_None _ _ Habsent). cbn [negb].
        destruct (str_eqb_spec current_file b) as [->|_]; [reflexivity|].
        cbn [snd]. rewrite Habsent. intros [x Hx]. discriminate.
      * cbn [snd]. rewrite Habsent. intros [x Hx]. discriminate.
    + intros fs1. apply extract_headers_creates.
Qed.

End Process.

(** ** The statistics cache *)

Lemma extract_all_info_scalar `{Platform} (fs0 : files) (x : SegyInfoExtractor)
  (text : string) (scalar : value) :
  extract_all_info fs0 x = Ok (text, scalar) -> exists s, scalar = VStr s.
Proof.
  unfold extract_all_info. intros Hall.
  repeat first
    [ rewrite bind_Ok in Hall; cbv beta zeta in Hall
    | match type of Hall with
      | (extract_scaling_factor ?y ≫= _) = Ok _ =>
          destruct (extract_scaling_factor_formatted y) as (? & s & _ & _ & Hs);
          rewrite Hs in Hall
      | (?m ≫= _) = Ok _ => destruct m; [|discriminate]
      end ].
  injection Hall as _ <-. eauto.
Qed.

Lemma json_roundtrip_strings (l : list string) :
  map FileHandler.json_roundtrip (map (fun c => JVal (VStr c)) l)
  = map (fun c => JVal (VStr c)) l.
Proof. induction l as [|c l IH]; [reflexivity | cbn [map]; now rewrite IH]. Qed.

(** The entry that is computed reads back from its JSON file as it is. *)
Lemma stats_entry_roundtrip (name : string) (columns : list string) (text s : string) :
  FileHandler.json_roundtrip (stats_entry name columns text (VStr s))
  = stats_entry name columns text (VStr s).
Proof.
  unfold stats_entry. cbn [FileHandler.json_roundtrip map fst snd].
  now rewrite json_roundtrip_strings.
Qed.

Section Statistics.
Context `{Platform}.
Variable self : SegyHandler.
Variable current_file : string.

Lemma cache_hit (w : world) (entry : json) :
  persisted self current_file w entry ->
  get_seismic_statistics self w current_file = (Ok entry, w).
Proof.
  intros [Hfile Hnull]. unfold get_seismic_statistics, FileHandler.load_segy_from_json.
  fold (json_path self current_file). rewrite Hfile.
  destruct entry as [[]| |]; try reflexivity. contradiction.
Qed.

Lemma get_segy_information_counts (w w1 : world) (r : result (string * value)) :
  get_segy_information self w current_file = (r, w1) ->
  fs w1 = fs w /\ (extractions w1 <= S (extractions w))%nat /\
  forall text scalar, r = Ok (text, scalar) -> exists s, scalar = VStr s.
Proof.
  unfold get_segy_information.
  destruct (_ ≫= _) as [x|e]; intros [= <- <-]; cbn [fs extractions].
  - repeat split; [lia|]. intros text scalar. apply extract_all_info_scalar.
  - repeat split; [lia|]. discriminate.
Qed.

(** A call that returns leaves a persisted entry behind: the one it
    returned. It has run the extractor once at most. *)
Lemma returns_persisted (w w1 : world) (entry : json) :
  get_seismic_statistics self w current_file = (Ok entry, w1) ->
  persisted self current_file w1 entry /\
  (extractions w1 <= S (extractions w))%nat.
Proof.
  unfold get_seismic_statistics, FileHandler.load_segy_from_json.
  fold (json_path self current_file).
  destruct (fs w !! json_path self current_file) as [[f|df|j|s]|] eqn:Hfile;
    try discriminate;
    [destruct j as [[]| |]|];
    try (intros [= <- <-]; split; [split; [exact Hfile | discriminate] | lia]).
  (* what is left: no file, or the document [null] *)
  all: destruct (FileHandler.get_columns_from_parquet _ _ _) as [columns|e];
    [|discriminate].
  all: destruct (get_segy_information self w current_file)
         as [[[text scalar]|e] w'] eqn:Hinfo; [|discriminate].
  all: apply get_segy_information_counts in Hinfo as (Hfs & Hcount & Hscalar).
  all: destruct (Hscalar text scalar eq_refl) as [s ->].
  all: intros [= <- <-]; split; [|exact Hcount].
  all: split; [|discriminate].
  all: unfold with_fs, FileHandler.save_segy_information_to_json; cbn [fs].
  all: fold (json_path self current_file).
  all: rewrite stats_entry_roundtrip; apply lookup_insert_eq.
Qed.

(** C2. When a statistics entry is persisted for the logical name,
    [get_seismic_statistics] returns that entry and changes nothing: no
    file is written and the extractor is not run. Hence a second call
    returns what the first returned, and of two calls in a row at most the
    first runs the extractor. *)
Theorem get_seismic_statistics_cached (w : world) :
  (forall entry, persisted self current_file w entry ->
     get_seismic_statistics self w current_file = (Ok entry, w)) /\
  (forall entry w1,
     get_seismic_statistics self w current_file = (Ok entry, w1) ->
     get_seismic_statistics self w1 current_file = (Ok entry, w1) /\
     (extractions w1 <= S (extractions w))%nat).
Proof.
  split; [apply cache_hit|].
  intros entry w1 Hfirst. apply returns_persisted in Hfirst as [Hp Hcount].
  split; [now apply cache_hit | exact Hcount].
Qed.

End Statistics.

(** ** A survey on disk *)

Lemma read_segy_headers_table_witness :
  scanned survey /\
  exists t,
    read_segy_headers survey_handler survey_disk "line1" = Ok t /\
    df_names t = ["TRACE_SEQUENCE_LINE"; "CDP"; "SourceX"; "SourceGroupScalar"; "trace_index"] /\
    ~ In "offset" (df_names t) /\
    assoc "trace_index" (df_columns t) = Some [0; 1; 2; 3].
Proof.
  assert (Hscan : scanned survey) by (vm_compute; reflexivity).
  split; [exact Hscan|].
  destruct (read_segy_headers_table survey_handler survey_disk "line1"
              "./data/line1.sgy" survey)
    as (t & Ht & Hcols & _); try reflexivity; try exact Hscan.
  - cbn [header_scrape survey survey_scrape df_names df_columns map fst].
    repeat (apply List.NoDup_cons; [cbn [In]; intuition discriminate|]).
    apply List.NoDup_nil.
  - cbn [header_scrape survey survey_scrape df_names df_columns map fst In].
    intuition discriminate.
  - exists t. destruct (Hcols "offset" [0; 0; 0; 0] eq_refl) as (Hoffset & _).
    pose proof Ht as Hval. vm_compute in Hval. injection Hval as <-.
    split; [exact Ht|]. split; [reflexivity|].
    split; [|reflexivity].
    intros Hin. apply Hoffset in Hin. vm_compute in Hin. discriminate Hin.
Defined.

Lemma process_segy_file_resolution_witness :
  fs survey_world !! parquet_path survey_handler "line1_sub" = None /\
  get_segy_base_name survey_handler "line1_sub" = Ok "line1" /\
  invalid (@process_segy_file listing_with_job survey_handler survey_world "line1_sub").1 /\
  (@process_segy_file listing_with_job survey_handler survey_world "line1_sub").2
  = survey_world.
Proof.
  assert (Habsent : fs survey_world !! parquet_path survey_handler "line1_sub" = None)
    by reflexivity.
  assert (Hbase : get_segy_base_name survey_handler "line1_sub" = Ok "line1")
    by (vm_compute; reflexivity).
  split; [exact Habsent|]. split; [exact Hbase|].
  destruct (@process_segy_file_resolution listing_with_job survey_handler "line1_sub"
              survey_world) as (_ & _ & Hcache).
  destruct (Hcache Habsent) as (Halias & _).
  apply (Halias "line1" Hbase). discriminate.
Defined.

Lemma get_seismic_statistics_cached_witness :
  persisted survey_handler "line1" cached_world cached_entry /\
  @get_seismic_statistics listing_with_job survey_handler cached_world "line1"
  = (Ok cached_entry, cached_world).
Proof.
  assert (Hp : persisted survey_handler "line1" cached_world cached_entry)
    by (split; [reflexivity | discriminate]).
  split; [exact Hp|].
  destruct (@get_seismic_statistics_cached listing_with_job survey_handler "line1"
              cached_world) as (Hhit & _).
  exact (Hhit cached_entry Hp).
Defined.

(** The whole pipeline on the survey: the first call extracts the headers,
    runs the extractor once and persists the entry; the second call returns
    the same entry and runs nothing. *)
Example survey_processed_twice :
  let first := @process_segy_file listing_with_job survey_handler survey_world "line1" in
  let second := @process_segy_file listing_with_job survey_handler first.2 "line1" in
  (exists entry, first.1 = Ok entry /\ second.1 = Ok entry) /\
  extractions first.2 = 1%nat /\
  extractions second.2 = 1%nat.
Proof.
  cbv zeta. split; [|split; vm_compute; reflexivity].
  eexists. split; vm_compute; reflexivity.
Qed.

(* ===================================================================== *)
(** * Further properties of the code                                      *)
(* ===================================================================== *)

(** ** Paths *)

Lemma append_inj_l (a x y : string) : a ++ x = a ++ y -> x = y.
Proof.
  induction a as [|c a IH]; [now rewrite !append_nil_l|].
  rewrite !append_cons. intros [= Heq]. now apply IH.
Qed.

Lemma path_join_relative (a b : string) :
  startswith "/" b = false -> path_join a b = dir_prefix a ++ b.
Proof.
  intros Hb. unfold path_join, dir_prefix. rewrite Hb.
  destruct a as [|c a]; [reflexivity|].
  destruct (ends_with_slash (String c a)); [reflexivity|].
  now rewrite append_assoc.
Qed.

Lemma path_join_absolute (a b : string) :
  startswith "/" b = true -> path_join a b = b.
Proof. intros Hb. unfold path_join. now rewrite Hb. Qed.

Lemma startswith_stem (n e1 e2 : string) :
  startswith "/" e1 = startswith "/" e2 ->
  startswith "/" (n ++ e1) = startswith "/" (n ++ e2).
Proof.
  intros He. destruct n as [|c n]; [now rewrite !append_nil_l|].
  rewrite !append_cons. unfold startswith. cbn [String.prefix].
  destruct (ascii_dec "/" c); [|reflexivity]. now destruct (n ++ e1), (n ++ e2).
Qed.

(** Two files of one stem in one directory are at one path only if their
    extensions agree. *)
Lemma path_join_same_stem (a n e1 e2 : string) :
  startswith "/" e1 = startswith "/" e2 ->
  path_join a (n ++ e1) = path_join a (n ++ e2) -> e1 = e2.
Proof.
  intros He Hp. pose proof (startswith_stem n e1 e2 He) as Hs.
  destruct (startswith "/" (n ++ e2)) eqn:E2.
  - rewrite !path_join_absolute in Hp by assumption. now apply append_inj_l in Hp.
  - rewrite !path_join_relative in Hp by assumption.
    now apply append_inj_l, append_inj_l in Hp.
Qed.

Lemma last_char_app (a b : string) : b <> "" -> last_char (a ++ b) = last_char b.
Proof.
  intros Hb. induction a as [|c a IH]; [reflexivity|].
  rewrite append_cons. cbn [last_char]. rewrite IH.
  destruct (a ++ b) eqn:E; [|reflexivity].
  destruct a; [rewrite append_nil_l in E; contradiction | discriminate].
Qed.

Lemma path_join_last_char (a b : string) :
  b <> "" -> last_char (path_join a b) = last_char b.
Proof.
  intros Hb. destruct (startswith "/" b) eqn:E.
  - now rewrite path_join_absolute.
  - rewrite path_join_relative by assumption. now apply last_char_app.
Qed.

Lemma extension_last_char (a n e : string) :
  e <> "" -> last_char (path_join a (n ++ e)) = last_char e.
Proof.
  intros He. rewrite path_join_last_char, last_char_app; [reflexivity | assumption |].
  destruct n; [now rewrite append_nil_l | discriminate].
Qed.

Lemma differ_by_last_char (p q : string) : last_char p <> last_char q -> p <> q.
Proof. intros Hl ->. now apply Hl. Qed.

Section ArtifactPaths.
Variable self : SegyHandler.

Lemma sgy_path_last (name : string) : last_char (sgy_path self name) = Some "y"%char.
Proof. unfold sgy_path. now rewrite extension_last_char. Qed.

Lemma segy_path_last (name : string) : last_char (segy_path self name) = Some "y"%char.
Proof. unfold segy_path. now rewrite extension_last_char. Qed.

Lemma txt_path_last (name : string) : last_char (txt_path self name) = Some "t"%char.
Proof. unfold txt_path. now rewrite extension_last_char. Qed.

Lemma parquet_path_last (name : string) :
  last_char (parquet_path self name) = Some "t"%char.
Proof. unfold parquet_path. now rewrite extension_last_char. Qed.

Lemma json_path_last (name : string) : last_char (json_path self name) = Some "n"%char.
Proof.
  unfold json_path, FileHandler.get_json_filepath. now rewrite extension_last_char.
Qed.

Lemma txt_parquet_differ (name : string) : txt_path self name <> parquet_path self name.
Proof.
  unfold txt_path, parquet_path. intros Heq.
  apply path_join_same_stem in Heq; [discriminate Heq | reflexivity].
Qed.

Lemma sgy_segy_differ (name : string) : sgy_path self name <> segy_path self name.
Proof.
  unfold sgy_path, segy_path. intros Heq.
  apply path_join_same_stem in Heq; [discriminate Heq | reflexivity].
Qed.

(** X1. The five files that belong to one logical name (the source under
    either extension, the text header dump, the header-table cache, the
    statistics entry) are at five different paths, whatever the data
    directory and the name are. *)
Theorem artifact_paths_distinct (name : string) :
  List.NoDup [ sgy_path self name; segy_path self name; txt_path self name;
               parquet_path self name; json_path self name ].
Proof.
  pose proof (sgy_path_last name) as Hs. pose proof (segy_path_last name) as Hg.
  pose proof (txt_path_last name) as Ht. pose proof (parquet_path_last name) as Hp.
  pose proof (json_path_last name) as Hj.
  pose proof (txt_parquet_differ name) as Htp.
  pose proof (sgy_segy_differ name) as Hsg.
  repeat constructor; cbn [In]; intuition idtac;
    match goal with
    | H : ?p = ?q |- _ =>
        first [ exact (Htp H) | exact (Htp (eq_sym H))
              | exact (Hsg H) | exact (Hsg (eq_sym H))
              | (apply (f_equal last_char) in H;
                 rewrite ?Hs, ?Hg, ?Ht, ?Hp, ?Hj in H; discriminate H) ]
    end.
Qed.

End ArtifactPaths.

Lemma path_exists_true (fs0 : files) (p : string) :
  path_exists fs0 p = true <-> is_Some (fs0 !! p).
Proof. unfold path_exists. apply bool_decide_eq_true. Qed.

Lemma path_exists_false (fs0 : files) (p : string) :
  path_exists fs0 p = false <-> fs0 !! p = None.
Proof.
  unfold path_exists. rewrite bool_decide_eq_false, <- eq_None_not_Some. reflexivity.
Qed.


(** ** What the handler writes *)

Section Writes.
Context `{Platform}.
Variable self : SegyHandler.
Variable current_file : string.

Lemma get_segy_file_path_frame (fs0 fs1 : files) (name : string) :
  fs1 !! sgy_path self name = fs0 !! sgy_path self name ->
  fs1 !! segy_path self name = fs0 !! segy_path self name ->
  FileHandler.get_segy_file_path (super self) fs1 name
  = FileHandler.get_segy_file_path (super self) fs0 name.
Proof.
  intros Hs Hg.
  unfold FileHandler.get_segy_file_path, FileHandler.possible_extensions.
  cbn [FileHandler.first_existing]. unfold path_exists.
  fold (data_directory self). fold (sgy_path self name). fold (segy_path self name).
  now rewrite Hs, Hg.
Qed.

Lemma get_segy_file_path_cases (fs0 : files) (name path : string) :
  FileHandler.get_segy_file_path (super self) fs0 name = Ok path ->
  is_Some (fs0 !! path) /\ (path = sgy_path self name \/ path = segy_path self name).
Proof.
  unfold FileHandler.get_segy_file_path, FileHandler.possible_extensions.
  cbn [FileHandler.first_existing].
  fold (data_directory self). fold (sgy_path self name). fold (segy_path self name).
  destruct (path_exists fs0 (sgy_path self name)) eqn:Es.
  - intros [= <-]. split; [now apply path_exists_true | now left].
  - destruct (path_exists fs0 (segy_path self name)) eqn:Eg; [|discriminate].
    intros [= <-]. split; [now apply path_exists_true | now right].
Qed.

(** No source path is a path of an artifact. *)
Lemma source_not_written (name other : string) (p : string) :
  p = sgy_path self name \/ p = segy_path self name ->
  p <> txt_path self other /\
  p <> parquet_path self other /\
  p <> json_path self other.
Proof.
  intros [-> | ->]; repeat split; apply differ_by_last_char;
    rewrite ?sgy_path_last, ?segy_path_last, ?txt_path_last, ?parquet_path_last,
      ?json_path_last; discriminate.
Qed.

(** Reading the headers of [name] looks at its two source paths only. *)
Lemma read_segy_headers_frame (fs0 fs1 : files) (name : string) :
  fs1 !! sgy_path self name = fs0 !! sgy_path self name ->
  fs1 !! segy_path self name = fs0 !! segy_path self name ->
  read_segy_headers self fs1 name = read_segy_headers self fs0 name.
Proof.
  intros Hs Hg. unfold read_segy_headers.
  rewrite (get_segy_file_path_frame fs0 fs1 name Hs Hg).
  destruct (FileHandler.get_segy_file_path (super self) fs0 name) as [path|e] eqn:Hpath;
    [|reflexivity].
  apply get_segy_file_path_cases in Hpath as [_ Hpath].
  assert (Hfile : fs1 !! path = fs0 !! path) by now destruct Hpath as [-> | ->].
  ok_steps.
  unfold segyio_open, segy_header_scan, segy_header_scrape, read_segy.
  now rewrite Hfile.
Qed.

Lemma save_text_header_writes (fs0 fs1 : files) :
  __save_segy_text_header_as_txt self fs0 current_file = Ok fs1 ->
  exists path header,
    FileHandler.get_segy_file_path (super self) fs0 current_file = Ok path /\
    get_segy_texthead fs0 path = Ok header /\
    fs1 = <[txt_path self current_file := TextFile header]> fs0.
Proof.
  unfold __save_segy_text_header_as_txt.
  destruct (FileHandler.get_segy_file_path _ _ _) as [p|e]; [|discriminate]. ok_steps.
  destruct (get_segy_texthead fs0 p) as [header|e] eqn:Hhead; [|discriminate]. ok_steps.
  intros [= <-]. now exists p, header.
Qed.

Lemma read_and_save_writes (fs0 fs1 : files) :
  __read_and_save_segy_headers self fs0 current_file = Ok fs1 ->
  exists t,
    read_segy_headers self fs0 current_file = Ok t /\
    fs1 = <[parquet_path self current_file
              := ParquetFile (FileHandler.parquet_table t)]> fs0.
Proof.
  unfold __read_and_save_segy_headers.
  destruct (read_segy_headers self fs0 current_file) as [t|e]; [|discriminate].
  ok_steps. intros [= <-]. now exists t.
Qed.

(** The text header dump does not change what the headers read as. *)
Lemma read_after_text_header (fs0 : files) (header : string) :
  read_segy_headers self (<[txt_path self current_file := TextFile header]> fs0) current_file
  = read_segy_headers self fs0 current_file.
Proof.
  destruct (source_not_written current_file current_file _ (or_introl eq_refl)) as (H1 & _).
  destruct (source_not_written current_file current_file _ (or_intror eq_refl)) as (H2 & _).
  apply read_segy_headers_frame; now rewrite lookup_insert_ne by congruence.
Qed.

(** X2. Header extraction reports every failure as a plain [Exception]
    whose message starts with ["Error extracting headers: "], and it is not
    atomic: when it fails, either nothing was written, or the text header
    dump was written and it is the reading of the trace headers that
    failed. The header-table cache is never written by a failing
    extraction. *)
Theorem extract_headers_failure (fs0 fs1 : files) (e : exn) :
  __extract_segy_trace_headers self fs0 current_file = (Raise e, fs1) ->
  exn_cls e = ExceptionC /\
  (exists cause, exn_msg e = "Error extracting headers: " ++ cause) /\
  (fs1 = fs0 \/
   exists header cause,
     fs1 = <[txt_path self current_file := TextFile header]> fs0 /\
     read_segy_headers self fs0 current_file = Raise cause).
Proof.
  unfold __extract_segy_trace_headers.
  destruct (__save_segy_text_header_as_txt self fs0 current_file) as [fsa|e0] eqn:Etxt.
  - apply save_text_header_writes in Etxt as (path & header & _ & _ & ->).
    unfold __read_and_save_segy_headers. rewrite read_after_text_header.
    destruct (read_segy_headers self fs0 current_file) as [t|cause] eqn:Eread;
      [discriminate|].
    intros [= <- <-]. repeat split; [now exists (exn_msg cause)|].
    right. now exists header, cause.
  - intros [= <- <-]. repeat split; [now exists (exn_msg e0) | now left].
Qed.

Lemma extract_headers_frame (fs0 fs1 : files) (r : result unit) (p : string) :
  __extract_segy_trace_headers self fs0 current_file = (r, fs1) ->
  p <> txt_path self current_file ->
  p <> parquet_path self current_file ->
  fs1 !! p = fs0 !! p.
Proof.
  unfold __extract_segy_trace_headers. intros E Htxt Hpq.
  destruct (__save_segy_text_header_as_txt self fs0 current_file) as [fsa|e] eqn:Etxt;
    [|now injection E as <- <-].
  apply save_text_header_writes in Etxt as (path & header & _ & _ & ->).
  destruct (__read_and_save_segy_headers self _ current_file) as [fsb|e] eqn:Epq.
  - apply read_and_save_writes in Epq as (t & Ht & ->). injection E as <- <-.
    now rewrite !lookup_insert_ne by congruence.
  - injection E as <- <-. now rewrite lookup_insert_ne by congruence.
Qed.

Lemma get_segy_information_fs (w w1 : world) (r : result (string * value)) :
  get_segy_information self w current_file = (r, w1) -> fs w1 = fs w.
Proof.
  unfold get_segy_information. destruct (_ ≫= _); now intros [= <- <-].
Qed.

(** X3. [get_seismic_statistics] writes at most one file, the statistics
    entry of the name, and only when it returns: a call that raises leaves
    every file as it was. *)
Theorem statistics_outcome (w w1 : world) (r : result json) :
  get_seismic_statistics self w current_file = (r, w1) ->
  match r with
  | Ok entry =>
      fs w1 = fs w \/
      fs w1 = <[json_path self current_file := JsonFile entry]> (fs w)
  | Raise _ => fs w1 = fs w
  end.
Proof.
  unfold get_seismic_statistics.
  destruct (FileHandler.load_segy_from_json _ _ _) as [j|e]; [|now intros [= <- <-]].
  assert (Hhit : (Ok j, w) = (r, w1) ->
                 match r with
                 | Ok entry =>
                     fs w1 = fs w \/
                     fs w1 = <[json_path self current_file := JsonFile entry]> (fs w)
                 | Raise _ => fs w1 = fs w
                 end).
  { intros [= <- <-]. now left. }
  destruct j as [[]| |]; try exact Hhit. clear Hhit.
  destruct (FileHandler.get_columns_from_parquet _ _ _) as [columns|e];
    [|now intros [= <- <-]].
  destruct (get_segy_information self w current_file)
    as [[[text scalar]|e] w'] eqn:Hinfo.
  - pose proof (get_segy_information_fs _ _ _ Hinfo) as Hfs.
    apply get_segy_information_counts in Hinfo as (_ & _ & Hscalar).
    destruct (Hscalar text scalar eq_refl) as [s ->].
    intros [= <- <-]. right. unfold with_fs. cbn [fs].
    unfold FileHandler.save_segy_information_to_json.
    fold (json_path self current_file). now rewrite stats_entry_roundtrip, Hfs.
  - apply get_segy_information_fs in Hinfo. now intros [= <- <-].
Qed.

Lemma statistics_frame (w w1 : world) (r : result json) (p : string) :
  get_seismic_statistics self w current_file = (r, w1) ->
  p <> json_path self current_file ->
  fs w1 !! p = fs w !! p.
Proof.
  unfold get_seismic_statistics. intros E Hjson.
  destruct (FileHandler.load_segy_from_json _ _ _) as [j|e]; [|now injection E as <- <-].
  assert (Hhit : (Ok j, w) = (r, w1) -> fs w1 !! p = fs w !! p)
    by now intros [= <- <-].
  destruct j as [[]| |]; try exact (Hhit E). clear Hhit.
  destruct (FileHandler.get_columns_from_parquet _ _ _) as [columns|e];
    [|now injection E as <- <-].
  destruct (get_segy_information self w current_file)
    as [[[text scalar]|e] w'] eqn:Hinfo;
    apply get_segy_information_fs in Hinfo; injection E as <- <-.
  - unfold with_fs, FileHandler.save_segy_information_to_json. cbn [fs].
    fold (json_path self current_file).
    now rewrite lookup_insert_ne, Hinfo by congruence.
  - now rewrite Hinfo.
Qed.

(** The paths [process_segy_file] may write. *)
Lemma process_writes (w : world) (p : string) :
  p <> txt_path self current_file ->
  p <> parquet_path self current_file ->
  p <> json_path self current_file ->
  fs (process_segy_file self w current_file).2 !! p = fs w !! p.
Proof.
  intros Htxt Hpq Hjson. unfold process_segy_file.
  destruct (get_segy_base_name self current_file) as [b|e]; [|reflexivity].
  set (checked := if negb (path_exists _ _) then _ else _).
  assert (Hchecked : fs checked.2 !! p = fs w !! p).
  { subst checked. destruct (negb (path_exists _ _)); [|reflexivity].
    destruct (str_eqb current_file b); [|reflexivity].
    destruct (__extract_segy_trace_headers self (fs w) current_file) as [r fs1] eqn:E.
    cbn [snd with_fs fs]. now apply (extract_headers_frame _ _ _ _ E). }
  destruct checked as [[[]|e] w1]; cbn [snd] in *; [|exact Hchecked].
  destruct (get_seismic_statistics self w1 current_file) as [r w2] eqn:E.
  cbn [snd]. rewrite <- Hchecked. now apply (statistics_frame _ _ _ _ E).
Qed.

(** X4. [process_segy_file] is read-only on the sources: whatever it does
    and however it ends, every file with a [.sgy] or [.segy] extension in
    the data directory is left as it was, and every name resolves to the
    same source path as before. *)
Theorem process_keeps_sources (w : world) (name : string) :
  fs (process_segy_file self w current_file).2 !! sgy_path self name
  = fs w !! sgy_path self name /\
  fs (process_segy_file self w current_file).2 !! segy_path self name
  = fs w !! segy_path self name /\
  FileHandler.get_segy_file_path (super self)
    (fs (process_segy_file self w current_file).2) name
  = FileHandler.get_segy_file_path (super self) (fs w) name.
Proof.
  destruct (source_not_written name current_file _ (or_introl eq_refl)) as (H1 & H2 & H3).
  destruct (source_not_written name current_file _ (or_intror eq_refl)) as (H4 & H5 & H6).
  pose proof (process_writes w _ H1 H2 H3) as Hs.
  pose proof (process_writes w _ H4 H5 H6) as Hg.
  split; [exact Hs|]. split; [exact Hg|].
  now apply get_segy_file_path_frame.
Qed.

End Writes.

(** ** Round trips through the files *)

(** Induction over JSON documents. *)
Lemma json_induction (P : json -> Prop) :
  (forall v, P (JVal v)) ->
  (forall l, Forall P l -> P (JList l)) ->
  (forall kv, Forall (fun p => P (snd p)) kv -> P (JObj kv)) ->
  forall j, P j.
Proof.
  intros Hval Hlist Hobj.
  refine (fix go (j : json) : P j :=
            match j with
            | JVal v => Hval v
            | JList l =>
                Hlist l ((fix all (l : list json) : Forall P l :=
                            match l with
                            | [] => @List.Forall_nil _ P
                            | x :: l' => @List.Forall_cons _ P x l' (go x) (all l')
                            end) l)
            | JObj kv =>
                Hobj kv ((fix all (kv : list (string * json))
                           : Forall (fun p => P (snd p)) kv :=
                            match kv with
                            | [] => @List.Forall_nil _ (fun p => P (snd p))
                            | p :: kv' => @List.Forall_cons _ (fun p => P (snd p)) p kv'
                                            (go (snd p)) (all kv')
                            end) kv)
            end).
Qed.

Lemma json_roundtrip_no_np_int (j : json) :
  has_np_int (FileHandler.json_roundtrip j) = false.
Proof.
  induction j as [v|l IH|kv IH] using json_induction.
  - destruct v; reflexivity.
  - cbn [FileHandler.json_roundtrip has_np_int].
    induction IH as [|x l Hx _ IHl]; [reflexivity|].
    cbn [map existsb]. now rewrite Hx, IHl.
  - cbn [FileHandler.json_roundtrip has_np_int].
    induction IH as [|p kv Hp _ IHkv]; [reflexivity|].
    cbn [map existsb snd]. now rewrite Hp, IHkv.
Qed.

Lemma json_roundtrip_plain (j : json) :
  has_np_int j = false -> FileHandler.json_roundtrip j = j.
Proof.
  induction j as [v|l IH|kv IH] using json_induction.
  - destruct v; try reflexivity. discriminate.
  - cbn [FileHandler.json_roundtrip has_np_int]. intros Hl. f_equal.
    induction IH as [|x l Hx _ IHl]; [reflexivity|].
    cbn [map existsb] in *. apply orb_false_iff in Hl as [H1 H2].
    now rewrite Hx, IHl.
  - cbn [FileHandler.json_roundtrip has_np_int]. intros Hl. f_equal.
    induction IH as [|[k v] kv Hp _ IHkv]; [reflexivity|].
    cbn [map existsb snd fst] in *. apply orb_false_iff in Hl as [H1 H2].
    now rewrite Hp, IHkv.
Qed.

(** X5. Saving a document and loading it back gives the document with
    every numpy integer turned into its decimal text and nothing else
    changed: a document without numpy integers comes back as it was, and
    what comes back is stable under further saving and loading. Other JSON
    files are not touched. *)
Theorem json_save_load (self : FileHandler.FileHandler) (fs0 : files)
  (file_name : string) (data : json) :
  let fs1 := FileHandler.save_segy_information_to_json self fs0 file_name data in
  let back := FileHandler.json_roundtrip data in
  FileHandler.load_segy_from_json self fs1 file_name = Ok back /\
  (has_np_int data = false -> back = data) /\
  FileHandler.load_segy_from_json self
    (FileHandler.save_segy_information_to_json self fs1 file_name back) file_name
  = Ok back /\
  (forall other,
     FileHandler.get_json_filepath self other <> FileHandler.get_json_filepath self file_name ->
     FileHandler.load_segy_from_json self fs1 other
     = FileHandler.load_segy_from_json self fs0 other).
Proof.
  cbv zeta. unfold FileHandler.load_segy_from_json,
    FileHandler.save_segy_information_to_json.
  rewrite !lookup_insert_eq. split; [reflexivity|].
  split; [apply json_roundtrip_plain|].
  split.
  - now rewrite (json_roundtrip_plain _ (json_roundtrip_no_np_int data)).
  - intros other Hother. now rewrite lookup_insert_ne by congruence.
Qed.

Lemma reset_index_default (df : DataFrame) :
  df_index df = range (df_len df) -> reset_index df = df.
Proof. destruct df as [idx cols]. unfold reset_index, df_len. cbn. now intros <-. Qed.

Lemma parquet_table_columns (df : DataFrame) :
  df_columns df <> [] -> FileHandler.parquet_table df = reset_index df.
Proof. unfold FileHandler.parquet_table. now destruct (df_columns df). Qed.

(** X6. Writing a table that has a column, and no column name twice, to
    Parquet and reading it back keeps the columns, names and values in
    order, and replaces the index by the default one (the index is not
    stored); a table that has the default index comes back unchanged.
    Reading any other file of the directory is not affected. *)
Theorem parquet_write_read (self : FileHandler.FileHandler) (fs0 : files)
  (df : DataFrame) (file_name : string) :
  df_wf df ->
  df_columns df <> [] ->
  List.NoDup (df_names df) ->
  let fs1 := FileHandler.to_parquet self fs0 df file_name in
  FileHandler.read_parquet self fs1 file_name = Ok (mkDF (range (df_len df)) (df_columns df)) /\
  FileHandler.get_columns_from_parquet self fs1 file_name = Ok (df_names df) /\
  (df_index df = range (df_len df) -> FileHandler.read_parquet self fs1 file_name = Ok df) /\
  (forall other,
     path_join (FileHandler.data_directory self) other
     <> path_join (FileHandler.data_directory self) file_name ->
     FileHandler.read_parquet self fs1 other = FileHandler.read_parquet self fs0 other).
Proof.
  intros Hwf Hcols Hnames. cbv zeta.
  assert (Hread : FileHandler.read_parquet self
                    (FileHandler.to_parquet self fs0 df file_name) file_name
                  = Ok (reset_index df)).
  { unfold FileHandler.read_parquet, FileHandler.pd_read_parquet, FileHandler.to_parquet.
    now rewrite lookup_insert_eq, parquet_table_columns. }
  split; [exact Hread|]. split; [|split].
  - unfold FileHandler.get_columns_from_parquet. now rewrite Hread.
  - intros Hidx. now rewrite Hread, reset_index_default.
  - intros other Hother.
    unfold FileHandler.read_parquet, FileHandler.pd_read_parquet, FileHandler.to_parquet.
    now rewrite lookup_insert_ne by congruence.
Qed.

(** X7. [remove_file] removes exactly the named file: afterwards it does
    not exist and every other path is as before. Removing a file that is
    not there raises [FileNotFoundError]; so does removing the same file a
    second time. *)
Theorem remove_file_outcome (self : FileHandler.FileHandler) (fs0 : files)
  (file_name : string) :
  if FileHandler.file_exists self fs0 file_name then
    exists fs1,
      FileHandler.remove_file self fs0 file_name = Ok fs1 /\
      FileHandler.file_exists self fs1 file_name = false /\
      (forall p, p <> path_join (FileHandler.data_directory self) file_name ->
                 fs1 !! p = fs0 !! p) /\
      (exists e, FileHandler.remove_file self fs1 file_name = Raise e /\
                 exn_cls e = FileNotFoundErrorC)
  else
    exists e, FileHandler.remove_file self fs0 file_name = Raise e /\
              exn_cls e = FileNotFoundErrorC.
Proof.
  unfold FileHandler.file_exists, FileHandler.remove_file.
  set (p := path_join (FileHandler.data_directory self) file_name).
  destruct (path_exists fs0 p) eqn:E; cbn [negb].
  - exists (delete p fs0). split; [reflexivity|].
    assert (Hgone : path_exists (delete p fs0) p = false)
      by (apply path_exists_false, lookup_delete_eq).
    rewrite Hgone. cbn [negb]. split; [reflexivity|]. split.
    + intros q Hq. now rewrite lookup_delete_ne by congruence.
    + eexists. split; reflexivity.
  - eexists. split; reflexivity.
Qed.

(** ** The header-table cache *)

Lemma select_columns_length (cols sel : list (string * list Z)) (labels : list string) :
  select_columns cols labels = Ok sel ->
  map fst sel = labels /\ (forall c, In c sel -> In c cols).
Proof.
  revert sel. induction labels as [|k ks IH]; intros sel; cbn [select_columns].
  - intros [= <-]. split; [reflexivity | intros c []].
  - destruct (assoc k cols) as [xs|] eqn:Hk; [|discriminate].
    destruct (select_columns cols ks) as [rest|e]; [|discriminate].
    ok_steps. intros [= <-]. destruct (IH rest eq_refl) as [Hnames Hin].
    split; [cbn [map fst]; now rewrite Hnames|].
    intros c [<-|Hc]; [now apply assoc_In | now apply Hin].
Qed.

(** The first label that is no column is the one [df[labels]] reports. *)
Lemma select_columns_missing (cols : list (string * list Z))
  (pre post : list string) (k : string) :
  (forall k', In k' pre -> exists xs, assoc k' cols = Some xs) ->
  assoc k cols = None ->
  select_columns cols (pre ++ k :: post)%list = Raise (key_error k).
Proof.
  induction pre as [|k' pre IH]; intros Hpre Hk; cbn [app select_columns].
  - now rewrite Hk.
  - destruct (Hpre k' (or_introl eq_refl)) as [xs ->].
    rewrite IH; [reflexivity | | exact Hk]. intros k'' Hk''. apply Hpre. now right.
Qed.

Lemma dict_set_In_inv {A} (k : string) (v : A) (l : list (string * A)) (c : string * A) :
  In c (dict_set k v l) -> c = (k, v) \/ In c l.
Proof.
  induction l as [|[k' v'] l IH]; cbn [dict_set].
  - intros [<-|[]]. now left.
  - destruct (str_eqb k k').
    + intros [<-|Hc]; [now left | right; now right].
    + intros [<-|Hc]; [right; now left|].
      destruct (IH Hc) as [->|Hin]; [now left | right; now right].
Qed.

Lemma df_has_false_assoc (df : DataFrame) (k : string) :
  df_has df k = false -> assoc k (df_columns df) = None.
Proof.
  destruct (assoc k (df_columns df)) as [xs|] eqn:Hk; [|reflexivity].
  intros Hhas. assert (Hex : exists xs, assoc k (df_columns df) = Some xs) by eauto.
  apply df_has_assoc in Hex. congruence.
Qed.

Section Tables.
Variable self : SegyHandler.
Variable current_file : string.

(** What [read_segy_headers] returns, when it returns. *)
Lemma read_segy_headers_shape (fs0 : files) (t : DataFrame) :
  read_segy_headers self fs0 current_file = Ok t ->
  exists path f sel,
    FileHandler.get_segy_file_path (super self) fs0 current_file = Ok path /\
    fs0 !! path = Some (SegyFile f) /\
    relaxed_error f = None /\
    select_columns (df_columns (header_scrape f)) (retained (header_scan f)) = Ok sel /\
    t = mkDF (range (df_len (header_scrape f)))
             (dict_set "trace_index" (range (df_len (header_scrape f))) sel).
Proof.
  unfold read_segy_headers.
  destruct (FileHandler.get_segy_file_path (super self) fs0 current_file)
    as [path|e] eqn:Hpath; [|discriminate].
  ok_steps. unfold segyio_open, segy_header_scan, segy_header_scrape, read_segy.
  destruct (fs0 !! path) as [[f|df|j|s]|] eqn:Hfile; try discriminate.
  destruct (relaxed_error f) eqn:Hopen; [discriminate|]. ok_steps.
  fold mean_nonzero. fold (retained (header_scan f)). unfold df_select.
  destruct (select_columns _ _) as [sel|e] eqn:Hsel; [|discriminate]. ok_steps.
  intros [= <-]. exists path, f, sel. repeat split; try assumption; try reflexivity.
Qed.

Lemma read_segy_headers_default_index (fs0 : files) (t : DataFrame) :
  read_segy_headers self fs0 current_file = Ok t ->
  df_index t = range (df_len t).
Proof.
  intros Ht. apply read_segy_headers_shape in Ht as (path & f & sel & _ & _ & _ & _ & ->).
  unfold df_len. cbn [df_index]. now rewrite range_length.
Qed.

(** The table that is read is stored as it is: it has the default index and
    the column [trace_index]. *)
Lemma read_segy_headers_stored (fs0 : files) (t : DataFrame) :
  read_segy_headers self fs0 current_file = Ok t ->
  FileHandler.parquet_table t = t.
Proof.
  intros Ht. rewrite parquet_table_columns.
  - apply reset_index_default, (read_segy_headers_default_index fs0 t Ht).
  - apply read_segy_headers_shape in Ht as (path & f & sel & _ & _ & _ & _ & ->).
    cbn [df_columns]. destruct sel as [|[k v] sel]; cbn [dict_set]; [discriminate|].
    destruct (str_eqb "trace_index" k); discriminate.
Qed.

(** The table that is read keeps the shape of the scraped one. *)
Lemma read_segy_headers_wf (fs0 : files) (t : DataFrame) (path : string) (f : segy_file) :
  read_segy_headers self fs0 current_file = Ok t ->
  FileHandler.get_segy_file_path (super self) fs0 current_file = Ok path ->
  fs0 !! path = Some (SegyFile f) ->
  df_wf (header_scrape f) ->
  df_wf t /\ df_len t = df_len (header_scrape f).
Proof.
  intros Ht Hpath Hfile Hwf.
  apply read_segy_headers_shape in Ht as (path' & f' & sel & Hpath' & Hfile' & _ & Hsel & ->).
  assert (path' = path) by congruence. subst path'.
  assert (f' = f) by congruence. subst f'.
  apply select_columns_length in Hsel as [_ Hin].
  unfold df_wf, df_len in *. cbn [df_index df_columns]. rewrite range_length.
  split; [|reflexivity]. rewrite List.Forall_forall in *.
  intros c Hc. apply dict_set_In_inv in Hc as [->|Hc]; [apply range_length|].
  apply Hwf, Hin, Hc.
Qed.

(** X8. When header extraction succeeds, the two files it leaves are a
    faithful copy of what was read from the source: the text file holds the
    text header, and reading the header-table cache back gives exactly the
    table [read_segy_headers] returns for the file, with the same columns in
    the same order. *)
Theorem extracted_table_read_back (fs0 fs1 : files) :
  __extract_segy_trace_headers self fs0 current_file = (Ok (), fs1) ->
  exists path header t,
    FileHandler.get_segy_file_path (super self) fs0 current_file = Ok path /\
    get_segy_texthead fs0 path = Ok header /\
    read_segy_headers self fs0 current_file = Ok t /\
    fs1 = <[parquet_path self current_file := ParquetFile t]>
            (<[txt_path self current_file := TextFile header]> fs0) /\
    FileHandler.read_parquet (super self) fs1 (current_file ++ ".parquet") = Ok t /\
    FileHandler.get_columns_from_parquet (super self) fs1 (current_file ++ ".parquet")
    = Ok (df_names t).
Proof.
  unfold __extract_segy_trace_headers.
  destruct (__save_segy_text_header_as_txt self fs0 current_file) as [fsa|e] eqn:Etxt;
    [|discriminate].
  apply save_text_header_writes in Etxt as (path & header & Hpath & Hhead & ->).
  destruct (__read_and_save_segy_headers self _ current_file) as [fsb|e] eqn:Epq;
    [|discriminate].
  apply read_and_save_writes in Epq as (t & Ht & ->).
  rewrite read_after_text_header in Ht.
  rewrite (read_segy_headers_stored _ _ Ht).
  intros [= <-]. exists path, header, t.
  assert (Hread : FileHandler.read_parquet (super self)
                    (<[parquet_path self current_file := ParquetFile t]>
                       (<[txt_path self current_file := TextFile header]> fs0))
                    (current_file ++ ".parquet") = Ok t).
  { unfold FileHandler.read_parquet, FileHandler.pd_read_parquet.
    fold (data_directory self). fold (parquet_path self current_file).
    now rewrite lookup_insert_eq. }
  repeat split; try assumption.
  unfold FileHandler.get_columns_from_parquet. now rewrite Hread.
Qed.

(** X9. When a header field with a non-zero scanned mean is not a column
    of the scraped table, [read_segy_headers] raises [KeyError], and header
    extraction fails after the text header dump was written: the dump stays
    on disk, no header-table cache is written. *)
Theorem read_segy_headers_missing_column (fs0 : files) (path : string) (f : segy_file)
  (pre post : list string) (k : string) :
  FileHandler.get_segy_file_path (super self) fs0 current_file = Ok path ->
  fs0 !! path = Some (SegyFile f) ->
  relaxed_error f = None ->
  retained (header_scan f) = (pre ++ k :: post)%list ->
  (forall k', In k' pre -> df_has (header_scrape f) k' = true) ->
  df_has (header_scrape f) k = false ->
  (exists e, read_segy_headers self fs0 current_file = Raise e /\ exn_cls e = KeyErrorC) /\
  exists e,
    __extract_segy_trace_headers self fs0 current_file
    = (Raise e, <[txt_path self current_file := TextFile (texthead f)]> fs0) /\
    exn_cls e = ExceptionC /\
    (<[txt_path self current_file := TextFile (texthead f)]> fs0)
      !! parquet_path self current_file
    = fs0 !! parquet_path self current_file.
Proof.
  intros Hpath Hfile Hopen Hret Hpre Hk.
  assert (Hread : read_segy_headers self fs0 current_file = Raise (key_error k)).
  { unfold read_segy_headers. ok_step Hpath.
    unfold segyio_open, segy_header_scan, segy_header_scrape, read_segy.
    rewrite Hfile, Hopen. ok_steps.
    fold mean_nonzero. fold (retained (header_scan f)). unfold df_select.
    rewrite Hret, select_columns_missing; [reflexivity| |now apply df_has_false_assoc].
    intros k' Hk'. apply df_has_assoc. now apply Hpre. }
  split; [eexists; split; [exact Hread | reflexivity]|].
  unfold __extract_segy_trace_headers, __save_segy_text_header_as_txt.
  ok_step Hpath. unfold get_segy_texthead, read_segy. rewrite Hfile. ok_steps.
  fold (txt_path self current_file).
  unfold __read_and_save_segy_headers. rewrite read_after_text_header, Hread.
  eexists. split; [reflexivity|]. split; [reflexivity|].
  apply lookup_insert_ne. apply txt_parquet_differ.
Qed.

End Tables.

(** ** The extractor as a whole *)

Ltac bind_inv H :=
  repeat first
    [ rewrite bind_Ok in H; cbv beta in H
    | match type of H with
      | ((?m ≫= _) ≫= _) = Ok _ => destruct m; [|discriminate H]
      | (?m ≫= _) = Ok _ => destruct m; [|discriminate H]
      end ].

Lemma enter_returns (fs0 : files) (x : SegyInfoExtractor) (f : segy_file) :
  fs0 !! segy_file_path x = Some (SegyFile f) ->
  opens f ->
  exists ig,
    __enter__ fs0 x
    = Ok (mkExtractor (segy_file_path x) (trace_headers x) (Some (negb ig)) (info x)
            (Some (mkHandle f ig))).
Proof.
  intros Hfile Hopens. unfold __enter__, segyio_open. rewrite Hfile.
  destruct Hopens as [-> | (e & -> & Hsort & ->)].
  - now exists false.
  - apply sorting_failure_test in Hsort. apply andb_true_iff in Hsort as [-> ->].
    now exists true.
Qed.

Lemma enter_keeps_table (fs0 : files) (x x' : SegyInfoExtractor) :
  __enter__ fs0 x = Ok x' -> trace_headers x' = trace_headers x.
Proof.
  unfold __enter__.
  destruct (segyio_open fs0 (segy_file_path x) false) as [h|e]; [now intros [= <-]|].
  destruct (is_instance e RuntimeErrorC); [|discriminate].
  destruct (str_contains sorting_signature (exn_msg e)); [|discriminate].
  destruct (segyio_open fs0 (segy_file_path x) true) as [h|e']; [|discriminate].
  now intros [= <-].
Qed.

(** With fewer than two rows there is no source step to take the mode
    of. *)
Lemma short_table_no_step (s : series) :
  header_series s -> (series_len s < 2)%nat ->
  series_item0 (pd_mode (pd_diff s)) = Raise (Exn KeyErrorC "0").
Proof.
  intros [[xs ->]|[n ->]] Hlen; cbn [series_len np_zeros] in Hlen.
  - destruct xs as [|a [|b xs]]; [reflexivity | reflexivity | cbn [length] in Hlen; lia].
  - rewrite repeat_length in Hlen.
    destruct n as [|[|n]]; [reflexivity | reflexivity | lia].
Qed.

Lemma extract_basic_info_short (x : SegyInfoExtractor) :
  df_wf (trace_headers x) ->
  (df_len (trace_headers x) < 2)%nat ->
  exists e, extract_basic_info x = Raise e.
Proof.
  intros Hwf Hlen. unfold extract_basic_info.
  destruct (get_trace_header_value_len x "DelayRecordingTime" Hwf) as (d & -> & _).
  ok_steps. destruct (s_max d) as [m|e]; [|eexists; reflexivity]. ok_steps.
  destruct (py_truediv m 1000) as [q|e]; [|eexists; reflexivity]. ok_steps.
  destruct (get_trace_header_value_len x "SourceX" Hwf) as (sx & Hsx & Hn).
  rewrite Hsx. ok_steps.
  rewrite short_table_no_step;
    [eexists; reflexivity | eapply get_trace_header_value_series, Hsx | lia].
Qed.

(** The keys that only a 3D extraction adds are there for a 3D file. *)
Lemma basic_lines_3d (x : SegyInfoExtractor) (b : basic_information) :
  extract_basic_info x = Ok b -> is3d x = true -> is_Some (basic_lines b).
Proof.
  unfold extract_basic_info. intros Hb H3. rewrite H3 in Hb. bind_inv Hb.
  injection Hb as <-. cbn. eauto.
Qed.

Lemma geometry_lines_3d (x : SegyInfoExtractor) (g : geometry) :
  extract_geometry_info x = Ok g -> is3d x = true -> is_Some (geometry_lines g).
Proof.
  unfold extract_geometry_info. intros Hg H3. rewrite H3 in Hg. bind_inv Hg.
  injection Hg as <-. cbn. eauto.
Qed.

Lemma acquisition_lines_3d `{Platform} (x : SegyInfoExtractor) (a : acquisition) :
  extract_acquisition_info x = Ok a -> is3d x = true -> is_Some (acquisition_lines a).
Proof.
  unfold extract_acquisition_info. intros Ha H3. rewrite H3 in Ha. bind_inv Ha.
  injection Ha as <-. cbn. eauto.
Qed.

Section Report.
Context `{Platform}.

Lemma get_segy_info_text_returns (x : SegyInfoExtractor) (i : all_info) :
  info x = Some i ->
  (is3d x = true ->
   is_Some (basic_lines (basic_information_of i)) /\
   is_Some (geometry_lines (geometry_of i)) /\
   is_Some (acquisition_lines (acquisition_of i))) ->
  exists text, get_segy_info_text x = Ok text.
Proof.
  intros Hinfo Hkeys. unfold get_segy_info_text. rewrite Hinfo. ok_steps. cbv zeta.
  destruct (is3d x); [|eauto].
  destruct (Hkeys eq_refl) as ([bl ->] & [gl ->] & [al ->]).
  cbn [key_of]. ok_steps. eauto.
Qed.

Lemma extract_all_info_short (fs0 : files) (x : SegyInfoExtractor) :
  df_wf (trace_headers x) ->
  (df_len (trace_headers x) < 2)%nat ->
  exists e, extract_all_info fs0 x = Raise e.
Proof.
  intros Hwf Hlen. unfold extract_all_info.
  destruct (__enter__ fs0 x) as [x'|e] eqn:Henter; [|eexists; reflexivity].
  ok_steps. apply enter_keeps_table in Henter.
  destruct (extract_basic_info_short x') as [e He]; [now rewrite Henter..|].
  rewrite He. eexists. reflexivity.
Qed.

Lemma extract_all_info_returns (fs0 : files) (x : SegyInfoExtractor) (f : segy_file) :
  fs0 !! segy_file_path x = Some (SegyFile f) ->
  opens f ->
  df_wf (trace_headers x) ->
  (2 <= df_len (trace_headers x))%nat ->
  exists text s, extract_all_info fs0 x = Ok (text, VStr s).
Proof.
  intros Hfile Hopens Hwf Hlen.
  destruct (enter_returns fs0 x f Hfile Hopens) as [ig Henter].
  set (x' := mkExtractor _ _ _ _ _) in Henter.
  unfold extract_all_info. rewrite Henter. ok_steps.
  destruct (extract_basic_info_returns x' Hwf Hlen) as (sx & b & _ & Hb & _).
  rewrite Hb. ok_steps. cbv zeta.
  destruct (extract_geometry_info_returns x' Hwf) as [g Hg];
    [cbn [x' trace_headers]; lia | cbn; eauto |].
  rewrite Hg. ok_steps.
  destruct (extract_acquisition_info_returns x') as [a Ha]. rewrite Ha. ok_steps.
  unfold get_segy_texthead, read_segy. cbn [x' segy_file_path]. rewrite Hfile. ok_steps.
  match goal with
  | |- exists text s, (get_segy_info_text ?y ≫= _) = _ =>
      destruct (get_segy_info_text_returns y
                  (mkInfo b (extract_binary_header_info x') g a (texthead f)) eq_refl)
        as [text Htext];
      [ intros H3; cbn [basic_information_of geometry_of acquisition_of];
        repeat split;
        [ apply (basic_lines_3d x' b Hb H3)
        | apply (geometry_lines_3d x' g Hg H3)
        | apply (acquisition_lines_3d x' a Ha H3) ]
      | rewrite Htext; ok_steps;
        destruct (extract_scaling_factor_formatted y) as (? & s & _ & _ & Hs);
        rewrite Hs; ok_steps; now exists text, s ]
  end.
Qed.

(** X10. For a file that opens and a well-formed header table,
    [extract_all_info] returns exactly when the table has two rows or more:
    with fewer rows the distance between shot points has no value to take
    and the extraction raises, whatever the file holds. When it returns,
    the report text has not failed on a missing key, and the scaling factor
    is a text. *)
Theorem extract_all_info_returns_iff (fs0 : files) (x : SegyInfoExtractor) (f : segy_file) :
  fs0 !! segy_file_path x = Some (SegyFile f) ->
  opens f ->
  df_wf (trace_headers x) ->
  (exists text s, extract_all_info fs0 x = Ok (text, VStr s))
  <-> (2 <= df_len (trace_headers x))%nat.
Proof.
  intros Hfile Hopens Hwf. split.
  - intros (text & s & Hall).
    destruct (Nat.le_gt_cases 2 (df_len (trace_headers x))) as [Hge|Hlt]; [exact Hge|].
    destruct (extract_all_info_short fs0 x Hwf Hlt) as [e He]. congruence.
  - now apply extract_all_info_returns with (f := f).
Qed.

End Report.

(** X11. [extract_scaling_factor] never returns the default 1: whatever the
    header table holds, it returns the mean of the scalar column (of zeros,
    when there is no such column) formatted as a text, and a text is never
    equal to 0. *)
Theorem scaling_factor_is_text (x : SegyInfoExtractor) :
  exists s str,
    get_trace_header_value x "SourceGroupScalar" = Ok s /\
    extract_scaling_factor x = Ok (VStr str) /\
    VStr str = format_number (VFloat (s_mean s)) /\
    extract_scaling_factor x <> Ok (VInt 1).
Proof.
  destruct (extract_scaling_factor_formatted x) as (s & str & Hs & Hfmt & Hx).
  exists s, str. repeat split; [exact Hs | exact Hx | now rewrite Hfmt|].
  rewrite Hx. discriminate.
Qed.

(** ** The pipeline *)

Lemma find_app_hit {A} (p : A -> bool) (pre post : list A) (a : A) :
  p a = true ->
  exists x, List.find p (pre ++ a :: post)%list = Some x /\ (In x pre \/ x = a).
Proof.
  intros Ha. induction pre as [|y pre IH]; cbn [app List.find].
  - rewrite Ha. exists a. split; [reflexivity | now right].
  - destruct (p y).
    + exists y. split; [reflexivity | left; now left].
    + destruct IH as (x & Hx & Hin). exists x. split; [exact Hx|].
      destruct Hin as [Hin | ->]; [left; now right | now right].
Qed.

(** X12. The registry is searched in order, and a name that contains an
    earlier registered name resolves to that one: a registered name that
    comes after a name it contains is never its own base name, so the
    headers of its file are never extracted; without a header-table cache
    it fails with [ValueError] and nothing is written. *)
Theorem registry_order_matters `{Platform} (self : SegyHandler) (w : world)
  (pre post : list string) (a b : string) :
  available_segy_files self = (pre ++ a :: post)%list ->
  occurs_in a b -> a <> b -> ~ In b pre ->
  (exists base, get_segy_base_name self b = Ok base /\ base <> b) /\
  (fs w !! parquet_path self b = None ->
   invalid (process_segy_file self w b).1 /\ (process_segy_file self w b).2 = w).
Proof.
  intros Hreg Hocc Hne Hpre.
  destruct (find_app_hit (fun name => str_contains name b) pre post a) as (x & Hx & Hin).
  { now apply str_contains_iff. }
  assert (Hxb : x <> b) by (destruct Hin as [Hin | ->]; congruence).
  assert (Hbase : get_segy_base_name self b = Ok x).
  { unfold get_segy_base_name. now rewrite Hreg, Hx. }
  split; [now exists x|]. intros Hpq.
  unfold process_segy_file. rewrite Hbase. fold (parquet_path self b).
  rewrite (path_exists_None _ _ Hpq). cbn [negb].
  destruct (str_eqb_spec b x) as [->|_]; [contradiction|].
  split; [eexists; split; reflexivity | reflexivity].
Qed.

Lemma filter_dict_set_keys {A} (p : string -> bool) (k : string) (v : A)
  (l : list (string * A)) :
  p k = false ->
  List.filter p (map fst (dict_set k v l)) = List.filter p (map fst l).
Proof.
  intros Hk. induction l as [|[k' v'] l IH]; cbn [dict_set map fst List.filter].
  - now rewrite Hk.
  - destruct (str_eqb_spec k k') as [->|Hne]; cbn [map fst List.filter].
    + reflexivity.
    + now rewrite IH.
Qed.

Section Pipeline.
Context `{Platform}.
Variable self : SegyHandler.
Variable current_file : string.

Lemma read_segy_headers_returns (fs0 : files) (path : string) (f : segy_file) :
  FileHandler.get_segy_file_path (super self) fs0 current_file = Ok path ->
  fs0 !! path = Some (SegyFile f) ->
  relaxed_error f = None ->
  (forall k, In k (retained (header_scan f)) -> df_has (header_scrape f) k = true) ->
  exists t,
    read_segy_headers self fs0 current_file = Ok t /\
    List.filter reported (df_names t) = List.filter reported (retained (header_scan f)).
Proof.
  intros Hpath Hfile Hopen Hcols. unfold read_segy_headers. ok_step Hpath.
  unfold segyio_open, segy_header_scan, segy_header_scrape, read_segy.
  rewrite Hfile, Hopen. ok_steps.
  fold mean_nonzero. fold (retained (header_scan f)).
  destruct (select_columns_ok (df_columns (header_scrape f)) (retained (header_scan f)))
    as (sel & Hsel & Hnames & _).
  { intros k Hk. apply df_has_assoc. now apply Hcols. }
  unfold df_select. ok_step Hsel. eexists. split; [reflexivity|].
  unfold df_names, df_set_index_column, reset_index. cbn [df_columns df_index].
  now rewrite filter_dict_set_keys, Hnames by reflexivity.
Qed.

Lemma json_not_written (name : string) :
  json_path self name <> txt_path self name /\
  json_path self name <> parquet_path self name.
Proof.
  split; apply differ_by_last_char;
    rewrite json_path_last, ?txt_path_last, ?parquet_path_last; discriminate.
Qed.

(** X13. The first processing of a survey, end to end. With the default
    data directory, a name without a directory part that is its own base
    name, no header-table cache and no statistics entry yet, a source that
    opens, whose scan lists each field once and whose retained fields are
    all scraped, and two traces or more: [process_segy_file] returns. It has
    written the text header, the header table and the statistics entry, and
    nothing else, and has run the extractor once. The entry it returns lists
    the retained header fields in scan order, less the amplitude and
    trace-index names, and carries the scaling factor as a text. *)
Theorem first_processing (w : world) (path : string) (f : segy_file) :
  data_directory self = FileHandler.data_directory FileHandler.default ->
  ~ occurs_in "/" current_file ->
  get_segy_base_name self current_file = Ok current_file ->
  fs w !! parquet_path self current_file = None ->
  fs w !! json_path self current_file = None ->
  FileHandler.get_segy_file_path (super self) (fs w) current_file = Ok path ->
  fs w !! path = Some (SegyFile f) ->
  relaxed_error f = None ->
  opens f ->
  List.NoDup (map scan_field (header_scan f)) ->
  (forall k, In k (retained (header_scan f)) -> df_has (header_scrape f) k = true) ->
  df_wf (header_scrape f) ->
  (2 <= df_len (header_scrape f))%nat ->
  exists t text s,
    let entry :=
      stats_entry current_file (List.filter reported (retained (header_scan f)))
        text (VStr s) in
    read_segy_headers self (fs w) current_file = Ok t /\
    process_segy_file self w current_file
    = (Ok entry,
       mkWorld (<[json_path self current_file := JsonFile entry]>
                  (<[parquet_path self current_file := ParquetFile t]>
                     (<[txt_path self current_file := TextFile (texthead f)]> (fs w))))
               (S (extractions w))).
Proof.
  intros Hdir Hplain Hbase Hpq Hjson Hpath Hfile Hrelaxed Hopens Hnd Hcols Hwf Hlen.
  destruct (read_segy_headers_returns (fs w) path f Hpath Hfile Hrelaxed Hcols)
    as (t & Ht & Hnames).
  destruct (read_segy_headers_wf self current_file (fs w) t path f Ht Hpath Hfile Hwf)
    as [Hwft Hlent].
  pose proof (read_segy_headers_default_index self current_file (fs w) t Ht) as Hidx.
  destruct (get_segy_file_path_cases self (fs w) current_file path Hpath) as [_ Hsrc].
  destruct (source_not_written self current_file current_file path Hsrc)
    as (Hsrc_txt & Hsrc_pq & _).
  destruct (json_not_written current_file) as [Hj_txt Hj_pq].
  set (fs1 := <[parquet_path self current_file := ParquetFile t]>
                (<[txt_path self current_file := TextFile (texthead f)]> (fs w))).
  (* the extraction of the headers *)
  assert (Hextract : __extract_segy_trace_headers self (fs w) current_file = (Ok (), fs1)).
  { unfold __extract_segy_trace_headers, __save_segy_text_header_as_txt.
    ok_step Hpath. unfold get_segy_texthead, read_segy. rewrite Hfile. ok_steps.
    fold (txt_path self current_file).
    unfold __read_and_save_segy_headers. rewrite read_after_text_header, Ht. ok_steps.
    unfold FileHandler.to_parquet. fold (data_directory self).
    fold (parquet_path self current_file).
    now rewrite (read_segy_headers_stored self current_file (fs w) t Ht). }
  (* what the statistics then find on disk *)
  assert (Hfile1 : fs1 !! path = Some (SegyFile f)).
  { subst fs1. now rewrite !lookup_insert_ne by congruence. }
  assert (Hjson1 : fs1 !! json_path self current_file = None).
  { subst fs1. now rewrite !lookup_insert_ne by congruence. }
  assert (Hpq1 : fs1 !! parquet_path self current_file = Some (ParquetFile t)).
  { subst fs1. apply lookup_insert_eq. }
  assert (Hpath1 : FileHandler.get_segy_file_path (super self) fs1 current_file = Ok path).
  { rewrite <- Hpath. apply get_segy_file_path_frame; subst fs1;
      rewrite !lookup_insert_ne; try reflexivity;
      first [ apply not_eq_sym,
                (source_not_written self current_file current_file _ (or_introl eq_refl))
            | apply not_eq_sym,
                (source_not_written self current_file current_file _ (or_intror eq_refl)) ]. }
  destruct (extract_all_info_returns fs1
              (mkExtractor path t None None None) f Hfile1 Hopens Hwft)
    as (text & s & Hall); [cbn [trace_headers]; lia|].
  exists t, text, s. cbv zeta. split; [exact Ht|].
  unfold process_segy_file. rewrite Hbase. fold (parquet_path self current_file).
  rewrite (path_exists_None _ _ Hpq). cbn [negb]. rewrite str_eqb_refl, Hextract.
  unfold get_seismic_statistics, FileHandler.load_segy_from_json.
  fold (json_path self current_file).
  change (with_fs w fs1) with (mkWorld fs1 (extractions w)). cbn [fs]. rewrite Hjson1.
  unfold FileHandler.get_columns_from_parquet, FileHandler.read_parquet,
    FileHandler.pd_read_parquet.
  fold (data_directory self). fold (parquet_path self current_file). rewrite Hpq1.
  unfold get_segy_information. cbn [fs extractions]. ok_step Hbase. ok_step Hpath1.
  unfold SegyInfoExtractor.init, FileHandler.read_parquet, FileHandler.pd_read_parquet.
  rewrite <- Hdir. fold (parquet_path self current_file). rewrite Hpq1. ok_steps.
  rewrite Hall. fold reported. rewrite Hnames.
  unfold with_fs, FileHandler.save_segy_information_to_json. cbn [fs extractions].
  fold (json_path self current_file). now rewrite stats_entry_roundtrip.
Qed.

(** X14. A statistics entry that is computed is computed from two header
    tables: its column names are those of the handler's own cache,
    [<data_directory>/<name>.parquet], while the report and the scaling
    factor are extracted from the table at [./data/<name>.parquet], which
    the extractor reads through a [FileHandler()] of its own, whatever
    directory the handler works in. Both files must hold a table for the
    call to return. *)
Theorem statistics_read_two_tables (w w1 : world) (entry : json) :
  fs w !! json_path self current_file = None ->
  get_seismic_statistics self w current_file = (Ok entry, w1) ->
  exists own_table default_table base path text s,
    fs w !! parquet_path self current_file = Some (ParquetFile own_table) /\
    fs w !! extractor_table_path current_file = Some (ParquetFile default_table) /\
    get_segy_base_name self current_file = Ok base /\
    FileHandler.get_segy_file_path (super self) (fs w) base = Ok path /\
    extract_all_info (fs w) (mkExtractor path default_table None None None)
    = Ok (text, VStr s) /\
    entry = stats_entry current_file (List.filter reported (df_names own_table))
              text (VStr s).
Proof.
  intros Hjson.
  unfold get_seismic_statistics, FileHandler.load_segy_from_json.
  fold (json_path self current_file). rewrite Hjson.
  unfold FileHandler.get_columns_from_parquet, FileHandler.read_parquet,
    FileHandler.pd_read_parquet.
  fold (data_directory self). fold (parquet_path self current_file).
  destruct (fs w !! parquet_path self current_file) as [[f|own_table|j|txt]|] eqn:Hown;
    try discriminate.
  unfold get_segy_information.
  destruct (get_segy_base_name self current_file) as [base|e] eqn:Hbase;
    [|discriminate].
  ok_steps.
  destruct (FileHandler.get_segy_file_path (super self) (fs w) base) as [path|e] eqn:Hpath;
    [|discriminate].
  ok_steps.
  unfold SegyInfoExtractor.init, FileHandler.read_parquet, FileHandler.pd_read_parquet.
  fold (extractor_table_path current_file).
  destruct (fs w !! extractor_table_path current_file)
    as [[f|default_table|j|txt]|] eqn:Hdefault; try discriminate.
  ok_steps.
  destruct (extract_all_info (fs w) (mkExtractor path default_table None None None))
    as [[text scalar]|e] eqn:Hall; [|discriminate].
  destruct (extract_all_info_scalar _ _ _ _ Hall) as [s ->].
  intros [= <- <-].
  exists own_table, default_table, base, path, text, s.
  repeat split; first [assumption | reflexivity].
Qed.

End Pipeline.

(** ** Ranges and lookups *)

Lemma get_trace_header_value_column (x : SegyInfoExtractor) (key : string) (xs : list Z) :
  assoc key (df_columns (trace_headers x)) = Some xs ->
  get_trace_header_value x key = Ok (PdSeries xs).
Proof.
  intros Hxs. destruct (get_trace_header_value_cases x key) as [(ys & Hys & ->)|[Hno _]].
  - congruence.
  - assert (Hhas : df_has (trace_headers x) key = true) by (apply df_has_assoc; eauto).
    congruence.
Qed.

Lemma formatted_range (x : SegyInfoExtractor) (key : string) (xs : list Z) :
  assoc key (df_columns (trace_headers x)) = Some xs -> xs <> [] ->
  exists lo hi,
    formatted_min x key = Ok (VInt lo) /\ formatted_max x key = Ok (VInt hi) /\
    In lo xs /\ In hi xs /\ forall v, In v xs -> lo <= v <= hi.
Proof.
  intros Hxs Hne. destruct xs as [|a xs]; [contradiction|].
  unfold formatted_min, formatted_max.
  rewrite (get_trace_header_value_column x key _ Hxs). ok_steps.
  cbn [s_min s_max]. ok_steps. cbn [format_number].
  destruct (fold_min_spec xs a) as [Hlo Hle], (fold_max_spec xs a) as [Hhi Hge].
  do 2 eexists. repeat split; try reflexivity; try assumption.
  - now apply Hle.
  - now apply Hge.
Qed.

Ltac bind_inv_eq H :=
  repeat first
    [ rewrite bind_Ok in H; cbv beta in H
    | match type of H with
      | ((?m ≫= _) ≫= _) = Ok _ => destruct m eqn:?; [|discriminate H]
      | (?m ≫= _) = Ok _ => destruct m eqn:?; [|discriminate H]
      end ].

(** X15. The ranges basic info reports enclose the data and are attained:
    when the table has a CDP column (an offset column) with a row, the
    first and last CDP (the minimum and maximum offset) of the basic info
    are values of that column, and every value of the column lies between
    them. *)
Theorem basic_ranges_enclose (x : SegyInfoExtractor) (b : basic_information)
  (key : string) (xs : list Z) :
  extract_basic_info x = Ok b ->
  assoc key (df_columns (trace_headers x)) = Some xs -> xs <> [] ->
  (key = "CDP" ->
   exists lo hi, first_cdp b = VInt lo /\ last_cdp b = VInt hi /\
                 In lo xs /\ In hi xs /\ forall v, In v xs -> lo <= v <= hi) /\
  (key = "offset" ->
   exists lo hi, min_offset b = VInt lo /\ max_offset b = VInt hi /\
                 In lo xs /\ In hi xs /\ forall v, In v xs -> lo <= v <= hi).
Proof.
  intros Hb Hxs Hne.
  destruct (formatted_range x key xs Hxs Hne) as (lo & hi & Hlo & Hhi & Hrange).
  unfold extract_basic_info in Hb. destruct (is3d x); bind_inv_eq Hb;
    injection Hb as <-; cbn [first_cdp last_cdp min_offset max_offset];
    (split; intros ->; exists lo, hi;
     (split; [congruence | split; [congruence | exact Hrange]])).
Qed.

(** X16. [get_segy_file_path] prefers the [.sgy] extension: it returns the
    [.sgy] path whenever [file_exists] finds that file, the [.segy] path
    when only that one is found, and raises [FileNotFoundError] exactly
    when [file_exists] finds neither. *)
Theorem get_segy_file_path_priority (self : FileHandler.FileHandler) (fs0 : files)
  (file_name : string) :
  (FileHandler.file_exists self fs0 (file_name ++ ".sgy") = true ->
   FileHandler.get_segy_file_path self fs0 file_name
   = Ok (path_join (FileHandler.data_directory self) (file_name ++ ".sgy"))) /\
  (FileHandler.file_exists self fs0 (file_name ++ ".sgy") = false ->
   FileHandler.file_exists self fs0 (file_name ++ ".segy") = true ->
   FileHandler.get_segy_file_path self fs0 file_name
   = Ok (path_join (FileHandler.data_directory self) (file_name ++ ".segy"))) /\
  ((exists e, FileHandler.get_segy_file_path self fs0 file_name = Raise e /\
              exn_cls e = FileNotFoundErrorC)
   <-> FileHandler.file_exists self fs0 (file_name ++ ".sgy") = false /\
       FileHandler.file_exists self fs0 (file_name ++ ".segy") = false).
Proof.
  unfold FileHandler.get_segy_file_path, FileHandler.possible_extensions,
    FileHandler.file_exists.
  cbn [FileHandler.first_existing].
  destruct (path_exists fs0 (path_join _ (file_name ++ ".sgy")));
    destruct (path_exists fs0 (path_join _ (file_name ++ ".segy")));
    (split; [|split; [|split]]); intros;
    try discriminate; try reflexivity;
    try (split; reflexivity);
    try (eexists; split; reflexivity);
    try match goal with
        | H : exists _, _ |- _ => destruct H as (? & ? & ?); discriminate
        | H : _ /\ _ |- _ => destruct H; discriminate
        end.
Qed.

(** X17. Called for a name that has neither a statistics entry nor a
    header-table cache, [get_seismic_statistics] raises a plain [Exception]
    whose message wraps the missing path twice, and changes nothing: the
    extractor is not run and nothing is written. *)
Theorem statistics_without_table `{Platform} (self : SegyHandler) (w : world)
  (current_file : string) :
  fs w !! json_path self current_file = None ->
  fs w !! parquet_path self current_file = None ->
  get_seismic_statistics self w current_file
  = (Raise (Exn ExceptionC
              ("Error getting columns from Parquet file: File "
               ++ parquet_path self current_file ++ " not found.")),
     w).
Proof.
  intros Hjson Hpq.
  unfold get_seismic_statistics, FileHandler.load_segy_from_json.
  fold (json_path self current_file). rewrite Hjson.
  unfold FileHandler.get_columns_from_parquet, FileHandler.read_parquet,
    FileHandler.pd_read_parquet.
  fold (data_directory self). fold (parquet_path self current_file).
  now rewrite Hpq.
Qed.

(** ** Counts *)

(** X18. Whenever the fold metrics of a table with CDP values are numbers
    and not the sentinel, the minimum and the maximum fold are the numbers
    of rows of two CDP values of the table, the number of rows of every CDP
    value lies between them, no CDP has a fold below one, and the folds of
    the different CDP values add up to the number of rows. *)
Theorem fold_bounds `{Platform} (x : SegyInfoExtractor) (acq : acquisition)
  (xs : list Z) :
  extract_acquisition_info x = Ok acq ->
  assoc "CDP" (df_columns (trace_headers x)) = Some xs ->
  xs <> [] ->
  maximum_fold acq <> not_applicable ->
  exists keys kmin kmax,
    List.NoDup keys /\ (forall k, In k keys <-> In k xs) /\
    sumZ (map (fun k => occurrences k xs) keys) = Zlen xs /\
    In kmin xs /\ In kmax xs /\
    minimum_fold acq = VInt (occurrences kmin xs) /\
    maximum_fold acq = VInt (occurrences kmax xs) /\
    forall k, In k xs ->
      1 <= occurrences kmin xs /\
      occurrences kmin xs <= occurrences k xs <= occurrences kmax xs.
Proof.
  intros Hacq Hxs Hne Hnum.
  pose proof (get_trace_header_value_column x "CDP" xs Hxs) as Hcdp.
  destruct (std_ne_zero (PdSeries xs)) eqn:E.
  - destruct (group_sizes_spec xs Hne)
      as (keys & s0 & sizes & kmin & kmax & Hsizes & Hnd & Hkeys & Hocc & Hsum
          & Hkmin & Hkmax & Hmin & Hmax & Hbounds).
    destruct (acquisition_numeric x xs s0 sizes acq Hcdp E Hsizes Hacq)
      as (_ & Hmx & Hmn).
    exists keys, kmin, kmax. rewrite Hmx, Hmn, <- Hocc, Hmin, Hmax.
    split; [exact Hnd|]. split; [exact Hkeys|]. split; [exact Hsum|].
    split; [exact Hkmin|]. split; [exact Hkmax|]. split; [reflexivity|].
    split; [reflexivity | exact Hbounds].
  - destruct (acquisition_sentinel x _ acq Hcdp E Hacq) as (_ & Hmx & _).
    contradiction.
Qed.

(** X19. Geometry info takes the number of traces from the open file and
    the number of shots from the header table: total shots is the number of
    distinct source X values of the table, so it never exceeds the number
    of rows. *)
Theorem total_shots_counts_distinct (x : SegyInfoExtractor) (g : geometry) (xs : list Z) :
  extract_geometry_info x = Ok g ->
  assoc "SourceX" (df_columns (trace_headers x)) = Some xs ->
  (exists h, segyio_file x = Some h /\ total_traces g = VInt (tracecount (h_file h))) /\
  exists distinct,
    List.NoDup distinct /\
    (forall v, In v distinct <-> In v xs) /\
    total_shots g = VInt (Zlen distinct) /\
    Zlen distinct <= Zlen xs.
Proof.
  intros Hg Hxs. unfold extract_geometry_info in Hg.
  destruct (segyio_file x) as [h|]; [|discriminate].
  rewrite bind_Ok in Hg. cbv beta in Hg.
  rewrite (get_trace_header_value_column x "SourceX" xs Hxs) in Hg.
  rewrite bind_Ok in Hg. cbv beta zeta in Hg. cbn [n_unique] in Hg.
  assert (Hfields : total_traces g = VInt (tracecount (h_file h)) /\
                    total_shots g = VInt (Zlen (dedup_by Z.eqb xs))).
  { destruct (is3d x); bind_inv Hg; injection Hg as <-; split; reflexivity. }
  destruct Hfields as [Htraces Hshots].
  split; [now exists h|].
  exists (dedup_by Z.eqb xs).
  split; [apply dedup_by_NoDup|]. split; [intros v; apply dedup_by_In|].
  split; [exact Hshots|].
  unfold Zlen. apply Nat2Z.inj_le, List.NoDup_incl_length; [apply dedup_by_NoDup|].
  intros v Hv. exact (proj1 (dedup_by_In v xs) Hv).
Qed.

(** ** The further properties on the example inputs *)

Lemma survey_opens : opens survey.
Proof.
  right. eexists. split; [reflexivity|]. split; [|reflexivity].
  split; [reflexivity|]. apply str_contains_iff. reflexivity.
Defined.

Lemma survey_scrape_wf : df_wf survey_scrape.
Proof. repeat constructor. Defined.

Lemma survey_table_wf : df_wf survey_table.
Proof. repeat constructor. Defined.

Lemma survey_scan_nodup : List.NoDup (map scan_field (header_scan survey)).
Proof.
  cbn [header_scan survey survey_scan map scan_field].
  repeat (apply List.NoDup_cons; [cbn [In]; intuition discriminate|]).
  apply List.NoDup_nil.
Defined.

Lemma survey_retained_scraped (k : string) :
  In k (retained (header_scan survey)) -> df_has (header_scrape survey) k = true.
Proof.
  intros Hk. vm_compute in Hk.
  repeat (destruct Hk as [<-|Hk]; [vm_compute; reflexivity|]). destruct Hk.
Defined.

Lemma extract_headers_failure_witness :
  exists e fs1,
    __extract_segy_trace_headers survey_handler ragged_disk "line1" = (Raise e, fs1) /\
    exn_cls e = ExceptionC /\
    (fs1 = ragged_disk \/
     exists header cause,
       fs1 = <[txt_path survey_handler "line1" := TextFile header]> ragged_disk /\
       read_segy_headers survey_handler ragged_disk "line1" = Raise cause).
Proof.
  destruct (__extract_segy_trace_headers survey_handler ragged_disk "line1")
    as [[[]|e] fs1] eqn:E; [vm_compute in E; discriminate E|].
  exists e, fs1. split; [reflexivity|].
  destruct (extract_headers_failure survey_handler "line1" ragged_disk fs1 e E)
    as (Hcls & _ & Hfs).
  split; assumption.
Defined.

Lemma statistics_outcome_witness :
  @get_seismic_statistics listing_with_job survey_handler cached_world "line1"
  = (Ok cached_entry, cached_world) /\
  (fs cached_world = fs cached_world \/
   fs cached_world
   = <[json_path survey_handler "line1" := JsonFile cached_entry]> (fs cached_world)).
Proof.
  assert (Hcall : @get_seismic_statistics listing_with_job survey_handler cached_world
                    "line1" = (Ok cached_entry, cached_world))
    by (vm_compute; reflexivity).
  split; [exact Hcall|].
  exact (@statistics_outcome listing_with_job survey_handler "line1" cached_world
           cached_world (Ok cached_entry) Hcall).
Defined.

Lemma json_save_load_witness :
  has_np_int plain_document = false /\
  FileHandler.load_segy_from_json FileHandler.default
    (FileHandler.save_segy_information_to_json FileHandler.default survey_disk
       "line1.json" plain_document) "line1.json"
  = Ok plain_document /\
  FileHandler.load_segy_from_json FileHandler.default
    (FileHandler.save_segy_information_to_json FileHandler.default survey_disk
       "line1.json" numpy_document) "line1.json"
  = Ok plain_document.
Proof.
  assert (Hplain : has_np_int plain_document = false) by reflexivity.
  split; [exact Hplain|].
  destruct (json_save_load FileHandler.default survey_disk "line1.json" plain_document)
    as (Hload & Hid & _).
  destruct (json_save_load FileHandler.default survey_disk "line1.json" numpy_document)
    as (Hnp & _).
  split; [now rewrite Hload, (Hid Hplain) | exact Hnp].
Defined.

Lemma survey_table_names : List.NoDup (df_names survey_table).
Proof.
  cbn [df_names survey_table df_columns map fst].
  repeat (apply List.NoDup_cons; [cbn [In]; intuition discriminate|]).
  apply List.NoDup_nil.
Defined.

Lemma parquet_write_read_witness :
  df_wf survey_table /\
  List.NoDup (df_names survey_table) /\
  FileHandler.read_parquet FileHandler.default
    (FileHandler.to_parquet FileHandler.default survey_disk survey_table "line1.parquet")
    "line1.parquet"
  = Ok survey_table /\
  FileHandler.read_parquet FileHandler.default
    (FileHandler.to_parquet FileHandler.default survey_disk survey_table "line1.parquet")
    "line2.parquet"
  = FileHandler.read_parquet FileHandler.default survey_disk "line2.parquet".
Proof.
  split; [exact survey_table_wf|]. split; [exact survey_table_names|].
  destruct (parquet_write_read FileHandler.default survey_disk survey_table "line1.parquet"
              survey_table_wf)
    as (_ & _ & Hsame & Hother); [discriminate | exact survey_table_names |].
  split; [apply Hsame; reflexivity | apply Hother; discriminate].
Defined.

Lemma remove_file_outcome_witness :
  FileHandler.file_exists FileHandler.default survey_disk "line1.sgy" = true /\
  exists fs1,
    FileHandler.remove_file FileHandler.default survey_disk "line1.sgy" = Ok fs1 /\
    FileHandler.file_exists FileHandler.default fs1 "line1.sgy" = false /\
    fs1 !! "./data/line2.sgy" = survey_disk !! "./data/line2.sgy".
Proof.
  assert (Hthere : FileHandler.file_exists FileHandler.default survey_disk "line1.sgy" = true)
    by reflexivity.
  split; [exact Hthere|].
  pose proof (remove_file_outcome FileHandler.default survey_disk "line1.sgy") as Hout.
  rewrite Hthere in Hout. destruct Hout as (fs1 & Hrm & Hgone & Hframe & _).
  exists fs1. split; [exact Hrm|]. split; [exact Hgone|]. apply Hframe. discriminate.
Defined.

Lemma extracted_table_read_back_witness :
  exists fs1,
    __extract_segy_trace_headers survey_handler survey_disk "line1" = (Ok (), fs1) /\
    FileHandler.read_parquet (super survey_handler) fs1 "line1.parquet" = Ok survey_table /\
    FileHandler.get_columns_from_parquet (super survey_handler) fs1 "line1.parquet"
    = Ok ["TRACE_SEQUENCE_LINE"; "CDP"; "SourceX"; "SourceGroupScalar"; "trace_index"].
Proof.
  destruct (__extract_segy_trace_headers survey_handler survey_disk "line1")
    as [[[]|e] fs1] eqn:E; [|vm_compute in E; discriminate E].
  exists fs1. split; [reflexivity|].
  destruct (extracted_table_read_back survey_handler "line1" survey_disk fs1 E)
    as (path & header & t & _ & _ & Ht & _ & Hread & Hcols).
  assert (Htable : t = survey_table) by (vm_compute in Ht; now injection Ht as <-).
  rewrite Htable in Hread, Hcols. split; [exact Hread | exact Hcols].
Defined.

Lemma read_segy_headers_missing_column_witness :
  retained (header_scan ragged_survey) = ["CDP"; "SourceY"] /\
  df_has (header_scrape ragged_survey) "SourceY" = false /\
  (exists e, read_segy_headers survey_handler ragged_disk "line1" = Raise e /\
             exn_cls e = KeyErrorC) /\
  exists e,
    __extract_segy_trace_headers survey_handler ragged_disk "line1"
    = (Raise e, <[txt_path survey_handler "line1" := TextFile "C 1 CLIENT"]> ragged_disk).
Proof.
  assert (Hret : retained (header_scan ragged_survey) = (["CDP"] ++ "SourceY" :: [])%list)
    by (vm_compute; reflexivity).
  assert (Hno : df_has (header_scrape ragged_survey) "SourceY" = false) by reflexivity.
  split; [exact Hret|]. split; [exact Hno|].
  destruct (read_segy_headers_missing_column survey_handler "line1" ragged_disk
              "./data/line1.sgy" ragged_survey ["CDP"] [] "SourceY")
    as (Hread & e & He & _); try reflexivity; try assumption.
  - intros k' [<-|[]]. reflexivity.
  - split; [exact Hread|]. now exists e.
Defined.

Lemma extract_all_info_returns_iff_witness :
  survey_disk !! segy_file_path survey_extractor = Some (SegyFile survey) /\
  (2 <= df_len (trace_headers survey_extractor))%nat /\
  exists text s,
    @extract_all_info listing_with_job survey_disk survey_extractor = Ok (text, VStr s).
Proof.
  assert (Hfile : survey_disk !! segy_file_path survey_extractor = Some (SegyFile survey))
    by reflexivity.
  assert (Hlen : (2 <= df_len (trace_headers survey_extractor))%nat) by (vm_compute; lia).
  split; [exact Hfile|]. split; [exact Hlen|].
  apply (@extract_all_info_returns_iff listing_with_job survey_disk survey_extractor survey
           Hfile survey_opens survey_table_wf).
  exact Hlen.
Defined.

Lemma registry_order_matters_witness :
  available_segy_files shadowing_handler = ["line"; "line1"] /\
  occurs_in "line" "line1" /\
  (exists base, get_segy_base_name shadowing_handler "line1" = Ok base /\ base <> "line1") /\
  invalid (@process_segy_file listing_with_job shadowing_handler survey_world "line1").1 /\
  (@process_segy_file listing_with_job shadowing_handler survey_world "line1").2
  = survey_world.
Proof.
  assert (Hocc : occurs_in "line" "line1") by (exists "", "1"; reflexivity).
  split; [reflexivity|]. split; [exact Hocc|].
  destruct (@registry_order_matters listing_with_job shadowing_handler survey_world
              [] ["line1"] "line" "line1" eq_refl Hocc) as (Hbase & Hfail).
  - discriminate.
  - intros [].
  - split; [exact Hbase|]. apply Hfail. reflexivity.
Defined.

Lemma first_processing_witness :
  get_segy_base_name survey_handler "line1" = Ok "line1" /\
  fs survey_world !! parquet_path survey_handler "line1" = None /\
  fs survey_world !! json_path survey_handler "line1" = None /\
  exists text s,
    (@process_segy_file listing_with_job survey_handler survey_world "line1").1
    = Ok (stats_entry "line1" ["TRACE_SEQUENCE_LINE"; "CDP"; "SourceX"; "SourceGroupScalar"]
            text (VStr s)) /\
    extractions (@process_segy_file listing_with_job survey_handler survey_world "line1").2
    = 1%nat.
Proof.
  assert (Hbase : get_segy_base_name survey_handler "line1" = Ok "line1")
    by (vm_compute; reflexivity).
  assert (Hpq : fs survey_world !! parquet_path survey_handler "line1" = None)
    by reflexivity.
  assert (Hjson : fs survey_world !! json_path survey_handler "line1" = None)
    by reflexivity.
  split; [exact Hbase|]. split; [exact Hpq|]. split; [exact Hjson|].
  assert (Hplain : ~ occurs_in "/" "line1")
    by (intros Hocc; apply str_contains_iff in Hocc; discriminate Hocc).
  destruct (@first_processing listing_with_job survey_handler "line1" survey_world
              "./data/line1.sgy" survey eq_refl Hplain Hbase Hpq Hjson)
    as (t & text & s & _ & Hcall);
    [ vm_compute; reflexivity | reflexivity | reflexivity | exact survey_opens
    | exact survey_scan_nodup | exact survey_retained_scraped | exact survey_scrape_wf
    | vm_compute; lia | ].
  exists text, s. rewrite Hcall. split; reflexivity.
Defined.

Lemma statistics_read_two_tables_witness :
  exists entry w1 text s,
    @get_seismic_statistics listing_with_job archive_handler two_table_world "line1"
    = (Ok entry, w1) /\
    fs two_table_world !! parquet_path archive_handler "line1"
    = Some (ParquetFile survey_table) /\
    fs two_table_world !! extractor_table_path "line1"
    = Some (ParquetFile (mkDF [0; 1] [("SourceX", [0; 10]); ("CDP", [1; 2])])) /\
    entry = stats_entry "line1" ["TRACE_SEQUENCE_LINE"; "CDP"; "SourceX"; "SourceGroupScalar"]
              text (VStr s).
Proof.
  destruct (@get_seismic_statistics listing_with_job archive_handler two_table_world "line1")
    as [[entry|e] w1] eqn:E; [|vm_compute in E; discriminate E].
  destruct (@statistics_read_two_tables listing_with_job archive_handler "line1"
              two_table_world w1 entry eq_refl E)
    as (own_table & default_table & base & path & text & s & Hown & Hdefault & _ & _ & _
        & Hentry).
  exists entry, w1, text, s. split; [reflexivity|].
  split; [reflexivity|]. split; [reflexivity|].
  assert (Htable : own_table = survey_table)
    by (vm_compute in Hown; now injection Hown as <-).
  now rewrite Hentry, Htable.
Defined.

Lemma basic_ranges_enclose_witness :
  exists b,
    extract_basic_info west_to_east = Ok b /\
    exists lo hi, first_cdp b = VInt lo /\ last_cdp b = VInt hi /\
                  In lo [1; 2] /\ In hi [1; 2] /\ forall v, In v [1; 2] -> lo <= v <= hi.
Proof.
  destruct (extract_basic_info west_to_east) as [b|e] eqn:E;
    [|vm_compute in E; discriminate E].
  exists b. split; [reflexivity|].
  destruct (basic_ranges_enclose west_to_east b "CDP" [1; 2] E) as [Hcdp _];
    [reflexivity | discriminate |].
  exact (Hcdp eq_refl).
Defined.

Lemma get_segy_file_path_priority_witness :
  FileHandler.file_exists FileHandler.default survey_disk "line1.sgy" = true /\
  FileHandler.get_segy_file_path FileHandler.default survey_disk "line1"
  = Ok "./data/line1.sgy".
Proof.
  assert (Hthere : FileHandler.file_exists FileHandler.default survey_disk
                     ("line1" ++ ".sgy") = true) by reflexivity.
  split; [exact Hthere|].
  destruct (get_segy_file_path_priority FileHandler.default survey_disk "line1")
    as (Hsgy & _).
  exact (Hsgy Hthere).
Defined.

Lemma statistics_without_table_witness :
  fs survey_world !! json_path survey_handler "line1" = None /\
  fs survey_world !! parquet_path survey_handler "line1" = None /\
  @get_seismic_statistics listing_with_job survey_handler survey_world "line1"
  = (Raise (Exn ExceptionC
              "Error getting columns from Parquet file: File ./data/line1.parquet not found."),
     survey_world).
Proof.
  assert (Hjson : fs survey_world !! json_path survey_handler "line1" = None)
    by reflexivity.
  assert (Hpq : fs survey_world !! parquet_path survey_handler "line1" = None)
    by reflexivity.
  split; [exact Hjson|]. split; [exact Hpq|].
  exact (@statistics_without_table listing_with_job survey_handler survey_world "line1"
           Hjson Hpq).
Defined.

Lemma fold_bounds_witness :
  exists acq kmin kmax,
    @extract_acquisition_info listing_with_job survey_extractor = Ok acq /\
    maximum_fold acq <> not_applicable /\
    minimum_fold acq = VInt (occurrences kmin [10; 10; 11; 12]) /\
    maximum_fold acq = VInt (occurrences kmax [10; 10; 11; 12]) /\
    1 <= occurrences kmin [10; 10; 11; 12] <= occurrences kmax [10; 10; 11; 12].
Proof.
  destruct (@extract_acquisition_info listing_with_job survey_extractor) as [acq|e] eqn:E;
    [|vm_compute in E; discriminate E].
  assert (Hnum : maximum_fold acq <> not_applicable)
    by (vm_compute in E; injection E as <-; discriminate).
  destruct (@fold_bounds listing_with_job survey_extractor acq [10; 10; 11; 12] E eq_refl)
    as (keys & kmin & kmax & _ & _ & _ & _ & Hkmax & Hmn & Hmx & Hbounds);
    [discriminate | exact Hnum |].
  exists acq, kmin, kmax. split; [reflexivity|]. split; [exact Hnum|].
  split; [exact Hmn|]. split; [exact Hmx|].
  destruct (Hbounds kmax Hkmax) as (H1 & H2 & _). split; assumption.
Defined.

Lemma total_shots_counts_distinct_witness :
  exists g,
    extract_geometry_info west_to_east = Ok g /\
    total_traces g = VInt 2 /\
    exists distinct,
      (forall v, In v distinct <-> In v [0; 10]) /\
      total_shots g = VInt (Zlen distinct).
Proof.
  destruct (extract_geometry_info west_to_east) as [g|e] eqn:E;
    [|vm_compute in E; discriminate E].
  destruct (total_shots_counts_distinct west_to_east g [0; 10] E eq_refl)
    as ((h & Hh & Htraces) & distinct & _ & Hsame & Hshots & _).
  exists g. split; [reflexivity|].
  injection Hh as <-. split; [exact Htraces|]. now exists distinct.
Defined.
